(** * Vertical slideshow component: a shallow embedding

    The repository ships two variants of one custom element,
    [VerticalSlideshow]:

    - [src/assets/vertical-slideshow.js]  (module [V1] below): scrolls by
      assigning an offset computed from a cached slide height, and keeps
      the thumbnail handlers in a [Map] so that they can be removed;
    - [src/unnamed/part_000]             (module [V2] below): scrolls with
      the slide's [scrollIntoView], snaps on wheel input and offers
      [currentIndex], [next] and [previous].

    The component is modelled by explicit state passing.  A [State] holds
    the refs the code reads and writes ([slides], [thumbnailButtons]), the
    private fields ([#isScrolling], [#scrollTimeout], ...) and the part of
    the host the code talks to: the listener registry, the pending timers,
    the scroll requests issued on the container and the custom events
    dispatched.  Layout measurements, the reduced-motion preference and
    the resolution of URLs against the document are read from an [Env].
    The boxes [getBoundingClientRect] gives are made of doubles, and the
    arithmetic on them is that of IEEE 754 binary64; [offsetHeight] is an
    integer.

    The base class [Component] and the utilities [debounce],
    [prefersReducedMotion] and [scrollIntoView] are external to the
    repository sources; only the bodies that this component hands to them
    are modelled. *)

From Stdlib Require Import ZArith QArith Qabs Qpower Lia SpecFloat.
From stdpp Require Import base option list strings gmap pretty.

Set Warnings "-register-all".
Local Open Scope nat_scope.

(** ** JavaScript numbers used as indices *)

(** An index argument is a JavaScript number.  Finite doubles are rationals
    and every comparison the code performs on them is exact, so a finite
    number is a [Q]; the three non-finite values are kept apart. *)
Inductive JsNum :=
| Fin (q : Q)
| PosInf
| NegInf
| NaN.

Definition num_of_Z (z : Z) : JsNum := Fin (inject_Z z).
Definition num_of_nat (n : nat) : JsNum := num_of_Z (Z.of_nat n).

Definition Qlt_bool (x y : Q) : bool := negb (Qle_bool y x).

(** [x < 0] *)
Definition js_lt0 (x : JsNum) : bool :=
  match x with
  | Fin q => Qlt_bool q 0
  | NegInf => true
  | PosInf | NaN => false
  end.

(** [x >= n] for an array length [n] *)
Definition js_ge_len (x : JsNum) (n : nat) : bool :=
  match x with
  | Fin q => Qle_bool (inject_Z (Z.of_nat n)) q
  | PosInf => true
  | NegInf | NaN => false
  end.

(** [k === x] for the position [k] that [forEach] passes to its callback *)
Definition js_eq_index (k : nat) (x : JsNum) : bool :=
  match x with
  | Fin q => Qeq_bool (inject_Z (Z.of_nat k)) q
  | _ => false
  end.

(** The array position a number denotes as a property key: a non-negative
    integer.  Every other number names a property no array element has. *)
Definition js_array_index (x : JsNum) : option nat :=
  match x with
  | Fin q =>
      if (Z.eqb (Qnum q mod Zpos (Qden q)) 0 && Z.leb 0 (Qnum q))%bool
      then Some (Z.to_nat (Qnum q / Zpos (Qden q)))
      else None
  | _ => None
  end.

(** [arr[x]], [None] standing for [undefined] *)
Definition js_get {A : Type} (arr : list A) (x : JsNum) : option A :=
  match js_array_index x with
  | Some k => arr !! k
  | None => None
  end.

Definition is_integer (q : Q) : Prop := (Qnum q mod Zpos (Qden q) = 0)%Z.

(** Template-literal rendering of a boolean: [`${b}`] *)
Definition string_of_bool (b : bool) : string :=
  if b then "true" else "false".

(** ** JavaScript numbers used as measurements *)

(** A layout measurement is a double.  [spec_float] is the Standard
    Library's model of IEEE 754 numbers; at precision 53 and maximal
    exponent 1024 its operations are those of binary64, rounding to
    nearest, ties to even. *)
Definition float64 : Type := spec_float.

Definition Infinity : float64 := S754_infinity false.

(** The double nearest to an integer literal. *)
Definition f64_of_Z (z : Z) : float64 := binary_normalize 53 1024 z 0 false.

(** [x + y], [x - y], [x / y], [Math.abs(x)] and [x < y] on doubles *)
Definition f64_add : float64 → float64 → float64 := SFadd 53 1024.
Definition f64_sub : float64 → float64 → float64 := SFsub 53 1024.
Definition f64_div : float64 → float64 → float64 := SFdiv 53 1024.
Definition f64_abs : float64 → float64 := SFabs.
Definition f64_lt : float64 → float64 → bool := SFltb.

(** ** DOM elements *)

(** An element has an identity, a local name, its content attributes, the
    properties a script has put on the object itself, its text and its
    element children.  Identities stand for object references: [indexOf],
    the listener registry and the handler [Map] compare them.  The local
    name of an HTML element is in lower case. *)
Inductive Element := mkElement {
  el_id : nat;
  el_tag : string;
  el_attrs : gmap string string;
  el_props : gmap string string;
  el_text : string;
  el_children : list Element }.

Definition getAttribute (name : string) (e : Element) : option string :=
  el_attrs e !! name.

Definition setAttribute (name value : string) (e : Element) : Element :=
  mkElement (el_id e) (el_tag e) (<[name := value]> (el_attrs e))
            (el_props e) (el_text e) (el_children e).

Definition removeAttribute (name : string) (e : Element) : Element :=
  mkElement (el_id e) (el_tag e) (delete name (el_attrs e))
            (el_props e) (el_text e) (el_children e).

(** [element[name] = value] for a name that the interface of the element
    does not define: the object gets a property of its own, and no
    attribute is written. *)
Definition setProperty (name value : string) (e : Element) : Element :=
  mkElement (el_id e) (el_tag e) (el_attrs e)
            (<[name := value]> (el_props e)) (el_text e) (el_children e).

(** The HTML elements whose interface has a [src] attribute that reflects
    the content attribute of that name. *)
Definition reflects_src (e : Element) : bool :=
  bool_decide (el_tag e ∈ ["img"; "iframe"; "embed"; "script"; "input";
                           "audio"; "video"; "source"; "track"; "frame"]).

(** [element.src = value] *)
Definition set_src (value : string) (e : Element) : Element :=
  if reflects_src e then setAttribute "src" value e
  else setProperty "src" value e.

Definition set_children (text : string) (ch : list Element) (e : Element)
  : Element :=
  mkElement (el_id e) (el_tag e) (el_attrs e) (el_props e) text ch.

(** What parsing the markup of [e] gives, as an assignment of one element's
    [innerHTML] to another's does with every child: the attributes, the
    text and the children are kept, the properties put on the objects are
    not part of the markup.  The result is a new node; the component keeps
    no reference to it and compares it with nothing, and the field [el_id]
    of the copy is read by no definition. *)
Fixpoint markup_copy (e : Element) : Element :=
  mkElement (el_id e) (el_tag e) (el_attrs e) ∅ (el_text e)
            (map markup_copy (el_children e)).

(** Descendants in document order, the element itself excluded. *)
Fixpoint descendants (e : Element) : list Element :=
  flat_map (fun c => c :: descendants c) (el_children e).

(** *** The selectors the component uses *)

(** [img] *)
Definition sel_img (e : Element) : bool := String.eqb (el_tag e) "img".

(** [[data-thumbnail]] *)
Definition sel_data_thumbnail (e : Element) : bool :=
  bool_decide (is_Some (getAttribute "data-thumbnail" e)).

(** [[data-src], [loading="lazy"]] *)
Definition sel_lazy (e : Element) : bool :=
  bool_decide (is_Some (getAttribute "data-src" e))
  || bool_decide (getAttribute "loading" e = Some "lazy").

(** [.vertical-slideshow__thumbnail] *)
Definition sel_thumbnail (e : Element) : bool :=
  match getAttribute "class" e with
  | Some cls =>
      bool_decide ("vertical-slideshow__thumbnail" ∈ String.words cls)
  | None => false
  end.

Definition querySelectorAll (sel : Element → bool) (e : Element)
  : list Element :=
  filter (fun d => sel d = true) (descendants e).

Definition querySelector (sel : Element → bool) (e : Element)
  : option Element :=
  head (querySelectorAll sel e).

(** [element.dataset.src] read in a condition: present and non-empty. *)
Definition dataset_src (e : Element) : option string :=
  match getAttribute "data-src" e with
  | Some v => if String.eqb v "" then None else Some v
  | None => None
  end.

(** Running a callback that only touches the attributes of the element it
    is given over [e.querySelectorAll(sel)]: the static node list is taken
    from the elements as they were, every match is rewritten in place and
    the tree keeps its shape. *)
Fixpoint forEach_selected (sel : Element → bool) (f : Element → Element)
    (e : Element) : Element :=
  set_children (el_text e)
    (map (fun c =>
            let c' := forEach_selected sel f c in
            if sel c then f c' else c')
         (el_children e))
    e.

(** ** Host objects: closures, listeners, timers, scrolling, events *)

(** The four function bodies the component registers as callbacks. *)
Inductive Handler :=
| HandleScroll                 (* the debounced [handleScroll] *)
| HandleWheel                  (* [handleWheel] *)
| ClickSelect (index : nat)    (* [() => this.selectSlide(index)] *)
| PointerLoad (index : nat).   (* [() => this.#loadSlideContent(index)] *)

(** A function object: every evaluation of an arrow expression makes a new
    one, and listeners are matched by the object, not by the body. *)
Record Closure := mkClosure { fn_id : nat; fn_body : Handler }.

(** [handleScroll] and [handleWheel] are instance fields, created once. *)
Definition handleScroll_fn : Closure := mkClosure 0 HandleScroll.
Definition handleWheel_fn : Closure := mkClosure 1 HandleWheel.

(** An entry of the listener registry.  All registrations of the component
    are non-capturing, so type and callback identify an entry on a target. *)
Record Listener := mkListener {
  l_target : nat;
  l_type : string;
  l_callback : Closure }.

Definition same_listener (target : nat) (type : string) (cb : Closure)
    (l : Listener) : bool :=
  Nat.eqb (l_target l) target && String.eqb (l_type l) type
  && Nat.eqb (fn_id (l_callback l)) (fn_id cb).

(** A pending [setTimeout] whose callback is [() => { this.#isScrolling =
    false }], the only callback the component schedules itself. *)
Record Timer := mkTimer { t_id : nat; t_delay : nat }.

Record Options := mkOptions { behavior : option string }.
Definition default_options : Options := mkOptions (Some "smooth").

Inductive ScrollAction :=
| SetScrollTop (top : JsNum)
| ScrollTo (top : JsNum) (behavior : string)
| ScrollIntoView (target : nat) (behavior : option string) (block : string).

(** A dispatched [CustomEvent]; [ev_slide] is the slide the detail refers
    to. *)
Record SlideEvent := mkSlideEvent {
  ev_type : string;
  ev_index : JsNum;
  ev_slide : nat }.

(** The fields of a [DOMRect] the component reads. *)
Record Rect := mkRect { rect_top : float64; rect_height : float64 }.

(** What the component reads from the browser.  [resolveURL v] is what the
    [src] property of an image gives when its [src] attribute is [v]: the
    URL parsed against the base of the document and serialised, or [v]
    itself when it does not parse. *)
Record Env := mkEnv {
  offsetHeight : nat → Z;
  getBoundingClientRect : nat → Rect;
  prefersReducedMotion : bool;
  resolveURL : string → string }.

(** An [IntersectionObserverEntry]. *)
Record Entry := mkEntry { entry_target : nat; intersectionRatio : Q }.

(** ** Component state *)

Record State := mkState {
  (* refs *)
  mediaContainer : nat;
  slides : option (list Element);
  thumbnailButtons : option (list Element);
  (* private fields *)
  isScrolling : bool;
  scrollTimeout : option nat;
  slideHeight : option Z;
  thumbnailClickHandlers : gmap nat (Closure * Closure);
  (* host *)
  listeners : list Listener;
  timers : list Timer;
  scrolls : list ScrollAction;
  dispatched : list SlideEvent;
  nextTimer : nat;
  nextClosure : nat;
  nextNode : nat }.

Definition set_slides (v : option (list Element)) (s : State) : State :=
  mkState (mediaContainer s) v (thumbnailButtons s) (isScrolling s)
    (scrollTimeout s) (slideHeight s) (thumbnailClickHandlers s)
    (listeners s) (timers s) (scrolls s) (dispatched s)
    (nextTimer s) (nextClosure s) (nextNode s).

Definition set_thumbnailButtons (v : option (list Element)) (s : State)
  : State :=
  mkState (mediaContainer s) (slides s) v (isScrolling s)
    (scrollTimeout s) (slideHeight s) (thumbnailClickHandlers s)
    (listeners s) (timers s) (scrolls s) (dispatched s)
    (nextTimer s) (nextClosure s) (nextNode s).

Definition set_isScrolling (v : bool) (s : State) : State :=
  mkState (mediaContainer s) (slides s) (thumbnailButtons s) v
    (scrollTimeout s) (slideHeight s) (thumbnailClickHandlers s)
    (listeners s) (timers s) (scrolls s) (dispatched s)
    (nextTimer s) (nextClosure s) (nextNode s).

Definition set_scrollTimeout (v : option nat) (s : State) : State :=
  mkState (mediaContainer s) (slides s) (thumbnailButtons s) (isScrolling s)
    v (slideHeight s) (thumbnailClickHandlers s)
    (listeners s) (timers s) (scrolls s) (dispatched s)
    (nextTimer s) (nextClosure s) (nextNode s).

Definition set_slideHeight (v : option Z) (s : State) : State :=
  mkState (mediaContainer s) (slides s) (thumbnailButtons s) (isScrolling s)
    (scrollTimeout s) v (thumbnailClickHandlers s)
    (listeners s) (timers s) (scrolls s) (dispatched s)
    (nextTimer s) (nextClosure s) (nextNode s).

Definition set_thumbnailClickHandlers (v : gmap nat (Closure * Closure))
    (s : State) : State :=
  mkState (mediaContainer s) (slides s) (thumbnailButtons s) (isScrolling s)
    (scrollTimeout s) (slideHeight s) v
    (listeners s) (timers s) (scrolls s) (dispatched s)
    (nextTimer s) (nextClosure s) (nextNode s).

Definition set_listeners (v : list Listener) (s : State) : State :=
  mkState (mediaContainer s) (slides s) (thumbnailButtons s) (isScrolling s)
    (scrollTimeout s) (slideHeight s) (thumbnailClickHandlers s)
    v (timers s) (scrolls s) (dispatched s)
    (nextTimer s) (nextClosure s) (nextNode s).

Definition set_timers (v : list Timer) (s : State) : State :=
  mkState (mediaContainer s) (slides s) (thumbnailButtons s) (isScrolling s)
    (scrollTimeout s) (slideHeight s) (thumbnailClickHandlers s)
    (listeners s) v (scrolls s) (dispatched s)
    (nextTimer s) (nextClosure s) (nextNode s).

Definition set_scrolls (v : list ScrollAction) (s : State) : State :=
  mkState (mediaContainer s) (slides s) (thumbnailButtons s) (isScrolling s)
    (scrollTimeout s) (slideHeight s) (thumbnailClickHandlers s)
    (listeners s) (timers s) v (dispatched s)
    (nextTimer s) (nextClosure s) (nextNode s).

Definition set_dispatched (v : list SlideEvent) (s : State) : State :=
  mkState (mediaContainer s) (slides s) (thumbnailButtons s) (isScrolling s)
    (scrollTimeout s) (slideHeight s) (thumbnailClickHandlers s)
    (listeners s) (timers s) (scrolls s) v
    (nextTimer s) (nextClosure s) (nextNode s).

Definition set_nextTimer (v : nat) (s : State) : State :=
  mkState (mediaContainer s) (slides s) (thumbnailButtons s) (isScrolling s)
    (scrollTimeout s) (slideHeight s) (thumbnailClickHandlers s)
    (listeners s) (timers s) (scrolls s) (dispatched s)
    v (nextClosure s) (nextNode s).

Definition set_nextClosure (v : nat) (s : State) : State :=
  mkState (mediaContainer s) (slides s) (thumbnailButtons s) (isScrolling s)
    (scrollTimeout s) (slideHeight s) (thumbnailClickHandlers s)
    (listeners s) (timers s) (scrolls s) (dispatched s)
    (nextTimer s) v (nextNode s).

Definition set_nextNode (v : nat) (s : State) : State :=
  mkState (mediaContainer s) (slides s) (thumbnailButtons s) (isScrolling s)
    (scrollTimeout s) (slideHeight s) (thumbnailClickHandlers s)
    (listeners s) (timers s) (scrolls s) (dispatched s)
    (nextTimer s) (nextClosure s) v.

(** A freshly constructed component on the given media container: no
    [slides] or [thumbnailButtons] ref yet, the flag down, no timer.  The
    two instance-field closures take identities 0 and 1, timer handles
    start at 1 as in browsers, and [fresh] is an identity above every node
    of the document. *)
Definition new_component (container fresh : nat) : State :=
  mkState container None None false None None ∅ [] [] [] [] 1 2 fresh.

(** ** Host operations *)

Definition addEventListener (target : nat) (type : string) (cb : Closure)
    (s : State) : State :=
  if existsb (same_listener target type cb) (listeners s) then s
  else set_listeners (listeners s ++ [mkListener target type cb]) s.

Definition removeEventListener (target : nat) (type : string) (cb : Closure)
    (s : State) : State :=
  set_listeners
    (filter (fun l => same_listener target type cb l = false) (listeners s))
    s.

(** Evaluating an arrow expression allocates a function object. *)
Definition new_closure (body : Handler) (s : State) : Closure * State :=
  (mkClosure (nextClosure s) body, set_nextClosure (S (nextClosure s)) s).

(** [setTimeout(() => { this.#isScrolling = false }, delay)] *)
Definition setTimeout (delay : nat) (s : State) : nat * State :=
  (nextTimer s,
   set_nextTimer (S (nextTimer s))
     (set_timers (timers s ++ [mkTimer (nextTimer s) delay]) s)).

Definition clearTimeout (id : nat) (s : State) : State :=
  set_timers (filter (fun t => Nat.eqb (t_id t) id = false) (timers s)) s.

(** The host runs a due timer: it leaves the pending list and its callback
    lowers the flag.  A handle that is not pending does nothing. *)
Definition fire_timer (id : nat) (s : State) : State :=
  if existsb (fun t => Nat.eqb (t_id t) id) (timers s)
  then set_isScrolling false (clearTimeout id s)
  else s.

Definition scroll (a : ScrollAction) (s : State) : State :=
  set_scrolls (scrolls s ++ [a]) s.

Definition dispatchEvent (e : SlideEvent) (s : State) : State :=
  set_dispatched (dispatched s ++ [e]) s.

(** ** Operations the two variants share

    The following methods have the same text in both source files. *)

(** [#updateActiveThumbnail(activeIndex)] *)
Definition updateActiveThumbnail (activeIndex : JsNum) (s : State) : State :=
  match thumbnailButtons s with
  | None => s
  | Some buttons =>
      set_thumbnailButtons
        (Some (imap (fun index button =>
                 setAttribute "aria-selected"
                   (string_of_bool (js_eq_index index activeIndex)) button)
               buttons))
        s
  end.

(** [#updateSlideVisibility(activeIndex)] *)
Definition updateSlideVisibility (activeIndex : JsNum) (s : State) : State :=
  match slides s with
  | None => s
  | Some sl =>
      set_slides
        (Some (imap (fun index slide =>
                 setAttribute "aria-hidden"
                   (string_of_bool (negb (js_eq_index index activeIndex)))
                   slide)
               sl))
        s
  end.

(** The callback of [lazyElements.forEach] in [#loadSlideContent]. *)
Definition promote (element : Element) : Element :=
  match dataset_src element with
  | Some v => removeAttribute "data-src" (set_src v element)
  | None => element
  end.

(** [#loadSlideContent(index)] *)
Definition loadSlideContent (index : JsNum) (s : State) : State :=
  match slides s with
  | None => s
  | Some sl =>
      match js_array_index index with
      | None => s
      | Some k =>
          match sl !! k with
          | None => s
          | Some slide =>
              dispatchEvent
                (mkSlideEvent "slide-content-loaded" index (el_id slide))
                (set_slides
                   (Some (<[k := forEach_selected sel_lazy promote slide]> sl))
                   s)
          end
      end
  end.

(** The loop of [#initializeSlides]: each slide gets its position and its
    initial visibility. *)
Definition init_slide (index : nat) (slide : Element) : Element :=
  if Nat.eqb index 0
  then setAttribute "aria-hidden" "false"
         (setAttribute "data-slide-index" (pretty index) slide)
  else setAttribute "aria-hidden" "true"
         (setAttribute "data-slide-index" (pretty index) slide).

(** [image.alt], read: the content attribute, or the empty string. *)
Definition alt_prop (image : Element) : string :=
  default "" (getAttribute "alt" image).

(** [image.src], read: the empty string without the content attribute,
    else the URL it resolves to in the document. *)
Definition src_prop (env : Env) (image : Element) : string :=
  match getAttribute "src" image with
  | Some v => resolveURL env v
  | None => ""
  end.

(** The callback of [thumbnailButtons.forEach] in [#initializeThumbnails].
    Copying [innerHTML] is modelled as copying the text and the markup of
    the children; the image made by [document.createElement] takes the
    identity [fresh]. *)
Definition init_thumbnail (env : Env) (sl : list Element) (fresh : nat)
    (index : nat) (button : Element) : Element :=
  match sl !! index with
  | None => button
  | Some slide =>
      let thumbnailImage := querySelector sel_img slide in
      let thumbnailContent := querySelector sel_data_thumbnail slide in
      match thumbnailContent, thumbnailImage with
      | Some content, _ =>
          set_children (el_text content)
            (map markup_copy (el_children content)) button
      | None, Some image =>
          let alt := alt_prop image in
          let thumbnailImg :=
            mkElement (fresh + index) "img"
              (<["class" := "vertical-slideshow__thumbnail-image"]>
                 (<["alt" := if String.eqb alt ""
                             then "Slide " +:+ pretty (index + 1)
                             else alt]>
                    (<["src" := src_prop env image]> ∅)))
              ∅ "" [] in
          set_children "" [thumbnailImg] button
      | None, None =>
          set_children (pretty (index + 1)) [] button
      end
  end.

(** [#initializeThumbnails()], given the [thumbnails] ref. *)
Definition initializeThumbnails (env : Env) (thumbnails : option Element)
    (s : State) : State :=
  match thumbnails, slides s with
  | Some container, Some sl =>
      let buttons := querySelectorAll sel_thumbnail container in
      set_nextNode (nextNode s + length buttons)
        (set_thumbnailButtons
           (Some (imap (init_thumbnail env sl (nextNode s)) buttons)) s)
  | _, _ => s
  end.

(** [entries.reduce((prev, current) => current.intersectionRatio >
    prev.intersectionRatio ? current : prev)]; on no entries [reduce]
    throws and the promise is never resolved. *)
Definition most_visible (entries : list Entry) : option Entry :=
  match entries with
  | [] => None
  | e :: es =>
      Some (fold_left
              (fun prev current =>
                 if Qlt_bool (intersectionRatio prev)
                             (intersectionRatio current)
                 then current else prev)
              es e)
  end.

(** [slides.indexOf(element)], by identity; [-1] when absent. *)
Fixpoint indexOf_from (k : nat) (ids : list nat) (x : nat) : Z :=
  match ids with
  | [] => (-1)%Z
  | y :: ys => if Nat.eqb y x then Z.of_nat k else indexOf_from (S k) ys x
  end.

Definition indexOf (ids : list nat) (x : nat) : Z := indexOf_from 0 ids x.

(** The body of the debounced [handleScroll] up to its [await]: either it
    returns at a guard, or it starts observing the slides and suspends,
    holding on to the [slides] array it read. *)
Definition handleScroll_begin (s : State) : option (list nat) :=
  if isScrolling s then None
  else match slides s with
       | None => None
       | Some sl => if Nat.eqb (length sl) 0 then None
                    else Some (map el_id sl)
       end.

(** The rest of the body, run when the observer delivers its entries. *)
Definition handleScroll_resume (captured : list nat) (entries : list Entry)
    (s : State) : State :=
  match most_visible entries with
  | None => s
  | Some mostVisible =>
      let activeIndex :=
        num_of_Z (indexOf captured (entry_target mostVisible)) in
      updateSlideVisibility activeIndex (updateActiveThumbnail activeIndex s)
  end.

(** [get slideCount()] *)
Definition slideCount (s : State) : nat :=
  match slides s with
  | Some sl => length sl
  | None => 0
  end.

(** [if (this.#scrollTimeout) clearTimeout(this.#scrollTimeout)] *)
Definition clear_scrollTimeout (s : State) : State :=
  match scrollTimeout s with
  | Some id => if Nat.eqb id 0 then s else clearTimeout id s
  | None => s
  end.

(** [arr.forEach((x, index) => ...)] for a callback acting on the state. *)
Fixpoint forEach_from {A : Type} (k : nat) (f : A → nat → State → State)
    (arr : list A) (s : State) : State :=
  match arr with
  | [] => s
  | x :: xs => forEach_from (S k) f xs (f x k s)
  end.

Definition forEach {A : Type} (f : A → nat → State → State) (arr : list A)
    (s : State) : State :=
  forEach_from 0 f arr s.

(** [x * h] for an integer [h] *)
Definition js_mul_Z (x : JsNum) (h : Z) : JsNum :=
  match x with
  | Fin q => Fin (q * inject_Z h)
  | PosInf => if (0 <? h)%Z then PosInf else if (h <? 0)%Z then NegInf else NaN
  | NegInf => if (0 <? h)%Z then NegInf else if (h <? 0)%Z then PosInf else NaN
  | NaN => NaN
  end.

(** [options.behavior === 'instant'] *)
Definition is_instant (options : Options) : bool :=
  bool_decide (behavior options = Some "instant").

(** [options.behavior === 'instant' ? 0 : 300] *)
Definition flag_delay (options : Options) : nat :=
  if is_instant options then 0 else 300.

(** ** First variant: [src/assets/vertical-slideshow.js] *)
Module V1.

(** Delay handed to [debounce] for [handleScroll]. *)
Definition scroll_debounce : nat := 16.

(** [#initializeSlides()], given the children of the media container. *)
Definition initializeSlides (env : Env) (children : list Element)
    (s : State) : State :=
  let s1 :=
    match children with
    | first :: _ => set_slideHeight (Some (offsetHeight env (el_id first))) s
    | [] => s
    end in
  set_slides (Some (imap init_slide children)) s1.

(** The callback of the loop in [#addThumbnailHandlers]. *)
Definition add_handlers (button : Element) (index : nat) (s : State)
  : State :=
  let '(clickHandler, s1) := new_closure (ClickSelect index) s in
  let '(pointerHandler, s2) := new_closure (PointerLoad index) s1 in
  let s3 :=
    set_thumbnailClickHandlers
      (<[el_id button := (clickHandler, pointerHandler)]>
         (thumbnailClickHandlers s2)) s2 in
  addEventListener (el_id button) "pointerenter" pointerHandler
    (addEventListener (el_id button) "click" clickHandler s3).

Definition addThumbnailHandlers (s : State) : State :=
  match thumbnailButtons s with
  | None => s
  | Some buttons => forEach add_handlers buttons s
  end.

(** The callback of the loop in [#removeThumbnailHandlers]. *)
Definition remove_handlers (button : Element) (index : nat) (s : State)
  : State :=
  match thumbnailClickHandlers s !! el_id button with
  | Some (clickHandler, pointerHandler) =>
      set_thumbnailClickHandlers
        (delete (el_id button) (thumbnailClickHandlers s))
        (removeEventListener (el_id button) "pointerenter" pointerHandler
           (removeEventListener (el_id button) "click" clickHandler s))
  | None => s
  end.

Definition removeThumbnailHandlers (s : State) : State :=
  match thumbnailButtons s with
  | None => s
  | Some buttons => forEach remove_handlers buttons s
  end.

Definition connectedCallback (env : Env) (children : list Element)
    (thumbnails : option Element) (s : State) : State :=
  let s1 := initializeSlides env children s in
  let s2 := initializeThumbnails env thumbnails s1 in
  let s3 := addEventListener (mediaContainer s2) "scroll" handleScroll_fn s2 in
  addThumbnailHandlers s3.

Definition disconnectedCallback (s : State) : State :=
  let s1 := removeEventListener (mediaContainer s) "scroll" handleScroll_fn s in
  let s2 := removeThumbnailHandlers s1 in
  clear_scrollTimeout s2.

(** [this.#slideHeight || targetSlide.offsetHeight] *)
Definition height_or (env : Env) (targetSlide : Element) (s : State) : Z :=
  match slideHeight s with
  | Some h => if (h =? 0)%Z then offsetHeight env (el_id targetSlide) else h
  | None => offsetHeight env (el_id targetSlide)
  end.

(** [selectSlide(index, options)] *)
Definition selectSlide (env : Env) (index : JsNum) (options : Options)
    (s : State) : State :=
  match slides s with
  | None => s
  | Some sl =>
      if js_lt0 index || js_ge_len index (length sl) then s
      else
        match js_get sl index with
        | None => s
        | Some targetSlide =>
            let s1 := set_isScrolling true s in
            let s2 := updateActiveThumbnail index s1 in
            let s3 := updateSlideVisibility index s2 in
            let scrollTop := js_mul_Z index (height_or env targetSlide s3) in
            let s4 :=
              if is_instant options
              then scroll (SetScrollTop scrollTop) s3
              else scroll (ScrollTo scrollTop "smooth") s3 in
            let '(id, s5) := setTimeout (flag_delay options) s4 in
            let s6 := set_scrollTimeout (Some id) s5 in
            loadSlideContent index s6
        end
  end.

End V1.

(** ** Second variant: [src/unnamed/part_000] *)
Module V2.

(** Delay handed to [debounce] for [handleScroll]. *)
Definition scroll_debounce : nat := 50.

(** [#initializeSlides()], given the children of the media container. *)
Definition initializeSlides (children : list Element) (s : State) : State :=
  set_slides (Some (imap init_slide children)) s.

(** The callback of the loop in [#addThumbnailHandlers]. *)
Definition add_handlers (button : Element) (index : nat) (s : State)
  : State :=
  let '(click, s1) := new_closure (ClickSelect index) s in
  let s2 := addEventListener (el_id button) "click" click s1 in
  let '(pointer, s3) := new_closure (PointerLoad index) s2 in
  addEventListener (el_id button) "pointerenter" pointer s3.

Definition addThumbnailHandlers (s : State) : State :=
  match thumbnailButtons s with
  | None => s
  | Some buttons => forEach add_handlers buttons s
  end.

(** The callback of the loop in [#removeThumbnailHandlers]: the two arrow
    expressions are evaluated again, giving two new function objects. *)
Definition remove_handlers (button : Element) (index : nat) (s : State)
  : State :=
  let '(click, s1) := new_closure (ClickSelect index) s in
  let s2 := removeEventListener (el_id button) "click" click s1 in
  let '(pointer, s3) := new_closure (PointerLoad index) s2 in
  removeEventListener (el_id button) "pointerenter" pointer s3.

Definition removeThumbnailHandlers (s : State) : State :=
  match thumbnailButtons s with
  | None => s
  | Some buttons => forEach remove_handlers buttons s
  end.

Definition connectedCallback (env : Env) (children : list Element)
    (thumbnails : option Element) (s : State) : State :=
  let s1 := initializeSlides children s in
  let s2 := initializeThumbnails env thumbnails s1 in
  let s3 := addEventListener (mediaContainer s2) "scroll" handleScroll_fn s2 in
  let s4 := addEventListener (mediaContainer s3) "wheel" handleWheel_fn s3 in
  addThumbnailHandlers s4.

Definition disconnectedCallback (s : State) : State :=
  let s1 := removeEventListener (mediaContainer s) "scroll" handleScroll_fn s in
  let s2 := removeEventListener (mediaContainer s1) "wheel" handleWheel_fn s1 in
  let s3 := removeThumbnailHandlers s2 in
  clear_scrollTimeout s3.

(** [selectSlide(index, options)] *)
Definition selectSlide (index : JsNum) (options : Options) (s : State)
  : State :=
  match slides s with
  | None => s
  | Some sl =>
      if js_lt0 index || js_ge_len index (length sl) then s
      else
        match js_get sl index with
        | None => s
        | Some targetSlide =>
            let s1 := set_isScrolling true s in
            let s2 := updateActiveThumbnail index s1 in
            let s3 := updateSlideVisibility index s2 in
            let s4 :=
              scroll (ScrollIntoView (el_id targetSlide) (behavior options)
                        "center") s3 in
            let '(id, s5) := setTimeout (flag_delay options) s4 in
            let s6 := set_scrollTimeout (Some id) s5 in
            loadSlideContent index s6
        end
  end.

(** [rect.top + rect.height / 2] *)
Definition center (r : Rect) : float64 :=
  f64_add (rect_top r) (f64_div (rect_height r) (f64_of_Z 2)).

(** The loop of [#getCurrentSlideIndex], from the slide at position
    [index] on; [closest] is the pair of [closestIndex] and
    [closestDistance]. *)
Fixpoint closest_from (env : Env) (containerCenter : float64) (index : nat)
    (sl : list Element) (closest : nat * float64) : nat * float64 :=
  match sl with
  | [] => closest
  | slide :: rest =>
      let slideCenter := center (getBoundingClientRect env (el_id slide)) in
      let distance := f64_abs (f64_sub slideCenter containerCenter) in
      closest_from env containerCenter (S index) rest
        (if f64_lt distance (snd closest) then (index, distance)
         else closest)
  end.

(** [#getCurrentSlideIndex()] and the getter [currentIndex] *)
Definition getCurrentSlideIndex (env : Env) (s : State) : nat :=
  match slides s with
  | None => 0
  | Some sl =>
      if Nat.eqb (length sl) 0 then 0
      else
        let containerCenter :=
          center (getBoundingClientRect env (mediaContainer s)) in
        fst (closest_from env containerCenter 0 sl (0, Infinity))
  end.

Definition currentIndex (env : Env) (s : State) : nat :=
  getCurrentSlideIndex env s.

(** [handleWheel(event)]: the result says whether the event's default
    action was prevented. *)
Definition handleWheel (env : Env) (deltaY : Q) (s : State) : bool * State :=
  if prefersReducedMotion env then (false, s)
  else if isScrolling s then (true, s)
  else
    match slides s with
    | None => (true, s)
    | Some sl =>
        if length sl <=? 1 then (true, s)
        else
          let currentIndex := Z.of_nat (getCurrentSlideIndex env s) in
          let direction := if Qlt_bool 0 deltaY then 1%Z else (-1)%Z in
          let nextIndex :=
            Z.max 0 (Z.min (Z.of_nat (length sl) - 1)
                           (currentIndex + direction)) in
          if (nextIndex =? currentIndex)%Z then (true, s)
          else (true, selectSlide (num_of_Z nextIndex)
                        (mkOptions (Some "smooth")) s)
    end.

(** [next()] *)
Definition next (env : Env) (s : State) : State :=
  let currentIndex := Z.of_nat (currentIndex env s) in
  if (currentIndex <? Z.of_nat (slideCount s) - 1)%Z
  then selectSlide (num_of_Z (currentIndex + 1)) default_options s
  else s.

(** [previous()] *)
Definition previous (env : Env) (s : State) : State :=
  let currentIndex := Z.of_nat (currentIndex env s) in
  if (0 <? currentIndex)%Z
  then selectSlide (num_of_Z (currentIndex - 1)) default_options s
  else s.

End V2.

(** ** What the host can do to a component

    Between two actions the component is at rest: JavaScript runs each
    callback to completion, and the only callback that suspends is the
    scroll body, at its single [await]. *)

(** Actions both variants react to. *)
Inductive Event :=
| CallSelectSlide (index : JsNum) (options : Options)
| Click (on : nat)
| PointerEnter (on : nat)
| TimerDue (id : nat)
| ObserverDelivers (captured : list nat) (entries : list Entry).

Definition listeners_for (on : nat) (type : string) (s : State)
  : list Listener :=
  filter (fun l => Nat.eqb (l_target l) on && String.eqb (l_type l) type = true)
         (listeners s).

Module V1Run.

(** Calling a registered function object.  The debounced [handleScroll]
    only arms its timer when called; what its body does to the state
    happens at [ObserverDelivers]. *)
Definition run_handler (env : Env) (h : Handler) (s : State) : State :=
  match h with
  | ClickSelect index => V1.selectSlide env (num_of_nat index) default_options s
  | PointerLoad index => loadSlideContent (num_of_nat index) s
  | HandleScroll | HandleWheel => s
  end.

(** The host dispatches an event of [type] on the element [on]: the
    listeners registered there run in registration order. *)
Definition dispatch (env : Env) (on : nat) (type : string) (s : State)
  : State :=
  foldl (fun s' l => run_handler env (fn_body (l_callback l)) s') s
        (listeners_for on type s).

Definition run (env : Env) (a : Event) (s : State) : State :=
  match a with
  | CallSelectSlide index options => V1.selectSlide env index options s
  | Click on => dispatch env on "click" s
  | PointerEnter on => dispatch env on "pointerenter" s
  | TimerDue id => fire_timer id s
  | ObserverDelivers captured entries =>
      handleScroll_resume captured entries s
  end.

End V1Run.

Module V2Run.

Inductive Action :=
| Shared (e : Event)
| Wheel (deltaY : Q)
| CallNext
| CallPrevious.

(** As in [V1Run]; a wheel event carries data and is the action [Wheel]. *)
Definition run_handler (h : Handler) (s : State) : State :=
  match h with
  | ClickSelect index => V2.selectSlide (num_of_nat index) default_options s
  | PointerLoad index => loadSlideContent (num_of_nat index) s
  | HandleScroll | HandleWheel => s
  end.

Definition dispatch (on : nat) (type : string) (s : State) : State :=
  foldl (fun s' l => run_handler (fn_body (l_callback l)) s') s
        (listeners_for on type s).

Definition run (env : Env) (a : Action) (s : State) : State :=
  match a with
  | Shared (CallSelectSlide index options) => V2.selectSlide index options s
  | Shared (Click on) => dispatch on "click" s
  | Shared (PointerEnter on) => dispatch on "pointerenter" s
  | Shared (TimerDue id) => fire_timer id s
  | Shared (ObserverDelivers captured entries) =>
      handleScroll_resume captured entries s
  | Wheel deltaY =>
      if existsb (same_listener (mediaContainer s) "wheel" handleWheel_fn)
                 (listeners s)
      then (V2.handleWheel env deltaY s).2
      else s
  | CallNext => V2.next env s
  | CallPrevious => V2.previous env s
  end.

End V2Run.

(** The observer reports on the elements it was given, and the body that
    gave them had read the [slides] array the component still holds. *)
Definition delivery_ok (a : Event) (s : State) : Prop :=
  match a with
  | ObserverDelivers captured entries =>
      Some captured = (map el_id <$> slides s) ∧
      ∀ e, e ∈ entries → entry_target e ∈ captured
  | _ => True
  end.

(** ** Vocabulary of the properties *)

Definition slide_at (s : State) (j : nat) : option Element :=
  slides s ≫= (fun sl => sl !! j).

Definition button_at (s : State) (j : nat) : option Element :=
  thumbnailButtons s ≫= (fun bs => bs !! j).

Definition aria_hidden (e : Element) : option string :=
  getAttribute "aria-hidden" e.

Definition aria_selected (e : Element) : option string :=
  getAttribute "aria-selected" e.

(** Positions of the elements that satisfy [p], counted from [k]. *)
Fixpoint positions_from (k : nat) (p : Element → bool) (l : list Element)
  : list nat :=
  match l with
  | [] => []
  | e :: r =>
      if p e then k :: positions_from (S k) p r
      else positions_from (S k) p r
  end.

Definition is_visible (e : Element) : bool :=
  bool_decide (aria_hidden e = Some "false").

Definition is_selected (e : Element) : bool :=
  bool_decide (aria_selected e = Some "true").

(** The slides with [aria-hidden="false"], by position. *)
Definition visible_slides (s : State) : list nat :=
  positions_from 0 is_visible (default [] (slides s)).

(** The thumbnail buttons with [aria-selected="true"], by position. *)
Definition selected_thumbnails (s : State) : list nat :=
  positions_from 0 is_selected (default [] (thumbnailButtons s)).

(** Exactly one slide is visible, exactly one thumbnail is selected, and
    they have the same position. *)
Definition in_sync (s : State) : Prop :=
  ∃ i, visible_slides s = [i] ∧ selected_thumbnails s = [i].

(** Slide [i] alone is visible and thumbnail [i] alone is selected, every
    other slide and thumbnail carrying the opposite value. *)
Definition shows (i : nat) (s : State) : Prop :=
  (∀ j e, slide_at s j = Some e →
          aria_hidden e = Some (if Nat.eqb j i then "false" else "true")) ∧
  (∀ j b, button_at s j = Some b →
          aria_selected b = Some (if Nat.eqb j i then "true" else "false")).

(** Every slide has its thumbnail button. *)
Definition paired (s : State) : Prop :=
  ∃ sl bs, slides s = Some sl ∧ thumbnailButtons s = Some bs ∧
           length sl ≤ length bs.

(** The invariant of the data model, with its side condition. *)
Definition synced (s : State) : Prop := paired s ∧ in_sync s.

(** In sync at a known position. *)
Definition synced_at (i : nat) (s : State) : Prop :=
  visible_slides s = [i] ∧ selected_thumbnails s = [i].

(** What attaching to a document whose thumbnails live in [container]
    leaves in [s']: slide 0 alone is visible, and the thumbnail buttons
    carry the [aria-selected] they had in the document. *)
Definition attach_result (container : Element) (s' : State) : Prop :=
  visible_slides s' = [0] ∧
  (map aria_selected <$> thumbnailButtons s')
  = Some (map aria_selected (querySelectorAll sel_thumbnail container)).

(** Second-variant actions the host can really produce. *)
Definition admissible (a : V2Run.Action) (s : State) : Prop :=
  match a with
  | V2Run.Shared e => delivery_ok e s
  | _ => True
  end.

(** The attribute writes of a selection of position [k], per element. *)
Definition mark_hidden (k j : nat) (e : Element) : Element :=
  setAttribute "aria-hidden" (string_of_bool (negb (Nat.eqb j k))) e.

Definition mark_selected (k j : nat) (b : Element) : Element :=
  setAttribute "aria-selected" (string_of_bool (Nat.eqb j k)) b.

(** The scroll request a selection of slide [t] at position [index] issues. *)
Definition V1_scroll (env : Env) (index : JsNum) (options : Options)
    (t : Element) (s : State) : ScrollAction :=
  let top := js_mul_Z index (V1.height_or env t s) in
  if is_instant options then SetScrollTop top else ScrollTo top "smooth".

Definition V2_scroll (options : Options) (t : Element) : ScrollAction :=
  ScrollIntoView (el_id t) (behavior options) "center".

(** The state an accepted selection of position [k] leaves, up to the
    scroll request [a]. *)
Definition selected_state (a : ScrollAction) (index : JsNum) (k : nat)
    (options : Options) (t : Element) (sl : list Element) (s : State)
  : State :=
  mkState (mediaContainer s)
    (Some (<[k := forEach_selected sel_lazy promote (mark_hidden k k t)]>
             (imap (mark_hidden k) sl)))
    (imap (mark_selected k) <$> thumbnailButtons s)
    true (Some (nextTimer s)) (slideHeight s) (thumbnailClickHandlers s)
    (listeners s)
    (timers s ++ [mkTimer (nextTimer s) (flag_delay options)])
    (scrolls s ++ [a])
    (dispatched s ++ [mkSlideEvent "slide-content-loaded" index (el_id t)])
    (S (nextTimer s)) (nextClosure s) (nextNode s).

(** "[index < 0] or [index >= n]", read on the number line. *)
Definition out_of_range (x : JsNum) (n : nat) : Prop :=
  match x with
  | Fin q => (q < 0)%Q ∨ (inject_Z (Z.of_nat n) <= q)%Q
  | PosInf | NegInf => True
  | NaN => False
  end.

(** What a selection of position [i] is to leave in [s'], coming from [s]:
    no slide or thumbnail is gained or lost, slide [i] is there with
    [aria-hidden="false"], every other slide has ["true"], thumbnail [i]
    has [aria-selected="true"] and every other thumbnail ["false"]. *)
Definition selection_result (i : nat) (s s' : State) : Prop :=
  slideCount s' = slideCount s ∧
  (∀ j, is_Some (button_at s' j) ↔ is_Some (button_at s j)) ∧
  (∃ e, slide_at s' i = Some e ∧ aria_hidden e = Some "false") ∧
  (∀ j e, j ≠ i → slide_at s' j = Some e → aria_hidden e = Some "true") ∧
  (∀ b, button_at s' i = Some b → aria_selected b = Some "true") ∧
  (∀ j b, j ≠ i → button_at s' j = Some b → aria_selected b = Some "false").

(** The flag is up in [s'] and one more timer is pending than in [s]: the
    one [#scrollTimeout] holds, due after [delay] ms, whose firing lowers
    the flag. *)
Definition flag_scheduled (delay : nat) (s s' : State) : Prop :=
  isScrolling s' = true ∧
  ∃ id, scrollTimeout s' = Some id ∧
        timers s' = timers s ++ [mkTimer id delay] ∧
        isScrolling (fire_timer id s') = false.

(** *** The wheel rule, as the specification words it

    The definitions of this part follow the words of the specification and
    use nothing of the second variant but [selectSlide]; the theorems
    compare them with [handleWheel] and [#getCurrentSlideIndex]. *)

(** [x <= y] on doubles *)
Definition f64_le : float64 → float64 → bool := SFleb.

(** The vertical centre of a box: half of its height below its top
    edge. *)
Definition vertical_centre (r : Rect) : float64 :=
  f64_add (rect_top r) (f64_div (rect_height r) (f64_of_Z 2)).

(** How far the vertical centre of the element [id] is from the vertical
    centre of the media container. *)
Definition centre_distance (env : Env) (s : State) (id : nat) : float64 :=
  f64_abs
    (f64_sub (vertical_centre (getBoundingClientRect env id))
             (vertical_centre (getBoundingClientRect env (mediaContainer s)))).

(** The centre distance of the slide at position [j]. *)
Definition slide_distance (env : Env) (s : State) (j : nat)
  : option float64 :=
  (fun e => centre_distance env s (el_id e)) <$> slide_at s j.

(** Slide [i] is the slide closest to the centre of the container: no
    slide is nearer, and the slides before it are farther. *)
Definition closest_slide (env : Env) (s : State) (i : nat) : Prop :=
  ∃ d, slide_distance env s i = Some d ∧
       ∀ j dj, slide_distance env s j = Some dj →
               f64_le d dj = true ∧ (j < i → f64_lt d dj = true).

(** Every slide has a centre distance that is a number. *)
Definition distances_are_numbers (env : Env) (s : State) : Prop :=
  ∀ j dj, slide_distance env s j = Some dj → dj ≠ S754_nan.

(** Step by one in the direction of the wheel and clamp to the slides. *)
Definition wheel_step (count : nat) (current : nat) (deltaY : Q) : Z :=
  let stepped :=
    if Qlt_bool 0 deltaY then (Z.of_nat current + 1)%Z
    else (Z.of_nat current - 1)%Z in
  Z.max 0 (Z.min (Z.of_nat count - 1) stepped).

(** The rule for a wheel event with the given [deltaY] in the state [s]:
    whether the default scroll is [prevented], and the state [s'] the
    handler leaves. *)
Definition wheel_rule (env : Env) (deltaY : Q) (s : State)
    (prevented : bool) (s' : State) : Prop :=
  if prefersReducedMotion env then prevented = false ∧ s' = s
  else
    prevented = true ∧
    (isScrolling s = true → s' = s) ∧
    (isScrolling s = false →
     (slideCount s = 0 → s' = s) ∧
     ∀ current, closest_slide env s current →
       let nextIndex := wheel_step (slideCount s) current deltaY in
       if (nextIndex =? Z.of_nat current)%Z then s' = s
       else s' = V2.selectSlide (num_of_Z nextIndex)
                   (mkOptions (Some "smooth")) s).

(** *** The same geometry in exact numbers *)

(** The rational number a finite double stands for: its mantissa times the
    power of two of its exponent, with its sign; zero for a zero. *)
Definition f64_value (x : float64) : Q :=
  match x with
  | S754_finite s m e => (inject_Z (cond_Zopp s (Zpos m)) * 2 ^ e)%Q
  | _ => 0%Q
  end.

Definition f64_finite (x : float64) : bool :=
  match x with
  | S754_zero _ | S754_finite _ _ _ => true
  | _ => false
  end.

(** A finite double of the binary64 format that is not negative. *)
Definition f64_magnitude (x : float64) : bool :=
  match x with
  | S754_zero false => true
  | S754_finite false m e => valid_binary 53 1024 x
  | _ => false
  end.

(** The vertical centre of a box and the distance between the centres of
    an element and of the media container, with no rounding. *)
Definition exact_centre (r : Rect) : Q :=
  (f64_value (rect_top r) + f64_value (rect_height r) / 2)%Q.

Definition exact_distance (env : Env) (s : State) (id : nat) : Q :=
  Qabs (exact_centre (getBoundingClientRect env id)
        - exact_centre (getBoundingClientRect env (mediaContainer s))).

Definition finite_rect (r : Rect) : bool :=
  f64_finite (rect_top r) && f64_finite (rect_height r).

(** For the element [id] the arithmetic of doubles loses nothing: the
    boxes are finite, and the centre distance in doubles is a double of
    the format that stands for the exact distance. *)
Definition computed_exactly (env : Env) (s : State) (id : nat) : bool :=
  finite_rect (getBoundingClientRect env id)
  && finite_rect (getBoundingClientRect env (mediaContainer s))
  && f64_magnitude (centre_distance env s id)
  && Qeq_bool (f64_value (centre_distance env s id)) (exact_distance env s id).

(** The layout is one on which the arithmetic of doubles is exact. *)
Definition rounding_free (env : Env) (s : State) : Prop :=
  ∀ j e, slide_at s j = Some e → computed_exactly env s (el_id e) = true.

(** Slide [i] is the slide closest to the centre of the container, in
    exact numbers: no slide is nearer, and the slides before it are
    farther. *)
Definition exactly_closest (env : Env) (s : State) (i : nat) : Prop :=
  ∃ e, slide_at s i = Some e ∧
       ∀ j e', slide_at s j = Some e' →
               (exact_distance env s (el_id e)
                <= exact_distance env s (el_id e'))%Q ∧
               (j < i → (exact_distance env s (el_id e)
                         < exact_distance env s (el_id e'))%Q).

(** *** The loop of [#getCurrentSlideIndex] *)

(** The distance the loop computes for the slide [e]. *)
Definition loop_distance (env : Env) (containerCenter : float64)
    (e : Element) : float64 :=
  f64_abs
    (f64_sub (V2.center (getBoundingClientRect env (el_id e)))
             containerCenter).

(** Having gone through the slides [pre], the loop holds in [i] and [d]
    either what it started with, none of the distances being below
    [Infinity], or the position and the distance of a slide; no distance
    is below [d], and none before [i] is at most [d]. *)
Definition holds_closest (env : Env) (containerCenter : float64)
    (pre : list Element) (i : nat) (d : float64) : Prop :=
  ((i = 0 ∧ d = Infinity) ∨
   (∃ e, pre !! i = Some e ∧ d = loop_distance env containerCenter e)) ∧
  ∀ j e, pre !! j = Some e →
         f64_lt (loop_distance env containerCenter e) d = false ∧
         (j < i → f64_le (loop_distance env containerCenter e) d = false).

(** The lazy-loading rule as the specification words it: a descendant
    carrying either marker ends with the deferred source in [src] and
    without the marker. *)
Definition promoted_as_worded (before after : Element) : Prop :=
  sel_lazy before = true →
  (∀ v, getAttribute "data-src" before = Some v →
        getAttribute "src" after = Some v) ∧
  sel_lazy after = false.

Definition all_lazy_promoted (slide slide' : Element) : Prop :=
  ∀ k d d', descendants slide !! k = Some d →
            descendants slide' !! k = Some d' →
            promoted_as_worded d d'.

(** What the loop of [#loadSlideContent] does to one descendant.  With a
    non-empty deferred source, [data-src] goes and the source is assigned
    to the [src] property: on an element whose [src] reflects the
    attribute the [src] attribute takes it, on any other element the
    object gets a property and no attribute.  Without a deferred source
    the element stays as it is. *)
Definition promoted_by_code (before after : Element) : Prop :=
  el_id after = el_id before ∧ el_tag after = el_tag before ∧
  match dataset_src before with
  | Some v =>
      if reflects_src before
      then el_attrs after
           = delete "data-src" (<["src" := v]> (el_attrs before)) ∧
           el_props after = el_props before
      else el_attrs after = delete "data-src" (el_attrs before) ∧
           el_props after = <["src" := v]> (el_props before)
  | None =>
      el_attrs after = el_attrs before ∧ el_props after = el_props before
  end.

Definition content_loaded (index : JsNum) (slide : nat) : SlideEvent :=
  mkSlideEvent "slide-content-loaded" index slide.

(** Loading the content of the slide at position [k], called with [index]:
    every descendant is treated as [promoted_by_code] says and one
    [slide-content-loaded] event carrying [index] and the slide follows the
    events dispatched so far. *)
Definition loads_content (index : JsNum) (k : nat) (s s' : State) : Prop :=
  ∃ slide slide',
    slide_at s k = Some slide ∧ slide_at s' k = Some slide' ∧
    el_id slide' = el_id slide ∧
    Forall2 promoted_by_code (descendants slide) (descendants slide') ∧
    dispatched s' = dispatched s ++ [content_loaded index (el_id slide)].

(** No listener of the given types is left on any of the given targets. *)
Definition detached (targets : list nat) (types : list string) (s : State)
  : Prop :=
  ∀ l, l ∈ listeners s → l_target l ∈ targets → l_type l ∉ types.

(** Every registered callback was allocated before the next function
    object will be. *)
Definition closures_below (s : State) : Prop :=
  ∀ l, l ∈ listeners s → fn_id (l_callback l) < nextClosure s.

(** The function object [cb] is registered for [type] events on [on]. *)
Definition registered (on : nat) (type : string) (cb : Closure) (s : State)
  : Prop :=
  ∃ l, l ∈ listeners s ∧ same_listener on type cb l = true.

(** The two function objects [#addThumbnailHandlers] makes for the button
    at position [k] when [base] is the next identity. *)
Definition click_closure (base k : nat) : Closure :=
  mkClosure base (ClickSelect k).

Definition pointer_closure (base k : nat) : Closure :=
  mkClosure (S base) (PointerLoad k).

(** The listeners [#addThumbnailHandlers] registers for the buttons [bs],
    the first of which has position [k], in registration order. *)
Fixpoint handler_listeners (base k : nat) (bs : list Element)
  : list Listener :=
  match bs with
  | [] => []
  | b :: r =>
      mkListener (el_id b) "click" (click_closure base k)
      :: mkListener (el_id b) "pointerenter" (pointer_closure base k)
      :: handler_listeners (S (S base)) (S k) r
  end.

(** [e'] is [e] with at most the attribute [name] written: same identity,
    same local name, every other attribute as it was. *)
Definition same_but (name : string) (e e' : Element) : Prop :=
  el_id e' = el_id e ∧ el_tag e' = el_tag e ∧ el_props e' = el_props e ∧
  ∀ n, n ≠ name → getAttribute n e' = getAttribute n e.

(** What [#initializeSlides] makes of the child [c] at position [j]. *)
Definition indexed_slide (j : nat) (c e : Element) : Prop :=
  el_id e = el_id c ∧ el_tag e = el_tag c ∧ el_props e = el_props c ∧
  el_text e = el_text c ∧ el_children e = el_children c ∧
  getAttribute "data-slide-index" e = Some (pretty j) ∧
  aria_hidden e = Some (if Nat.eqb j 0 then "false" else "true") ∧
  ∀ n, n ≠ "data-slide-index" → n ≠ "aria-hidden" →
       getAttribute n e = getAttribute n c.

(** A selection of position [i] took [s] to [s'] writing nothing but
    [aria-hidden] on the slides and [aria-selected] on the thumbnail
    buttons, and registering nothing. *)
Definition only_aria_written (i : nat) (s s' : State) : Prop :=
  (∀ j e, slide_at s j = Some e →
     ∃ e', slide_at s' j = Some e' ∧ same_but "aria-hidden" e e') ∧
  (∀ j b, button_at s j = Some b →
     button_at s' j
     = Some (setAttribute "aria-selected"
               (if Nat.eqb j i then "true" else "false") b)) ∧
  listeners s' = listeners s ∧
  thumbnailClickHandlers s' = thumbnailClickHandlers s ∧
  slideHeight s' = slideHeight s.





(** ** Sample documents *)

Definition plain (id : nat) (tag : string) (attrs : list (string * string))
    (ch : list Element) : Element :=
  mkElement id tag (list_to_map attrs) ∅ "" ch.

(** [n] empty slides with identities [base], [base + 1], ... *)
Definition sample_slides (base n : nat) : list Element :=
  map (fun k => plain (base + k) "div" [] []) (seq 0 n).

(** A thumbnails container holding [n] buttons without [aria-selected]. *)
Definition sample_thumbnails (base n : nat) : Element :=
  plain base "div" []
    (map (fun k => plain (base + 1 + k) "button"
                     [("class", "vertical-slideshow__thumbnail")] [])
         (seq 0 n)).

(** URLs resolve against a document at [https://shop.example/]. *)
Definition sample_resolve (v : string) : string :=
  "https://shop.example/" +:+ v.

Definition sample_env : Env :=
  mkEnv (fun _ => 400%Z)
        (fun id => mkRect (f64_of_Z (400 * Z.of_nat id)) (f64_of_Z 400))
        false sample_resolve.

(** A slide with one deferred image, one image that only carries
    [loading="lazy"], one with an empty deferred source, and a block with
    a deferred background. *)
Definition lazy_slide : Element :=
  plain 10 "div" []
    [ plain 11 "img" [("data-src", "a.png")] [];
      plain 12 "img" [("loading", "lazy"); ("src", "b.png")] [];
      plain 13 "img" [("data-src", "")] [];
      plain 14 "div" [("data-src", "bg.jpg")] [] ].

(** Components attached to a document with [n] slides and [n] thumbnails:
    container 1, slides 10.., thumbnails container 50, buttons 51... *)
Definition attached1 (n : nat) : State :=
  V1.connectedCallback sample_env (sample_slides 10 n)
    (Some (sample_thumbnails 50 n)) (new_component 1 100).

Definition attached2 (n : nat) : State :=
  V2.connectedCallback sample_env (sample_slides 10 n)
    (Some (sample_thumbnails 50 n)) (new_component 1 100).

(** A layout in which the media container is centred on the slide with
    identity [on]. *)
Definition centred_env (on : nat) : Env :=
  mkEnv (fun _ => 400%Z)
        (fun id => mkRect (f64_of_Z (400 * Z.of_nat (if Nat.eqb id 1 then on
                                                     else id)))
                          (f64_of_Z 400))
        false sample_resolve.

(** A layout of two slides of unequal heights below one another: the
    container spans 0 to 600 and its centre is at 300; the slide with
    identity 10 spans -10 to 90, the slide with identity 11 spans 90 to
    590.  The top of the first is the nearer to the top of the container,
    the centre of the second is the nearer to its centre. *)
Definition uneven_env : Env :=
  mkEnv (fun _ => 400%Z)
        (fun id =>
           if Nat.eqb id 1 then mkRect (f64_of_Z 0) (f64_of_Z 600)
           else if Nat.eqb id 10 then mkRect (f64_of_Z (-10)) (f64_of_Z 100)
           else mkRect (f64_of_Z 90) (f64_of_Z 500))
        false sample_resolve.

(** A layout in which two slides are nearer to one another than doubles
    tell apart: the container is the empty box at 0; the slide with
    identity 10 has its top at 1 and the height [2^-52], so that its centre
    [1 + 2^-53] rounds to 1; the slide with identity 11 is the empty box
    at 1. *)
Definition near_tie_env : Env :=
  mkEnv (fun _ => 0%Z)
        (fun id =>
           if Nat.eqb id 1 then mkRect (f64_of_Z 0) (f64_of_Z 0)
           else if Nat.eqb id 10
                then mkRect (f64_of_Z 1)
                            (f64_div (f64_of_Z 1) (f64_of_Z (2 ^ 52)))
                else mkRect (f64_of_Z 1) (f64_of_Z 0))
        false sample_resolve.

Definition reduced_motion_env : Env :=
  mkEnv (offsetHeight sample_env) (getBoundingClientRect sample_env) true
        sample_resolve.

(** A slide holding a marked thumbnail element and an image, a slide
    holding an image only, and an empty slide. *)
Definition marked_slide : Element :=
  plain 10 "div" []
    [ plain 11 "img" [("src", "big.png"); ("alt", "Front")] [];
      mkElement 12 "span" (list_to_map [("data-thumbnail", "")]) ∅ "One"
        [] ].

Definition image_slide : Element :=
  plain 20 "div" [] [ plain 21 "img" [("src", "side.png")] [] ].

Definition instant : Options := mkOptions (Some "instant").

(** A second-variant component whose only slide is [lazy_slide]. *)
Definition lazy_component : State :=
  V2.connectedCallback sample_env [lazy_slide] None (new_component 1 100).


(** * Properties *)

(** ** Numbers as array indices *)

Section Indices.

Lemma js_lt0_nat (i : nat) : js_lt0 (num_of_nat i) = false.
Proof.
  unfold js_lt0, num_of_nat, num_of_Z, Qlt_bool, Qle_bool. simpl.
  apply negb_false_iff, Z.leb_le. lia.
Qed.

Lemma js_ge_len_nat (i n : nat) : js_ge_len (num_of_nat i) n = (n <=? i).
Proof.
  unfold js_ge_len, num_of_nat, num_of_Z, Qle_bool. simpl.
  destruct (Nat.leb_spec n i).
  - apply Z.leb_le. lia.
  - apply Z.leb_gt. lia.
Qed.

Lemma js_array_index_nat (i : nat) : js_array_index (num_of_nat i) = Some i.
Proof.
  unfold js_array_index, num_of_nat, num_of_Z. simpl.
  rewrite Z.mod_1_r, Z.div_1_r. simpl.
  destruct (Z.leb_spec 0 (Z.of_nat i)); [|lia].
  by rewrite Nat2Z.id.
Qed.

(** A number that names position [k] is not negative, compares with a
    length the way [k] does, and is strictly equal to [k] only. *)
Lemma js_array_index_Some (x : JsNum) (k : nat) :
  js_array_index x = Some k →
  js_lt0 x = false ∧
  (∀ n, js_ge_len x n = (n <=? k)) ∧
  (∀ j, js_eq_index j x = Nat.eqb j k).
Proof.
  destruct x as [[n d]| | |]; simpl; try discriminate.
  destruct (Z.eqb_spec (n mod Z.pos d) 0) as [Hmod|]; [|discriminate].
  destruct (Z.leb_spec 0 n) as [Hn|]; [|discriminate].
  simpl. intros [= <-].
  apply Z.mod_divide in Hmod; [|lia]. destruct Hmod as [c Hc].
  assert (Hdiv : (n / Z.pos d = c)%Z) by (subst n; apply Z.div_mul; lia).
  rewrite Hdiv.
  assert (Hc0 : (0 <= c)%Z) by nia.
  split; [|split].
  - unfold Qlt_bool, Qle_bool. simpl. apply negb_false_iff, Z.leb_le. lia.
  - intros m. unfold Qle_bool. simpl.
    destruct (Nat.leb_spec m (Z.to_nat c)).
    + apply Z.leb_le. nia.
    + apply Z.leb_gt. nia.
  - intros j. unfold Qeq_bool. simpl.
    destruct (Nat.eqb_spec j (Z.to_nat c)).
    + apply Z.eqb_eq. nia.
    + apply Z.eqb_neq. nia.
Qed.

Lemma js_eq_index_nat (k i : nat) : js_eq_index k (num_of_nat i) = Nat.eqb k i.
Proof.
  by apply (js_array_index_Some (num_of_nat i) i), js_array_index_nat.
Qed.

(** A finite number that is not an integer names no array position. *)
Lemma js_array_index_fraction (q : Q) :
  ¬ is_integer q → js_array_index (Fin q) = None.
Proof.
  unfold is_integer, js_array_index. intros H.
  by destruct (Z.eqb_spec (Qnum q mod Z.pos (Qden q)) 0).
Qed.

End Indices.

(** ** What [selectSlide] does *)

Section Selection.

Lemma updateSlideVisibility_at index k s :
  (∀ j, js_eq_index j index = Nat.eqb j k) →
  updateSlideVisibility index s =
  match slides s with
  | Some sl => set_slides (Some (imap (mark_hidden k) sl)) s
  | None => s
  end.
Proof.
  intros Heq. unfold updateSlideVisibility.
  destruct (slides s) as [sl|]; [|done].
  do 2 f_equal. apply imap_ext. intros j e _.
  unfold mark_hidden. by rewrite Heq.
Qed.

Lemma updateActiveThumbnail_at index k s :
  (∀ j, js_eq_index j index = Nat.eqb j k) →
  updateActiveThumbnail index s =
  match thumbnailButtons s with
  | Some bs => set_thumbnailButtons (Some (imap (mark_selected k) bs)) s
  | None => s
  end.
Proof.
  intros Heq. unfold updateActiveThumbnail.
  destruct (thumbnailButtons s) as [bs|]; [|done].
  do 2 f_equal. apply imap_ext. intros j e _.
  unfold mark_selected. by rewrite Heq.
Qed.

(** Unfolds the state setters and projections, and nothing else. *)
Ltac state_compute :=
  cbv beta iota delta
    [set_slides set_thumbnailButtons set_isScrolling set_scrollTimeout
     set_slideHeight set_thumbnailClickHandlers set_listeners set_timers
     set_scrolls set_dispatched set_nextTimer set_nextClosure set_nextNode
     mediaContainer slides thumbnailButtons isScrolling scrollTimeout
     slideHeight thumbnailClickHandlers listeners timers scrolls
     dispatched nextTimer nextClosure nextNode
     scroll setTimeout dispatchEvent loadSlideContent V1.height_or
     fmap option_fmap option_map].

Ltac accept_selection Hs Hk Ht :=
  let Hlt := fresh "Hlt" in
  let Hge := fresh "Hge" in
  let Heq := fresh "Heq" in
  destruct (js_array_index_Some _ _ Hk) as (Hlt & Hge & Heq);
  pose proof (lookup_lt_Some _ _ _ Ht);
  rewrite Hs, Hlt, Hge;
  match goal with
  | |- context [ ?n <=? ?k ] => destruct (Nat.leb_spec n k); [lia|]
  end;
  unfold js_get; rewrite Hk, Ht;
  rewrite (updateActiveThumbnail_at _ _ _ Heq);
  rewrite (updateSlideVisibility_at _ _ _ Heq);
  match goal with
  | s : State |- _ =>
      destruct s as [mc ssl [bs|] sc st sh tch ls ts scs ds nt nc nn];
      simpl in Hs; subst ssl;
      unfold selected_state, V1_scroll;
      try (match goal with
           | |- context [ is_instant ?o ] => destruct (is_instant o)
           end);
      state_compute; rewrite Hk, list_lookup_imap, Ht; state_compute;
      reflexivity
  end.

(** An index that names an existing slide is accepted, in either
    variant, with the same writes. *)
Lemma V1_select_accept env index k o s sl t :
  slides s = Some sl → js_array_index index = Some k → sl !! k = Some t →
  V1.selectSlide env index o s =
  selected_state (V1_scroll env index o t s) index k o t sl s.
Proof.
  intros Hs Hk Ht. unfold V1.selectSlide.
  accept_selection Hs Hk Ht.
Qed.

Lemma V2_select_accept index k o s sl t :
  slides s = Some sl → js_array_index index = Some k → sl !! k = Some t →
  V2.selectSlide index o s =
  selected_state (V2_scroll o t) index k o t sl s.
Proof.
  intros Hs Hk Ht. unfold V2.selectSlide.
  accept_selection Hs Hk Ht.
Qed.

Lemma forEach_selected_attrs sel f e :
  el_attrs (forEach_selected sel f e) = el_attrs e.
Proof. by destruct e. Qed.

Lemma forEach_selected_id sel f e :
  el_id (forEach_selected sel f e) = el_id e.
Proof. by destruct e. Qed.

Lemma selected_state_slide_at a index k o t sl s j :
  sl !! k = Some t →
  slide_at (selected_state a index k o t sl s) j =
  (fun e => if Nat.eqb j k
            then forEach_selected sel_lazy promote (mark_hidden k j e)
            else mark_hidden k j e) <$> sl !! j.
Proof.
  intros Ht. unfold slide_at, selected_state. simpl.
  destruct (decide (j = k)) as [->|Hne].
  - rewrite list_lookup_insert_eq
      by (rewrite length_imap; by eapply lookup_lt_Some).
    by rewrite Ht, Nat.eqb_refl.
  - rewrite list_lookup_insert_ne by done.
    rewrite list_lookup_imap.
    by destruct (Nat.eqb_spec j k).
Qed.

Lemma selected_state_button_at a index k o t sl s j :
  button_at (selected_state a index k o t sl s) j =
  mark_selected k j <$> button_at s j.
Proof.
  unfold button_at, selected_state. simpl.
  destruct (thumbnailButtons s) as [bs|]; simpl; [|done].
  by rewrite list_lookup_imap.
Qed.

Lemma shows_selected_state a index k o t sl s :
  sl !! k = Some t → shows k (selected_state a index k o t sl s).
Proof.
  intros Ht. split.
  - intros j e. rewrite selected_state_slide_at by done.
    rewrite fmap_Some. intros (e0 & _ & ->).
    unfold aria_hidden, getAttribute, mark_hidden.
    destruct (Nat.eqb j k); [rewrite forEach_selected_attrs|];
      simpl; by rewrite lookup_insert_eq.
  - intros j b. rewrite selected_state_button_at.
    rewrite fmap_Some. intros (b0 & _ & ->).
    unfold aria_selected, getAttribute, mark_selected. simpl.
    rewrite lookup_insert_eq. by destruct (Nat.eqb j k).
Qed.

Lemma selected_state_lengths a index k o t sl s :
  slideCount (selected_state a index k o t sl s) = length sl ∧
  (length <$> thumbnailButtons (selected_state a index k o t sl s))
  = (length <$> thumbnailButtons s).
Proof.
  unfold slideCount, selected_state. simpl. split.
  - by rewrite length_insert, length_imap.
  - destruct (thumbnailButtons s); simpl; [|done]. by rewrite length_imap.
Qed.

(** Either guard of [selectSlide] returns with the state as it was;
    otherwise the index names an existing slide. *)
Lemma V1_select_cases env index o s :
  V1.selectSlide env index o s = s ∨
  ∃ k t sl, slides s = Some sl ∧ js_array_index index = Some k ∧
            sl !! k = Some t ∧
            V1.selectSlide env index o s =
            selected_state (V1_scroll env index o t s) index k o t sl s.
Proof.
  destruct (slides s) as [sl|] eqn:Hs;
    [|left; unfold V1.selectSlide; by rewrite Hs].
  destruct (js_array_index index) as [k|] eqn:Hk.
  - destruct (sl !! k) as [t|] eqn:Ht.
    + right. exists k, t, sl. eauto using V1_select_accept.
    + left. unfold V1.selectSlide, js_get. rewrite Hs, Hk, Ht.
      by destruct (_ || _).
  - left. unfold V1.selectSlide, js_get. rewrite Hs, Hk.
    by destruct (_ || _).
Qed.

Lemma V2_select_cases index o s :
  V2.selectSlide index o s = s ∨
  ∃ k t sl, slides s = Some sl ∧ js_array_index index = Some k ∧
            sl !! k = Some t ∧
            V2.selectSlide index o s =
            selected_state (V2_scroll o t) index k o t sl s.
Proof.
  destruct (slides s) as [sl|] eqn:Hs;
    [|left; unfold V2.selectSlide; by rewrite Hs].
  destruct (js_array_index index) as [k|] eqn:Hk.
  - destruct (sl !! k) as [t|] eqn:Ht.
    + right. exists k, t, sl. eauto using V2_select_accept.
    + left. unfold V2.selectSlide, js_get. rewrite Hs, Hk, Ht.
      by destruct (_ || _).
  - left. unfold V2.selectSlide, js_get. rewrite Hs, Hk.
    by destruct (_ || _).
Qed.

Lemma out_of_range_guard index n :
  out_of_range index n → js_lt0 index || js_ge_len index n = true.
Proof.
  destruct index as [q| | |]; simpl; try done.
  intros [Hlt|Hge]; apply orb_true_iff.
  - left. unfold Qlt_bool. apply negb_true_iff.
    destruct (Qle_bool 0 q) eqn:E; [|done].
    apply Qle_bool_iff in E. by apply Qlt_not_le in Hlt.
  - right. by apply Qle_bool_iff.
Qed.

End Selection.

(** ** Selecting a slide: claims on [selectSlide] *)

Section SelectSlide.

Lemma slideCount_Some s sl : slides s = Some sl → slideCount s = length sl.
Proof. unfold slideCount. by intros ->. Qed.

Lemma valid_index_slide s i :
  i < slideCount s → ∃ sl t, slides s = Some sl ∧ sl !! i = Some t.
Proof.
  unfold slideCount. destruct (slides s) as [sl|]; [|lia].
  intros Hi. destruct (lookup_lt_is_Some_2 sl i Hi) as [t Ht]. eauto.
Qed.

Lemma selection_result_selected_state a index k o t sl s :
  slides s = Some sl → sl !! k = Some t →
  selection_result k s (selected_state a index k o t sl s).
Proof.
  intros Hs Ht.
  destruct (shows_selected_state a index k o t sl s Ht) as [Hsl Hbt].
  destruct (selected_state_lengths a index k o t sl s) as [Hn _].
  repeat split.
  - by rewrite Hn, (slideCount_Some _ _ Hs).
  - rewrite selected_state_button_at, fmap_is_Some. done.
  - rewrite selected_state_button_at, fmap_is_Some. done.
  - assert (is_Some (slide_at (selected_state a index k o t sl s) k))
      as [e He].
    { rewrite selected_state_slide_at, fmap_is_Some by done. eauto. }
    exists e. split; [done|].
    specialize (Hsl k e He). by rewrite Nat.eqb_refl in Hsl.
  - intros j e Hne He. specialize (Hsl j e He).
    by destruct (Nat.eqb_spec j k).
  - intros b Hb. specialize (Hbt k b Hb). by rewrite Nat.eqb_refl in Hbt.
  - intros j b Hne Hb. specialize (Hbt j b Hb).
    by destruct (Nat.eqb_spec j k).
Qed.

(** C1. For every index [i] with [0 <= i < slideCount], [selectSlide(i)]
    leaves slide [i] with [aria-hidden="false"] and every other slide with
    [aria-hidden="true"], thumbnail button [i] with [aria-selected="true"]
    and every other thumbnail button with [aria-selected="false"], in both
    variants and whatever the options. *)
Theorem selectSlide_shows_selection (env : Env) (i : nat) (o : Options)
    (s : State) :
  i < slideCount s →
  selection_result i s (V1.selectSlide env (num_of_nat i) o s) ∧
  selection_result i s (V2.selectSlide (num_of_nat i) o s).
Proof.
  intros Hi. destruct (valid_index_slide s i Hi) as (sl & t & Hs & Ht).
  pose proof (js_array_index_nat i) as Hk.
  rewrite (V1_select_accept env _ _ o _ _ _ Hs Hk Ht).
  rewrite (V2_select_accept _ _ o _ _ _ Hs Hk Ht).
  split; by apply selection_result_selected_state.
Qed.

Lemma selectSlide_shows_selection_witness :
  3 < slideCount (attached2 5) ∧
  selection_result 3 (attached2 5)
    (V2.selectSlide (num_of_nat 3) default_options (attached2 5)).
Proof.
  assert (H : 3 < slideCount (attached2 5)) by (vm_compute; lia).
  split; [exact H|].
  exact (proj2 (selectSlide_shows_selection sample_env 3 default_options
                  (attached2 5) H)).
Defined.

(** C3. [selectSlide] with an index below 0 or at least [slideCount], or
    with no slide list, returns the state it was given: no attribute, no
    flag, no timer, no scroll request and no event differs. *)
Theorem selectSlide_out_of_range (env : Env) (index : JsNum) (o : Options)
    (s : State) :
  slides s = None ∨ out_of_range index (slideCount s) →
  V1.selectSlide env index o s = s ∧ V2.selectSlide index o s = s.
Proof.
  unfold V1.selectSlide, V2.selectSlide, slideCount.
  intros [Hs|Hr]; [by rewrite Hs|].
  destruct (slides s) as [sl|]; [|done].
  by rewrite (out_of_range_guard _ _ Hr).
Qed.

Lemma selectSlide_out_of_range_witness :
  (* index 5 on five slides *)
  ((slides (attached2 5) = None ∨
    out_of_range (num_of_nat 5) (slideCount (attached2 5))) ∧
   V1.selectSlide sample_env (num_of_nat 5) default_options (attached2 5)
   = attached2 5 ∧
   V2.selectSlide (num_of_nat 5) default_options (attached2 5)
   = attached2 5) ∧
  (* no slide list yet *)
  ((slides (new_component 1 100) = None ∨
    out_of_range (num_of_nat 0) (slideCount (new_component 1 100))) ∧
   V2.selectSlide (num_of_nat 0) default_options (new_component 1 100)
   = new_component 1 100).
Proof.
  assert (H : slides (attached2 5) = None ∨
              out_of_range (num_of_nat 5) (slideCount (attached2 5))).
  { right. vm_compute. right. discriminate. }
  assert (H' : slides (new_component 1 100) = None ∨
               out_of_range (num_of_nat 0)
                 (slideCount (new_component 1 100))) by (by left).
  split.
  - split; [exact H|].
    exact (selectSlide_out_of_range sample_env (num_of_nat 5) default_options
             (attached2 5) H).
  - split; [exact H'|].
    exact (proj2 (selectSlide_out_of_range sample_env (num_of_nat 0)
                    default_options (new_component 1 100) H')).
Defined.

(** C10. For a non-integer index strictly between 0 and [slideCount] the
    bounds check lets the call through, the lookup [slides[index]] finds
    nothing, and [selectSlide] returns the state it was given. *)
Theorem selectSlide_fractional_index (env : Env) (q : Q) (o : Options)
    (s : State) :
  ¬ is_integer q →
  (0 < q)%Q → (q < inject_Z (Z.of_nat (slideCount s)))%Q →
  js_lt0 (Fin q) || js_ge_len (Fin q) (slideCount s) = false ∧
  (∀ sl, slides s = Some sl → js_get sl (Fin q) = None) ∧
  V1.selectSlide env (Fin q) o s = s ∧
  V2.selectSlide (Fin q) o s = s.
Proof.
  intros Hfrac Hpos Hlt.
  pose proof (js_array_index_fraction q Hfrac) as Hk.
  split; [|split; [|split]].
  - apply orb_false_iff. split.
    + unfold js_lt0, Qlt_bool. apply negb_false_iff, Qle_bool_iff.
      by apply Qlt_le_weak.
    + unfold js_ge_len.
      destruct (Qle_bool _ q) eqn:E; [|done].
      apply Qle_bool_iff in E. by apply Qlt_not_le in Hlt.
  - intros sl _. unfold js_get. by rewrite Hk.
  - destruct (V1_select_cases env (Fin q) o s)
      as [->|(k & t & sl & _ & Hk' & _)]; [done|congruence].
  - destruct (V2_select_cases (Fin q) o s)
      as [->|(k & t & sl & _ & Hk' & _)]; [done|congruence].
Qed.

Lemma selectSlide_fractional_index_witness :
  ¬ is_integer (3 # 2) ∧
  (0 < 3 # 2)%Q ∧
  (3 # 2 < inject_Z (Z.of_nat (slideCount (attached2 5))))%Q ∧
  V2.selectSlide (Fin (3 # 2)) default_options (attached2 5) = attached2 5.
Proof.
  assert (H1 : ¬ is_integer (3 # 2)) by (vm_compute; discriminate).
  assert (H2 : (0 < 3 # 2)%Q) by reflexivity.
  assert (H3 : (3 # 2 < inject_Z (Z.of_nat (slideCount (attached2 5))))%Q)
    by (vm_compute; reflexivity).
  split; [exact H1|]. split; [exact H2|]. split; [exact H3|].
  exact (proj2 (proj2 (proj2
           (selectSlide_fractional_index sample_env (3 # 2) default_options
              (attached2 5) H1 H2 H3)))).
Defined.

End SelectSlide.

(** ** The scrolling flag and its timer *)

Section ScrollingFlag.

Lemma flag_scheduled_selected_state a index k o t sl s :
  flag_scheduled (flag_delay o) s (selected_state a index k o t sl s).
Proof.
  split; [done|]. exists (nextTimer s).
  split; [done|]. split; [done|].
  unfold fire_timer, selected_state.
  cbv beta iota delta [timers].
  rewrite existsb_app. cbv beta iota delta [existsb t_id].
  by rewrite Nat.eqb_refl, orb_true_r.
Qed.

Lemma flag_delay_cases o :
  flag_delay o = if decide (behavior o = Some "instant") then 0 else 300.
Proof.
  unfold flag_delay, is_instant.
  destruct (decide (behavior o = Some "instant")) as [H|H].
  - by rewrite bool_decide_eq_true_2.
  - by rewrite bool_decide_eq_false_2.
Qed.

(** C9. Every call of [selectSlide] with a valid index raises the
    scrolling flag and schedules its clearing after 0 ms when
    [options.behavior] is ['instant'] and after 300 ms otherwise; and
    [selectSlide(3, {behavior: 'instant'})] on five slides leaves slide 3
    alone visible, thumbnail 3 alone selected and the clearing due after
    0 ms. *)
Theorem selectSlide_schedules_flag_clear :
  (∀ (env : Env) (i : nat) (o : Options) (s : State),
     i < slideCount s →
     let delay :=
       if decide (behavior o = Some "instant") then 0 else 300 in
     flag_scheduled delay s (V1.selectSlide env (num_of_nat i) o s) ∧
     flag_scheduled delay s (V2.selectSlide (num_of_nat i) o s)) ∧
  (let s1 := V1.selectSlide sample_env (num_of_nat 3) instant (attached1 5) in
   let s2 := V2.selectSlide (num_of_nat 3) instant (attached2 5) in
   slideCount (attached1 5) = 5 ∧ slideCount (attached2 5) = 5 ∧
   visible_slides s1 = [3] ∧ selected_thumbnails s1 = [3] ∧
   visible_slides s2 = [3] ∧ selected_thumbnails s2 = [3] ∧
   flag_scheduled 0 (attached1 5) s1 ∧ flag_scheduled 0 (attached2 5) s2).
Proof.
  assert (Hgen : ∀ env i o s, i < slideCount s →
     flag_scheduled (if decide (behavior o = Some "instant") then 0 else 300)
       s (V1.selectSlide env (num_of_nat i) o s) ∧
     flag_scheduled (if decide (behavior o = Some "instant") then 0 else 300)
       s (V2.selectSlide (num_of_nat i) o s)).
  { intros env i o s Hi.
    destruct (valid_index_slide s i Hi) as (sl & t & Hs & Ht).
    pose proof (js_array_index_nat i) as Hk.
    rewrite (V1_select_accept env _ _ o _ _ _ Hs Hk Ht).
    rewrite (V2_select_accept _ _ o _ _ _ Hs Hk Ht).
    rewrite <- flag_delay_cases.
    split; apply flag_scheduled_selected_state. }
  split; [exact Hgen|].
  assert (H1 : 3 < slideCount (attached1 5)) by (vm_compute; lia).
  assert (H2 : 3 < slideCount (attached2 5)) by (vm_compute; lia).
  split; [by vm_compute|]. split; [by vm_compute|].
  split; [by vm_compute|]. split; [by vm_compute|].
  split; [by vm_compute|]. split; [by vm_compute|].
  split.
  - exact (proj1 (Hgen sample_env 3 instant (attached1 5) H1)).
  - exact (proj2 (Hgen sample_env 3 instant (attached2 5) H2)).
Qed.

Lemma selectSlide_schedules_flag_clear_witness :
  3 < slideCount (attached2 5) ∧
  flag_scheduled 300 (attached2 5)
    (V2.selectSlide (num_of_nat 3) default_options (attached2 5)).
Proof.
  assert (H : 3 < slideCount (attached2 5)) by (vm_compute; lia).
  split; [exact H|].
  exact (proj2 (proj1 selectSlide_schedules_flag_clear sample_env 3
                  default_options (attached2 5) H)).
Defined.

End ScrollingFlag.

(** ** Lazy content *)

Section LazyContent.

(** Induction over an element and, through its child list, over its
    subtrees. *)
Lemma Element_tree_ind (P : Element → Prop) :
  (∀ id tag attrs props text ch,
     Forall P ch → P (mkElement id tag attrs props text ch)) →
  ∀ e, P e.
Proof.
  intros Hstep. fix IH 1. intros [id tag attrs props text ch].
  apply Hstep. induction ch as [|c ch IHch]; constructor.
  - apply IH.
  - exact IHch.
Qed.

Lemma sel_lazy_false_dataset e : sel_lazy e = false → dataset_src e = None.
Proof.
  unfold sel_lazy, dataset_src. intros H.
  apply orb_false_iff in H as [H _].
  apply bool_decide_eq_false in H.
  destruct (getAttribute "data-src" e) as [v|]; [|done].
  exfalso. apply H. eauto.
Qed.

Lemma promote_children e : el_children (promote e) = el_children e.
Proof.
  unfold promote, set_src.
  destruct (dataset_src e); [|done]. by destruct (reflects_src e).
Qed.

Lemma descendants_promote e : descendants (promote e) = descendants e.
Proof.
  pose proof (promote_children e) as H.
  destruct (promote e), e. simpl in *. by subst.
Qed.

Lemma dataset_src_forEach sel f e :
  dataset_src (forEach_selected sel f e) = dataset_src e.
Proof. by destruct e. Qed.

Lemma reflects_src_forEach sel f e :
  reflects_src (forEach_selected sel f e) = reflects_src e.
Proof. by destruct e. Qed.

(** The callback applied to a match, or nothing on the others, is what
    [promoted_by_code] describes. *)
Lemma promoted_by_code_step c :
  promoted_by_code c
    (if sel_lazy c then promote (forEach_selected sel_lazy promote c)
     else forEach_selected sel_lazy promote c).
Proof.
  unfold promoted_by_code.
  destruct (sel_lazy c) eqn:Hsel.
  - unfold promote, set_src. rewrite dataset_src_forEach, reflects_src_forEach.
    destruct (dataset_src c) as [v|]; [|by destruct c].
    destruct (reflects_src c); by destruct c.
  - rewrite (sel_lazy_false_dataset _ Hsel). by destruct c.
Qed.

Lemma descendants_step c :
  descendants
    (if sel_lazy c then promote (forEach_selected sel_lazy promote c)
     else forEach_selected sel_lazy promote c)
  = descendants (forEach_selected sel_lazy promote c).
Proof. destruct (sel_lazy c); [apply descendants_promote|done]. Qed.

Lemma descendants_forEach_selected e :
  Forall2 promoted_by_code
    (descendants e) (descendants (forEach_selected sel_lazy promote e)).
Proof.
  induction e as [id tag attrs props text ch IH] using Element_tree_ind.
  cbn [forEach_selected descendants set_children el_children el_text].
  induction IH as [|c ch Hc _ IHch]; [constructor|].
  cbn [map flat_map]. rewrite <- !app_comm_cons.
  constructor; [apply promoted_by_code_step|].
  apply Forall2_app; [|exact IHch].
  by rewrite descendants_step.
Qed.

Lemma descendants_setAttribute name v e :
  descendants (setAttribute name v e) = descendants e.
Proof. by destruct e. Qed.

Lemma loads_content_loadSlideContent index k s t :
  js_array_index index = Some k → slide_at s k = Some t →
  loads_content index k s (loadSlideContent index s).
Proof.
  unfold slide_at. intros Hk Ht.
  destruct (slides s) as [sl|] eqn:Hs; [|done]. simpl in Ht.
  exists t, (forEach_selected sel_lazy promote t).
  unfold slide_at, loadSlideContent. rewrite Hs, Hk, Ht.
  cbv beta iota delta [dispatchEvent set_dispatched set_slides slides
                       dispatched].
  split; [done|]. split.
  { simpl. apply list_lookup_insert_eq. by eapply lookup_lt_Some. }
  split; [apply forEach_selected_id|].
  split; [apply descendants_forEach_selected|].
  reflexivity.
Qed.

Lemma loads_content_selected_state a index k o t sl s :
  slides s = Some sl → sl !! k = Some t →
  loads_content index k s (selected_state a index k o t sl s).
Proof.
  intros Hs Ht. exists t, (forEach_selected sel_lazy promote (mark_hidden k k t)).
  split; [unfold slide_at; by rewrite Hs|].
  split; [rewrite selected_state_slide_at by done;
          by rewrite Ht, Nat.eqb_refl|].
  split; [by rewrite forEach_selected_id|].
  split; [|done].
  rewrite <- (descendants_setAttribute "aria-hidden"
                (string_of_bool (negb (Nat.eqb k k))) t) at 1.
  apply descendants_forEach_selected.
Qed.

(** A promoted element has lost [data-src]; its [src] attribute is the
    deferred source when its [src] reflects, and is as it was when it does
    not, the source then being a property of the object. *)
Lemma promoted_by_code_src before after v :
  promoted_by_code before after → dataset_src before = Some v →
  getAttribute "data-src" after = None ∧
  if reflects_src before
  then getAttribute "src" after = Some v
  else getAttribute "src" after = getAttribute "src" before ∧
       el_props after !! "src" = Some v.
Proof.
  intros (_ & _ & H) Hv. rewrite Hv in H. unfold getAttribute.
  destruct (reflects_src before); destruct H as [-> H].
  - split; [apply lookup_delete_eq|].
    rewrite lookup_delete_ne by done. apply lookup_insert_eq.
  - split; [apply lookup_delete_eq|]. split.
    + by rewrite lookup_delete_ne.
    + rewrite H. apply lookup_insert_eq.
Qed.

(** C6, as the code has it. When a slide is selected, or its thumbnail is
    hovered, every descendant of that slide with a non-empty [data-src]
    loses [data-src] and has that value assigned to its [src] property:
    on the elements whose [src] reflects the attribute (img, iframe,
    video, ...) the [src] attribute takes it, on every other element the
    object gets a property and its attributes gain nothing.  Every other
    descendant, among them those that carry [loading="lazy"] only, stays
    as it is; and one ["slide-content-loaded"] event with detail
    [{index, slide}] is dispatched by the call, promoted content or
    not. *)
Theorem lazy_content_promoted (env : Env) (i : nat) (o : Options)
    (s : State) :
  i < slideCount s →
  loads_content (num_of_nat i) i s (loadSlideContent (num_of_nat i) s) ∧
  loads_content (num_of_nat i) i s
    (V1.selectSlide env (num_of_nat i) o s) ∧
  loads_content (num_of_nat i) i s (V2.selectSlide (num_of_nat i) o s).
Proof.
  intros Hi. destruct (valid_index_slide s i Hi) as (sl & t & Hs & Ht).
  pose proof (js_array_index_nat i) as Hk.
  split; [|split].
  - apply (loads_content_loadSlideContent _ _ _ t Hk).
    unfold slide_at. by rewrite Hs.
  - rewrite (V1_select_accept env _ _ o _ _ _ Hs Hk Ht).
    by apply loads_content_selected_state.
  - rewrite (V2_select_accept _ _ o _ _ _ Hs Hk Ht).
    by apply loads_content_selected_state.
Qed.

Lemma lazy_content_promoted_witness :
  0 < slideCount lazy_component ∧
  loads_content (num_of_nat 0) 0 lazy_component
    (V2.selectSlide (num_of_nat 0) default_options lazy_component).
Proof.
  assert (H : 0 < slideCount lazy_component) by (vm_compute; lia).
  split; [exact H|].
  exact (proj2 (proj2 (lazy_content_promoted sample_env 0 default_options
                         lazy_component H))).
Defined.

(** On [lazy_slide]: the first image gets its deferred source as [src]
    attribute; the image that is only marked [loading="lazy"] and the one
    whose deferred source is empty stay as they are; the block loses
    [data-src] and gets no [src] attribute, the source being a property of
    the object. *)
Example deferred_sources_promoted :
  (fun slide =>
     map (fun d => (el_id d, getAttribute "src" d, getAttribute "data-src" d,
                    getAttribute "loading" d, el_props d !! "src"))
         (descendants slide))
  <$> slide_at (V2.selectSlide (num_of_nat 0) default_options lazy_component) 0
  = Some [ (11, Some "a.png", None, None, None);
           (12, Some "b.png", None, Some "lazy", None);
           (13, None, Some "", None, None);
           (14, None, None, None, Some "bg.jpg") ].
Proof. by vm_compute. Qed.

(** C6, as worded, fails: selecting the slide of [lazy_component] leaves
    the image that only carries [loading="lazy"] with its marker. *)
Lemma lazy_marker_survives :
  ¬ (∀ s i slide slide',
       i < slideCount s →
       slide_at s i = Some slide →
       slide_at (V2.selectSlide (num_of_nat i) default_options s) i
       = Some slide' →
       all_lazy_promoted slide slide').
Proof.
  intros H.
  pose (s' := V2.selectSlide (num_of_nat 0) default_options lazy_component).
  pose (slide := default lazy_slide (slide_at lazy_component 0)).
  pose (slide' := default lazy_slide (slide_at s' 0)).
  assert (Hi : 0 < slideCount lazy_component) by (vm_compute; lia).
  assert (H1 : slide_at lazy_component 0 = Some slide) by (by vm_compute).
  assert (H2 : slide_at s' 0 = Some slide') by (by vm_compute).
  specialize (H lazy_component 0 slide slide' Hi H1 H2).
  pose (d := default lazy_slide (descendants slide !! 1)).
  pose (d' := default lazy_slide (descendants slide' !! 1)).
  assert (H3 : descendants slide !! 1 = Some d) by (by vm_compute).
  assert (H4 : descendants slide' !! 1 = Some d') by (by vm_compute).
  assert (H5 : sel_lazy d = true) by (by vm_compute).
  destruct (H 1 d d' H3 H4 H5) as [_ H6].
  vm_compute in H6. discriminate.
Qed.

End LazyContent.

(** ** The current index, the wheel, [next] and [previous] *)

Section Doubles.

(** The order of doubles: [<] is irreflexive and transitive, [<=] composes
    with it, and two numbers are always comparable. *)

Ltac compare_cases :=
  unfold f64_lt, f64_le, SFltb, SFleb, SFcompare;
  repeat match goal with
         | x : float64 |- _ => destruct x as [[]|[]| |[] ? ?]
         | x : spec_float |- _ => destruct x as [[]|[]| |[] ? ?]
         end;
  try done;
  repeat match goal with
         | |- context [PosDef.Pos.compare_cont Eq ?x ?y] =>
             change (PosDef.Pos.compare_cont Eq x y) with (Pos.compare x y)
         end;
  repeat match goal with
         | |- context [(?x ?= ?y)%Z] => destruct (Z.compare_spec x y)
         end;
  try done; try lia;
  repeat match goal with
         | |- context [(?x ?= ?y)%positive] => destruct (Pos.compare_spec x y)
         end;
  try done; try lia.

Lemma f64_lt_irrefl (a : float64) : f64_lt a a = false.
Proof. compare_cases. Qed.

Lemma f64_lt_trans (a b c : float64) :
  f64_lt a b = true → f64_lt b c = true → f64_lt a c = true.
Proof. compare_cases. Qed.

Lemma f64_le_lt_trans (a b c : float64) :
  f64_le a b = true → f64_lt b c = true → f64_lt a c = true.
Proof. compare_cases. Qed.

Lemma f64_lt_le_absurd (a b : float64) :
  f64_lt a b = true → f64_le b a = true → False.
Proof. compare_cases. Qed.

Lemma f64_le_nan (a b : float64) :
  f64_le a b = true → a ≠ S754_nan ∧ b ≠ S754_nan.
Proof. compare_cases. Qed.

Lemma f64_lt_false_le (a b : float64) :
  f64_lt a b = false → a ≠ S754_nan → b ≠ S754_nan → f64_le b a = true.
Proof. compare_cases. Qed.

Lemma f64_le_false_lt (a b : float64) :
  f64_le a b = false → a ≠ S754_nan → b ≠ S754_nan → f64_lt b a = true.
Proof. compare_cases. Qed.

Lemma f64_lt_Infinity (a : float64) :
  f64_lt a Infinity = false → a = Infinity ∨ a = S754_nan.
Proof. destruct a as [[]|[]| |[] ? ?]; cbn; auto; discriminate. Qed.

(** The order of doubles is the order of the numbers they stand for. *)

Lemma digits2_pos_bounds m :
  (2 ^ (Zpos (digits2_pos m) - 1) <= Zpos m < 2 ^ Zpos (digits2_pos m))%Z.
Proof.
  induction m as [p IH|p IH|]; cbn [digits2_pos].
  - rewrite Pos2Z.inj_succ.
    replace (Z.succ (Z.pos (digits2_pos p)) - 1)%Z
      with (Z.succ (Z.pos (digits2_pos p) - 1))%Z by lia.
    rewrite !Z.pow_succ_r by lia. lia.
  - rewrite Pos2Z.inj_succ.
    replace (Z.succ (Z.pos (digits2_pos p)) - 1)%Z
      with (Z.succ (Z.pos (digits2_pos p) - 1))%Z by lia.
    rewrite !Z.pow_succ_r by lia. lia.
  - simpl. lia.
Qed.

(** In a double of the format the mantissa is below [2^53], and at least
    [2^52] unless the exponent is the least one. *)
Lemma canonical_bounds m e :
  canonical_mantissa 53 1024 m e = true →
  (-1074 <= e)%Z ∧ (Zpos m < 2 ^ 53)%Z ∧
  ((-1074 < e)%Z → (2 ^ 52 <= Zpos m)%Z).
Proof.
  unfold canonical_mantissa, fexp, emin. intros H. apply Z.eqb_eq in H.
  pose proof (digits2_pos_bounds m) as [Hlo Hhi].
  set (d := Zpos (digits2_pos m)) in *.
  assert (Hd : (0 < d)%Z) by (unfold d; lia).
  split; [lia|]. split.
  - eapply Z.lt_le_trans; [exact Hhi|].
    apply Z.pow_le_mono_r; lia.
  - intros He. assert (d = 53%Z) as Hd53 by lia.
    rewrite Hd53 in Hlo. exact Hlo.
Qed.

Lemma pow2_pos (e : Z) : (0 < 2 ^ e)%Q.
Proof. by apply Qpower_0_lt. Qed.

Lemma pow2_split (e k : Z) :
  (0 <= k)%Z → (2 ^ (e + k) == 2 ^ e * inject_Z (2 ^ k))%Q.
Proof.
  intros Hk. rewrite Qpower_plus by done.
  by rewrite (Zpower_Qpower 2 k Hk).
Qed.

Lemma value_lt_exponent m1 e1 m2 e2 :
  canonical_mantissa 53 1024 m1 e1 = true →
  canonical_mantissa 53 1024 m2 e2 = true →
  (e1 < e2)%Z →
  (inject_Z (Zpos m1) * 2 ^ e1 < inject_Z (Zpos m2) * 2 ^ e2)%Q.
Proof.
  intros H1 H2 He.
  destruct (canonical_bounds m1 e1 H1) as (Hmin & Hm1 & _).
  destruct (canonical_bounds m2 e2 H2) as (_ & _ & Hm2).
  specialize (Hm2 ltac:(lia)).
  replace e2 with (e1 + (e2 - e1))%Z by lia.
  rewrite pow2_split by lia.
  rewrite (Qmult_comm (2 ^ e1)), Qmult_assoc.
  apply Qmult_lt_compat_r; [apply pow2_pos|].
  rewrite <- inject_Z_mult, <- Zlt_Qlt.
  assert (2 ^ 1 <= 2 ^ (e2 - e1))%Z by (apply Z.pow_le_mono_r; lia).
  change (2 ^ 53)%Z with (2 ^ 52 * 2 ^ 1)%Z in Hm1. nia.
Qed.

Lemma f64_compare_value (a b : float64) :
  f64_magnitude a = true → f64_magnitude b = true →
  (f64_le a b = true → (f64_value a <= f64_value b)%Q) ∧
  (f64_lt a b = true → (f64_value a < f64_value b)%Q).
Proof.
  destruct a as [[]|[]| |[] ma ea], b as [[]|[]| |[] mb eb]; try done.
  - (* zero and a positive number *)
    intros _ _. assert ((0 < f64_value (S754_finite false mb eb))%Q) as H.
    { cbn [f64_value cond_Zopp].
      apply Qmult_lt_0_compat; [done|apply pow2_pos]. }
    split; intros _; [by apply Qlt_le_weak|done].
  - (* two positive numbers: by exponent, then by mantissa *)
    cbn [f64_magnitude valid_binary]. unfold bounded.
    intros [Ha _]%andb_true_iff [Hb _]%andb_true_iff.
    unfold f64_le, f64_lt, SFleb, SFltb, SFcompare.
    change (PosDef.Pos.compare_cont Eq ma mb) with (Pos.compare ma mb).
    cbn [f64_value cond_Zopp].
    destruct (Z.compare_spec ea eb) as [->|He|He].
    + destruct (Pos.compare_spec ma mb) as [->|Hm|Hm].
      * split; [intros _; apply Qle_refl|done].
      * assert (inject_Z (Z.pos ma) * 2 ^ eb
                < inject_Z (Z.pos mb) * 2 ^ eb)%Q as H.
        { apply Qmult_lt_compat_r; [apply pow2_pos|].
          rewrite <- Zlt_Qlt. lia. }
        split; intros _; [by apply Qlt_le_weak|done].
      * done.
    + pose proof (value_lt_exponent ma ea mb eb Ha Hb He) as H.
      split; intros _; [by apply Qlt_le_weak|done].
    + done.
Qed.

Lemma f64_magnitude_nan (a : float64) : f64_magnitude a = true → a ≠ S754_nan.
Proof. by destruct a. Qed.

End Doubles.

Section CurrentIndex.

Lemma Qlt_bool_true x y : Qlt_bool x y = true → (x < y)%Q.
Proof.
  unfold Qlt_bool. intros H. apply negb_true_iff in H.
  apply Qnot_le_lt. intros Hle. apply Qle_bool_iff in Hle. congruence.
Qed.

Lemma Qlt_bool_false x y : Qlt_bool x y = false → (y <= x)%Q.
Proof.
  unfold Qlt_bool. intros H. apply negb_false_iff in H.
  by apply Qle_bool_iff.
Qed.

Variable env : Env.
Variable containerCenter : float64.

(** The loop keeps [holds_closest]. *)
Lemma closest_from_invariant rest :
  ∀ pre i d,
    holds_closest env containerCenter pre i d →
    ∃ i' d',
      V2.closest_from env containerCenter (length pre) rest (i, d) = (i', d') ∧
      holds_closest env containerCenter (pre ++ rest) i' d'.
Proof.
  induction rest as [|x rest IH]; intros pre i d Hinv.
  - exists i, d. by rewrite app_nil_r.
  - cbn [V2.closest_from snd]. fold (loop_distance env containerCenter x).
    replace (pre ++ x :: rest) with ((pre ++ [x]) ++ rest)
      by (by rewrite <- app_assoc).
    replace (S (length pre)) with (length (pre ++ [x]))
      by (rewrite length_app; simpl; lia).
    destruct Hinv as [Hheld Hall].
    destruct (f64_lt (loop_distance env containerCenter x) d) eqn:Hcmp.
    + apply IH. split.
      * right. exists x. split; [|done]. by rewrite list_lookup_middle.
      * intros j e' Hj.
        destruct (decide (j < length pre)) as [Hlt|Hge].
        -- rewrite lookup_app_l in Hj by done.
           destruct (Hall j e' Hj) as [Hnlt _].
           split; [|intros _].
           ++ destruct (f64_lt (loop_distance env containerCenter e')
                          (loop_distance env containerCenter x))
                eqn:E; [|done].
              by rewrite (f64_lt_trans _ _ _ E Hcmp) in Hnlt.
           ++ destruct (f64_le (loop_distance env containerCenter e')
                          (loop_distance env containerCenter x))
                eqn:E; [|done].
              by rewrite (f64_le_lt_trans _ _ _ E Hcmp) in Hnlt.
        -- assert (j = length pre) as ->.
           { apply lookup_lt_Some in Hj. rewrite length_app in Hj.
             simpl in Hj. lia. }
           rewrite list_lookup_middle in Hj by done.
           injection Hj as <-. split; [apply f64_lt_irrefl|lia].
    + apply IH. split.
      * destruct Hheld as [Hstart|(e & He & Hd)]; [by left|right].
        exists e. split; [|done]. by apply lookup_app_l_Some.
      * intros j e' Hj.
        destruct (decide (j < length pre)) as [Hlt|Hge].
        -- rewrite lookup_app_l in Hj by done. by apply Hall.
        -- assert (j = length pre) as ->.
           { apply lookup_lt_Some in Hj. rewrite length_app in Hj.
             simpl in Hj. lia. }
           rewrite list_lookup_middle in Hj by done.
           injection Hj as <-. split; [done|].
           intros Hlt. destruct Hheld as [[-> _]|(e & He & _)]; [lia|].
           apply lookup_lt_Some in He. lia.
Qed.

(** Run over all the slides from its initial values, the loop ends
    holding [holds_closest] of all of them. *)
Lemma closest_from_all sl :
  ∃ i d,
    V2.closest_from env containerCenter 0 sl (0, Infinity) = (i, d) ∧
    holds_closest env containerCenter sl i d.
Proof.
  apply (closest_from_invariant sl [] 0 Infinity). split; [by left|done].
Qed.

End CurrentIndex.

Section Wheel.

Lemma slide_at_Some s sl j : slides s = Some sl → slide_at s j = sl !! j.
Proof. unfold slide_at. by intros ->. Qed.

(** What [#getCurrentSlideIndex] returns when there are slides. *)
Lemma getCurrentSlideIndex_holds env s sl :
  slides s = Some sl → sl ≠ [] →
  ∃ d, holds_closest env
         (V2.center (getBoundingClientRect env (mediaContainer s)))
         sl (V2.getCurrentSlideIndex env s) d.
Proof.
  intros Hs Hne. unfold V2.getCurrentSlideIndex. rewrite Hs.
  destruct sl as [|x rest]; [done|]. cbn [length Nat.eqb].
  destruct (closest_from_all env
              (V2.center (getBoundingClientRect env (mediaContainer s)))
              (x :: rest)) as (i & d & Heq & Hinv).
  rewrite Heq. by exists d.
Qed.

Lemma getCurrentSlideIndex_bound env s :
  0 < slideCount s → V2.getCurrentSlideIndex env s < slideCount s.
Proof.
  unfold slideCount. destruct (slides s) as [sl|] eqn:Hs; [|lia].
  intros Hn.
  destruct (getCurrentSlideIndex_holds env s sl Hs) as (d & Hheld & _).
  { destruct sl; [simpl in Hn; lia|done]. }
  destruct Hheld as [[-> _]|(e & He & _)]; [done|].
  by eapply lookup_lt_Some.
Qed.

Lemma getCurrentSlideIndex_empty env s :
  slideCount s = 0 → V2.getCurrentSlideIndex env s = 0.
Proof.
  unfold slideCount, V2.getCurrentSlideIndex.
  destruct (slides s) as [[|x rest]|]; simpl; [done|lia|done].
Qed.

(** The distance of the specification is the distance of the loop. *)
Lemma slide_distance_loop env s sl j :
  slides s = Some sl →
  slide_distance env s j
  = loop_distance env
      (V2.center (getBoundingClientRect env (mediaContainer s)))
    <$> sl !! j.
Proof.
  intros Hs. unfold slide_distance. by rewrite (slide_at_Some _ _ _ Hs).
Qed.

(** With at least one slide and distances that are numbers,
    [#getCurrentSlideIndex] returns the slide closest to the centre of the
    container. *)
Lemma getCurrentSlideIndex_closest env s :
  distances_are_numbers env s → 0 < slideCount s →
  closest_slide env s (V2.getCurrentSlideIndex env s).
Proof.
  intros Hnum Hn.
  destruct (slides s) as [sl|] eqn:Hs;
    [|unfold slideCount in Hn; rewrite Hs in Hn; lia].
  rewrite (slideCount_Some _ _ Hs) in Hn.
  destruct (getCurrentSlideIndex_holds env s sl Hs) as (d & Hheld & Hall).
  { destruct sl; [simpl in Hn; lia|done]. }
  unfold distances_are_numbers in Hnum.
  assert (Hle : ∀ j dj, slide_distance env s j = Some dj →
                        f64_lt dj d = false ∧
                        (j < V2.getCurrentSlideIndex env s →
                         f64_le dj d = false)).
  { intros j dj. rewrite (slide_distance_loop _ _ _ _ Hs).
    rewrite fmap_Some. intros (e & He & ->). by apply Hall. }
  destruct Hheld as [[H0 ->]|(e & He & ->)].
  - (* the loop never found a distance below [Infinity] *)
    rewrite H0. destruct sl as [|x rest]; [simpl in Hn; lia|].
    exists (loop_distance env
              (V2.center (getBoundingClientRect env (mediaContainer s))) x).
    split; [by rewrite (slide_distance_loop _ _ _ _ Hs)|].
    assert (Hinf : ∀ j dj, slide_distance env s j = Some dj →
                           dj = Infinity).
    { intros j dj Hj. destruct (Hle j dj Hj) as [Hlt _].
      destruct (f64_lt_Infinity _ Hlt) as [->| ->]; [done|].
      by destruct (Hnum j _ Hj). }
    rewrite (Hinf 0 (loop_distance env _ x))
      by (by rewrite (slide_distance_loop _ _ _ _ Hs)).
    intros j dj Hj. rewrite (Hinf j dj Hj). split; [done|lia].
  - exists (loop_distance env
              (V2.center (getBoundingClientRect env (mediaContainer s))) e).
    split; [by rewrite (slide_distance_loop _ _ _ _ Hs), He|].
    assert (Hd : loop_distance env
                   (V2.center (getBoundingClientRect env (mediaContainer s)))
                   e ≠ S754_nan).
    { apply (Hnum (V2.getCurrentSlideIndex env s)).
      by rewrite (slide_distance_loop _ _ _ _ Hs), He. }
    intros j dj Hj. destruct (Hle j dj Hj) as [Hlt Hbefore].
    pose proof (Hnum j dj Hj) as Hdj. split.
    + by apply f64_lt_false_le.
    + intros Hji. apply f64_le_false_lt; [by apply Hbefore|done..].
Qed.

(** At most one slide is the closest. *)
Lemma closest_slide_unique env s i i' :
  closest_slide env s i → closest_slide env s i' → i = i'.
Proof.
  intros (d & Hd & Hall) (d' & Hd' & Hall').
  destruct (Hall i' d' Hd') as [Hle Hlt].
  destruct (Hall' i d Hd) as [Hle' Hlt'].
  destruct (Nat.lt_trichotomy i i') as [H|[H|H]]; [|done|].
  - destruct (f64_lt_le_absurd _ _ (Hlt' H) Hle).
  - destruct (f64_lt_le_absurd _ _ (Hlt H) Hle').
Qed.

Lemma closest_slide_numbers env s i :
  closest_slide env s i → distances_are_numbers env s ∧ i < slideCount s.
Proof.
  intros (d & Hd & Hall). split.
  - intros j dj Hj. destruct (Hall j dj Hj) as [Hle _].
    by apply f64_le_nan in Hle as [_ Hle].
  - unfold slide_distance, slide_at, slideCount in *.
    destruct (slides s) as [sl|]; [|done]. cbn in Hd.
    apply fmap_Some in Hd as (e & He & _). by eapply lookup_lt_Some.
Qed.

(** What [computed_exactly] gives for a slide. *)
Lemma rounding_free_distance env s j e :
  rounding_free env s → slide_at s j = Some e →
  f64_magnitude (centre_distance env s (el_id e)) = true ∧
  (f64_value (centre_distance env s (el_id e))
   == exact_distance env s (el_id e))%Q.
Proof.
  intros Hfree He. specialize (Hfree j e He). unfold computed_exactly in Hfree.
  apply andb_true_iff in Hfree as [Hfree Heq].
  apply andb_true_iff in Hfree as [_ Hmag].
  split; [done|]. by apply Qeq_bool_iff.
Qed.

(** On a layout on which the arithmetic of doubles is exact, the slide
    [#getCurrentSlideIndex] returns is the closest in exact numbers. *)
Lemma getCurrentSlideIndex_exactly_closest env s :
  rounding_free env s → 0 < slideCount s →
  exactly_closest env s (V2.getCurrentSlideIndex env s).
Proof.
  intros Hfree Hn.
  assert (Hnum : distances_are_numbers env s).
  { intros j dj Hj. unfold slide_distance in Hj.
    apply fmap_Some in Hj as (e & He & ->).
    apply f64_magnitude_nan.
    by destruct (rounding_free_distance env s j e Hfree He). }
  destruct (getCurrentSlideIndex_closest env s Hnum Hn) as (d & Hd & Hall).
  unfold slide_distance in Hd. apply fmap_Some in Hd as (e & He & ->).
  exists e. split; [done|]. intros j e' He'.
  destruct (rounding_free_distance env s _ e Hfree He) as [Hm Hv].
  destruct (rounding_free_distance env s j e' Hfree He') as [Hm' Hv'].
  destruct (Hall j (centre_distance env s (el_id e'))) as [Hle Hlt].
  { unfold slide_distance. by rewrite He'. }
  destruct (f64_compare_value _ _ Hm Hm') as [Hle' Hlt'].
  rewrite <- Hv, <- Hv'. split; [by apply Hle'|].
  intros Hj. by apply Hlt', Hlt.
Qed.

(** The default scroll is prevented exactly when reduced motion is not
    preferred. *)
Lemma handleWheel_prevented env deltaY s :
  (V2.handleWheel env deltaY s).1 = negb (prefersReducedMotion env).
Proof.
  unfold V2.handleWheel.
  destruct (prefersReducedMotion env); [done|].
  destruct (isScrolling s); [done|].
  destruct (slides s) as [sl|]; [|done].
  destruct (length sl <=? 1); [done|].
  by destruct (_ =? _)%Z.
Qed.

(** C5. On a wheel event in the second variant: with reduced motion
    preferred nothing happens and the default scroll stays; otherwise the
    default is prevented and, when no programmatic scroll is in flight,
    the current index is the slide whose vertical centre is closest to the
    container's, the next index is the current one plus 1 for a positive
    [deltaY] and minus 1 otherwise, clamped to [0, slideCount - 1], and
    [selectSlide] is called exactly when the clamped index differs from
    the current one.  Centres and distances are the doubles that the
    arithmetic of the code gives; when the distances are numbers there is
    such a slide, it is the one [currentIndex] returns, and no other slide
    is; and on a layout on which that arithmetic is exact it is the slide
    closest in exact numbers.  With slide 2 of 5 current, a positive
    [deltaY] moves the selection to slide 3; and among slides of unequal
    heights the current one is the one whose centre is nearest, not the
    one whose top is. *)
Theorem handleWheel_snaps :
  (∀ (env : Env) (deltaY : Q) (s : State),
     wheel_rule env deltaY s (V2.handleWheel env deltaY s).1
       (V2.handleWheel env deltaY s).2 ∧
     (distances_are_numbers env s → 0 < slideCount s →
      closest_slide env s (V2.currentIndex env s)) ∧
     (rounding_free env s → 0 < slideCount s →
      exactly_closest env s (V2.currentIndex env s))) ∧
  (V2.currentIndex (centred_env 12) (attached2 5) = 2 ∧
   visible_slides (V2.handleWheel (centred_env 12) 1 (attached2 5)).2 = [3] ∧
   V2.handleWheel reduced_motion_env 1 (attached2 5) = (false, attached2 5)) ∧
  (V2.currentIndex uneven_env (attached2 2) = 1 ∧
   visible_slides (V2.handleWheel uneven_env (-1) (attached2 2)).2 = [0]).
Proof.
  split; [|split; by vm_compute].
  intros env deltaY s.
  split; [|split; [apply getCurrentSlideIndex_closest
                  |apply getCurrentSlideIndex_exactly_closest]].
  unfold wheel_rule. rewrite handleWheel_prevented.
  destruct (prefersReducedMotion env) eqn:Hr.
  { unfold V2.handleWheel. by rewrite Hr. }
  split; [done|]. split.
  { intros Hsc. unfold V2.handleWheel. by rewrite Hr, Hsc. }
  intros Hsc. unfold V2.handleWheel. rewrite Hr, Hsc. split.
  - intros H0. unfold slideCount in H0.
    destruct (slides s) as [sl|]; [|done]. by rewrite H0.
  - intros current Hcur.
    destruct (closest_slide_numbers env s current Hcur) as [Hnum Hlt].
    assert (Hidx : current = V2.getCurrentSlideIndex env s).
    { apply (closest_slide_unique env s); [done|].
      apply getCurrentSlideIndex_closest; [done|lia]. }
    destruct (slides s) as [sl|] eqn:Hs;
      [|unfold slideCount in Hlt; rewrite Hs in Hlt; lia].
    rewrite (slideCount_Some _ _ Hs) in *. cbv zeta. unfold wheel_step.
    rewrite <- Hidx.
    destruct (Nat.leb_spec (length sl) 1) as [Hle|Hgt]; cbn [snd].
    + assert (current = 0) as -> by lia.
      destruct (Qlt_bool 0 deltaY);
        match goal with
        | |- context [ (?a =? ?b)%Z ] =>
            destruct (Z.eqb_spec a b); [done|lia]
        end.
    + destruct (Qlt_bool 0 deltaY);
        [|change (Z.of_nat current - 1)%Z with (Z.of_nat current + -1)%Z];
        match goal with
        | |- context [ (?a =? ?b)%Z ] => by destruct (Z.eqb_spec a b)
        end.
Qed.

Lemma handleWheel_snaps_witness :
  (distances_are_numbers uneven_env (attached2 2) ∧
   rounding_free uneven_env (attached2 2) ∧
   0 < slideCount (attached2 2)) ∧
  closest_slide uneven_env (attached2 2)
    (V2.currentIndex uneven_env (attached2 2)) ∧
  exactly_closest uneven_env (attached2 2)
    (V2.currentIndex uneven_env (attached2 2)).
Proof.
  assert (H1 : distances_are_numbers uneven_env (attached2 2)).
  { intros [|[|j]] dj Hj; vm_compute in Hj; [by injection Hj as <-..|done]. }
  assert (H2 : rounding_free uneven_env (attached2 2)).
  { intros [|[|j]] e He; vm_compute in He;
      [injection He as <-; by vm_compute..|done]. }
  assert (H3 : 0 < slideCount (attached2 2)) by (vm_compute; lia).
  split; [by repeat split|].
  pose proof (proj1 handleWheel_snaps uneven_env 1%Q (attached2 2))
    as (_ & Hclosest & Hexact).
  split; [exact (Hclosest H1 H3)|exact (Hexact H2 H3)].
Defined.

(** Where two exact distances differ by less than doubles tell apart, the
    distances the loop compares are equal and the first slide is current,
    as on a tie. *)
Example near_tie_goes_to_first :
  slide_distance near_tie_env (attached2 2) 0
  = slide_distance near_tie_env (attached2 2) 1 ∧
  V2.currentIndex near_tie_env (attached2 2) = 0 ∧
  (exact_distance near_tie_env (attached2 2) 11
   < exact_distance near_tie_env (attached2 2) 10)%Q.
Proof. by vm_compute. Qed.

(** What [next] and [previous] rely on: in the second variant a position
    below [slideCount] is accepted and shown. *)
Lemma V2_selection_result i o s :
  i < slideCount s →
  selection_result i s (V2.selectSlide (num_of_nat i) o s).
Proof.
  intros Hi. destruct (valid_index_slide s i Hi) as (sl & t & Hs & Ht).
  rewrite (V2_select_accept _ _ o _ _ _ Hs (js_array_index_nat i) Ht).
  by apply selection_result_selected_state.
Qed.

(** C7. In the second variant [next()] does nothing when the current index
    is the last slide and otherwise selects the current index plus 1;
    [previous()] does nothing when the current index is 0 and otherwise
    selects the current index minus 1; away from the boundaries the slide
    shown afterwards is the one next to the current one. *)
Theorem next_previous_one_step (env : Env) (s : State) :
  let current := V2.currentIndex env s in
  (Z.of_nat current = (Z.of_nat (slideCount s) - 1)%Z → V2.next env s = s) ∧
  (Z.of_nat current ≠ (Z.of_nat (slideCount s) - 1)%Z →
   V2.next env s
   = V2.selectSlide (num_of_nat (current + 1)) default_options s) ∧
  (current = 0 → V2.previous env s = s) ∧
  (current ≠ 0 →
   V2.previous env s
   = V2.selectSlide (num_of_nat (current - 1)) default_options s) ∧
  (current + 1 < slideCount s →
   selection_result (current + 1) s (V2.next env s)) ∧
  (0 < current → selection_result (current - 1) s (V2.previous env s)).
Proof.
  intros current.
  assert (Hnext : Z.of_nat current ≠ (Z.of_nat (slideCount s) - 1)%Z →
            V2.next env s
            = V2.selectSlide (num_of_nat (current + 1)) default_options s).
  { intros Hne. unfold V2.next. fold current.
    replace (num_of_Z (Z.of_nat current + 1)) with (num_of_nat (current + 1))
      by (unfold num_of_nat; f_equal; lia).
    destruct (Z.ltb_spec (Z.of_nat current) (Z.of_nat (slideCount s) - 1))
      as [Hlt|Hge]; [done|].
    assert (Hb : slideCount s = 0 ∨ current < slideCount s).
    { destruct (slideCount s) eqn:E; [by left|right].
      rewrite <- E. apply getCurrentSlideIndex_bound. lia. }
    destruct (V2_select_cases (num_of_nat (current + 1)) default_options s)
      as [->|(k & t & sl & Hs & Hk & Ht & _)]; [done|].
    rewrite js_array_index_nat in Hk. injection Hk as <-.
    apply lookup_lt_Some in Ht. rewrite (slideCount_Some _ _ Hs) in *. lia. }
  assert (Hprev : current ≠ 0 →
            V2.previous env s
            = V2.selectSlide (num_of_nat (current - 1)) default_options s).
  { intros Hne. unfold V2.previous. fold current.
    replace (num_of_Z (Z.of_nat current - 1)) with (num_of_nat (current - 1))
      by (unfold num_of_nat; f_equal; lia).
    destruct (Z.ltb_spec 0 (Z.of_nat current)); [done|lia]. }
  assert (Hbound : 0 < slideCount s → current < slideCount s)
    by apply getCurrentSlideIndex_bound.
  split; [|split; [exact Hnext|split; [|split; [exact Hprev|split]]]].
  - intros Heq. unfold V2.next. fold current. rewrite Heq.
    by rewrite Z.ltb_irrefl.
  - intros Heq. unfold V2.previous. fold current. by rewrite Heq.
  - intros Hlt. rewrite Hnext by lia.
    by apply V2_selection_result.
  - intros Hpos. rewrite Hprev by lia.
    apply V2_selection_result.
    destruct (slideCount s) eqn:E; [|lia].
    pose proof (getCurrentSlideIndex_empty env s E) as H0.
    unfold current, V2.currentIndex in Hpos. lia.
Qed.

Lemma next_previous_one_step_witness :
  (* slide 2 of 5 is current: neither boundary *)
  (Z.of_nat (V2.currentIndex (centred_env 12) (attached2 5))
   ≠ (Z.of_nat (slideCount (attached2 5)) - 1)%Z ∧
   V2.currentIndex (centred_env 12) (attached2 5) ≠ 0 ∧
   V2.currentIndex (centred_env 12) (attached2 5) + 1
   < slideCount (attached2 5) ∧
   0 < V2.currentIndex (centred_env 12) (attached2 5) ∧
   V2.next (centred_env 12) (attached2 5)
   = V2.selectSlide
       (num_of_nat (V2.currentIndex (centred_env 12) (attached2 5) + 1))
       default_options (attached2 5) ∧
   V2.previous (centred_env 12) (attached2 5)
   = V2.selectSlide
       (num_of_nat (V2.currentIndex (centred_env 12) (attached2 5) - 1))
       default_options (attached2 5) ∧
   selection_result (V2.currentIndex (centred_env 12) (attached2 5) + 1)
     (attached2 5) (V2.next (centred_env 12) (attached2 5)) ∧
   selection_result (V2.currentIndex (centred_env 12) (attached2 5) - 1)
     (attached2 5) (V2.previous (centred_env 12) (attached2 5))) ∧
  (* the last slide is current *)
  (Z.of_nat (V2.currentIndex (centred_env 14) (attached2 5))
   = (Z.of_nat (slideCount (attached2 5)) - 1)%Z ∧
   V2.next (centred_env 14) (attached2 5) = attached2 5) ∧
  (* the first slide is current *)
  (V2.currentIndex (centred_env 10) (attached2 5) = 0 ∧
   V2.previous (centred_env 10) (attached2 5) = attached2 5).
Proof.
  pose proof (next_previous_one_step (centred_env 12) (attached2 5))
    as (_ & Hnext & _ & Hprev & Hn & Hp).
  pose proof (next_previous_one_step (centred_env 14) (attached2 5))
    as (Hlast & _).
  pose proof (next_previous_one_step (centred_env 10) (attached2 5))
    as (_ & _ & Hfirst & _).
  assert (H1 : Z.of_nat (V2.currentIndex (centred_env 12) (attached2 5))
               ≠ (Z.of_nat (slideCount (attached2 5)) - 1)%Z)
    by (vm_compute; discriminate).
  assert (H2 : V2.currentIndex (centred_env 12) (attached2 5) ≠ 0)
    by (vm_compute; discriminate).
  assert (H3 : V2.currentIndex (centred_env 12) (attached2 5) + 1
               < slideCount (attached2 5)) by (vm_compute; lia).
  assert (H4 : 0 < V2.currentIndex (centred_env 12) (attached2 5))
    by (vm_compute; lia).
  assert (H5 : Z.of_nat (V2.currentIndex (centred_env 14) (attached2 5))
               = (Z.of_nat (slideCount (attached2 5)) - 1)%Z)
    by (by vm_compute).
  assert (H6 : V2.currentIndex (centred_env 10) (attached2 5) = 0)
    by (by vm_compute).
  split; [|split].
  - split; [exact H1|]. split; [exact H2|]. split; [exact H3|].
    split; [exact H4|]. split; [exact (Hnext H1)|].
    split; [exact (Hprev H2)|]. split; [exact (Hn H3)|exact (Hp H4)].
  - split; [exact H5|exact (Hlast H5)].
  - split; [exact H6|exact (Hfirst H6)].
Defined.

End Wheel.

(** ** One slide visible, one thumbnail selected *)

Section Sync.

Lemma positions_from_none k p l :
  (∀ e, e ∈ l → p e = false) → positions_from k p l = [].
Proof.
  revert k. induction l as [|e l IH]; intros k H; [done|].
  cbn [positions_from]. rewrite (H e) by apply list_elem_of_here.
  apply IH. intros e' He'. apply H. by apply list_elem_of_further.
Qed.

Lemma positions_from_single k p l i :
  i < length l →
  (∀ j e, l !! j = Some e → p e = Nat.eqb j i) →
  positions_from k p l = [k + i].
Proof.
  revert k i. induction l as [|e l IH]; intros k i Hi H; [simpl in Hi; lia|].
  cbn [positions_from]. rewrite (H 0 e eq_refl).
  destruct i as [|i]; cbn [Nat.eqb].
  - rewrite Nat.add_0_r. f_equal. apply positions_from_none.
    intros e' He'. apply list_elem_of_lookup in He' as [j Hj].
    by rewrite (H (S j) e' Hj).
  - rewrite (IH (S k) i); [f_equal; lia|simpl in Hi; lia|].
    intros j e' Hj. by rewrite (H (S j) e' Hj).
Qed.

Lemma positions_from_insert k p l i x y :
  l !! i = Some x → p y = p x →
  positions_from k p (<[i := y]> l) = positions_from k p l.
Proof.
  revert k i. induction l as [|e l IH]; intros k i Hx Hp; [done|].
  destruct i as [|i].
  - injection Hx as ->.
    change (<[0:=y]> (x :: l)) with (y :: l).
    cbn [positions_from]. by rewrite Hp.
  - change (<[S i:=y]> (e :: l)) with (e :: <[i:=y]> l).
    cbn [positions_from]. by rewrite (IH (S k) i Hx Hp).
Qed.

Lemma is_visible_shows i s j e :
  shows i s → slide_at s j = Some e → is_visible e = Nat.eqb j i.
Proof.
  intros [H _] He. unfold is_visible. rewrite (H j e He).
  by destruct (Nat.eqb j i).
Qed.

Lemma is_selected_shows i s j b :
  shows i s → button_at s j = Some b → is_selected b = Nat.eqb j i.
Proof.
  intros [_ H] Hb. unfold is_selected. rewrite (H j b Hb).
  by destruct (Nat.eqb j i).
Qed.

(** A state that shows position [i], which is the position of a slide with
    its thumbnail, is in sync. *)
Lemma shows_synced_at i s :
  shows i s → paired s → i < slideCount s → synced_at i s.
Proof.
  intros Hshow Hp Hi.
  destruct Hp as (sl & bs & Hs & Hb & Hlen).
  rewrite (slideCount_Some _ _ Hs) in Hi.
  unfold synced_at, visible_slides, selected_thumbnails.
  rewrite Hs, Hb. cbn [default from_option id]. split.
  - apply (positions_from_single 0); [done|].
    intros j e He. apply (is_visible_shows i s); [done|].
    unfold slide_at. by rewrite Hs.
  - apply (positions_from_single 0); [lia|].
    intros j b Hj. apply (is_selected_shows i s); [done|].
    unfold button_at. by rewrite Hb.
Qed.

Lemma shows_synced i s :
  shows i s → paired s → i < slideCount s → synced s.
Proof.
  intros Hshow Hp Hi. split; [done|]. exists i.
  by apply shows_synced_at.
Qed.

Lemma paired_selected_state a index k o t sl s :
  slides s = Some sl → paired s →
  paired (selected_state a index k o t sl s).
Proof.
  intros Hs (sl' & bs & Hs' & Hb & Hlen).
  rewrite Hs in Hs'. injection Hs' as <-.
  exists (<[k:=forEach_selected sel_lazy promote (mark_hidden k k t)]>
            (imap (mark_hidden k) sl)), (imap (mark_selected k) bs).
  split; [done|].
  split; [unfold selected_state; cbn [thumbnailButtons]; by rewrite Hb|].
  by rewrite length_insert, !length_imap.
Qed.

Lemma synced_selected_state a index k o t sl s :
  slides s = Some sl → sl !! k = Some t → paired s →
  synced (selected_state a index k o t sl s).
Proof.
  intros Hs Ht Hp. apply (shows_synced k).
  - by apply shows_selected_state.
  - by apply paired_selected_state.
  - destruct (selected_state_lengths a index k o t sl s) as [-> _].
    by eapply lookup_lt_Some.
Qed.

Lemma synced_at_selected_state a index k o t sl s :
  slides s = Some sl → sl !! k = Some t → paired s →
  synced_at k (selected_state a index k o t sl s).
Proof.
  intros Hs Ht Hp. apply shows_synced_at.
  - by apply shows_selected_state.
  - by apply paired_selected_state.
  - destruct (selected_state_lengths a index k o t sl s) as [-> _].
    by eapply lookup_lt_Some.
Qed.

(** Both variants: [selectSlide] keeps a synced state synced, and brings a
    paired state into sync when it accepts the index. *)
Lemma synced_V1_selectSlide env index o s :
  synced s → synced (V1.selectSlide env index o s).
Proof.
  intros Hsync.
  destruct (V1_select_cases env index o s)
    as [->|(k & t & sl & Hs & _ & Ht & ->)]; [done|].
  apply synced_selected_state; try done. apply Hsync.
Qed.

Lemma synced_V2_selectSlide index o s :
  synced s → synced (V2.selectSlide index o s).
Proof.
  intros Hsync.
  destruct (V2_select_cases index o s)
    as [->|(k & t & sl & Hs & _ & Ht & ->)]; [done|].
  apply synced_selected_state; try done. apply Hsync.
Qed.

(** Operations that leave the slide and thumbnail lists alone. *)
Lemma synced_frame s s' :
  slides s' = slides s → thumbnailButtons s' = thumbnailButtons s →
  synced s → synced s'.
Proof.
  unfold synced, paired, in_sync, visible_slides, selected_thumbnails.
  by intros -> ->.
Qed.

Lemma is_visible_forEach_selected sel f e :
  is_visible (forEach_selected sel f e) = is_visible e.
Proof.
  unfold is_visible, aria_hidden, getAttribute.
  by rewrite forEach_selected_attrs.
Qed.

Lemma loadSlideContent_lists index s :
  thumbnailButtons (loadSlideContent index s) = thumbnailButtons s ∧
  (slides (loadSlideContent index s) = slides s ∨
   ∃ sl k slide,
     slides s = Some sl ∧ sl !! k = Some slide ∧
     slides (loadSlideContent index s)
     = Some (<[k := forEach_selected sel_lazy promote slide]> sl)).
Proof.
  unfold loadSlideContent.
  destruct (slides s) as [sl|] eqn:Hs; [|by split; [|left]].
  destruct (js_array_index index) as [k|]; [|by split; [|left]].
  destruct (sl !! k) as [slide|] eqn:Hk; [|by split; [|left]].
  split; [done|]. right. by exists sl, k, slide.
Qed.

Lemma synced_loadSlideContent index s :
  synced s → synced (loadSlideContent index s).
Proof.
  destruct (loadSlideContent_lists index s)
    as [Hb [Hs|(sl & k & slide & Hs & Hk & Hs')]].
  - by apply synced_frame.
  - unfold synced, paired, in_sync, visible_slides, selected_thumbnails.
    rewrite Hb, Hs', Hs. cbn [default from_option id].
    rewrite (positions_from_insert _ _ _ _ slide)
      by (done || apply is_visible_forEach_selected).
    intros [(sl' & bs & [= <-] & Hbs & Hlen) Hin]. split; [|done].
    exists (<[k:=forEach_selected sel_lazy promote slide]> sl), bs.
    by rewrite length_insert.
Qed.

Lemma synced_fire_timer id s : synced s → synced (fire_timer id s).
Proof.
  unfold fire_timer. destruct (existsb _ _); [|done].
  by apply synced_frame.
Qed.

End Sync.

(** ** Attaching *)

Section Attach.

Lemma addEventListener_lists on type cb s :
  slides (addEventListener on type cb s) = slides s ∧
  thumbnailButtons (addEventListener on type cb s) = thumbnailButtons s.
Proof. unfold addEventListener. by destruct (existsb _ _). Qed.

Lemma forEach_from_lists {A : Type} (f : A → nat → State → State) :
  (∀ x k s, slides (f x k s) = slides s ∧
            thumbnailButtons (f x k s) = thumbnailButtons s) →
  ∀ arr k s, slides (forEach_from k f arr s) = slides s ∧
             thumbnailButtons (forEach_from k f arr s) = thumbnailButtons s.
Proof.
  intros Hf arr. induction arr as [|x arr IH]; intros k s; [done|].
  cbn [forEach_from]. destruct (IH (S k) (f x k s)) as [-> ->]. apply Hf.
Qed.

Lemma V1_add_handlers_lists button index s :
  slides (V1.add_handlers button index s) = slides s ∧
  thumbnailButtons (V1.add_handlers button index s) = thumbnailButtons s.
Proof.
  unfold V1.add_handlers, new_closure.
  by rewrite !(proj1 (addEventListener_lists _ _ _ _)),
             !(proj2 (addEventListener_lists _ _ _ _)).
Qed.

Lemma V2_add_handlers_lists button index s :
  slides (V2.add_handlers button index s) = slides s ∧
  thumbnailButtons (V2.add_handlers button index s) = thumbnailButtons s.
Proof.
  unfold V2.add_handlers, new_closure.
  rewrite !(proj1 (addEventListener_lists _ _ _ _)),
          !(proj2 (addEventListener_lists _ _ _ _)).
  cbn [slides thumbnailButtons set_nextClosure].
  by rewrite !(proj1 (addEventListener_lists _ _ _ _)),
             !(proj2 (addEventListener_lists _ _ _ _)).
Qed.

Lemma V1_addThumbnailHandlers_lists s :
  slides (V1.addThumbnailHandlers s) = slides s ∧
  thumbnailButtons (V1.addThumbnailHandlers s) = thumbnailButtons s.
Proof.
  unfold V1.addThumbnailHandlers, forEach.
  destruct (thumbnailButtons s) as [bs|] eqn:Hb; [|done].
  rewrite <- Hb. apply forEach_from_lists, V1_add_handlers_lists.
Qed.

Lemma V2_addThumbnailHandlers_lists s :
  slides (V2.addThumbnailHandlers s) = slides s ∧
  thumbnailButtons (V2.addThumbnailHandlers s) = thumbnailButtons s.
Proof.
  unfold V2.addThumbnailHandlers, forEach.
  destruct (thumbnailButtons s) as [bs|] eqn:Hb; [|done].
  rewrite <- Hb. apply forEach_from_lists, V2_add_handlers_lists.
Qed.

Lemma is_visible_init_slide j e : is_visible (init_slide j e) = Nat.eqb j 0.
Proof.
  unfold is_visible, aria_hidden, getAttribute, init_slide.
  destruct (Nat.eqb j 0); cbn [setAttribute el_attrs];
    by rewrite lookup_insert_eq.
Qed.

Lemma aria_selected_init_thumbnail env sl fresh j b :
  aria_selected (init_thumbnail env sl fresh j b) = aria_selected b.
Proof.
  unfold init_thumbnail.
  destruct (sl !! j) as [slide|]; [|done].
  destruct (querySelector sel_data_thumbnail slide); [done|].
  by destruct (querySelector sel_img slide).
Qed.

Lemma attached_lists env children container s s' :
  children ≠ [] →
  slides s' = Some (imap init_slide children) →
  thumbnailButtons s'
  = Some (imap (init_thumbnail env (imap init_slide children) (nextNode s))
               (querySelectorAll sel_thumbnail container)) →
  attach_result container s'.
Proof.
  intros Hne Hs Hb. unfold attach_result, visible_slides.
  rewrite Hs, Hb. cbn [default from_option id fmap option_fmap option_map].
  split.
  - apply (positions_from_single 0).
    + rewrite length_imap. destruct children; [done|simpl; lia].
    + intros j e. rewrite list_lookup_imap, fmap_Some.
      intros (e0 & _ & ->). apply is_visible_init_slide.
  - f_equal. apply list_eq. intros j.
    rewrite !list_lookup_fmap, list_lookup_imap.
    destruct (querySelectorAll sel_thumbnail container !! j); [|done].
    cbn [fmap option_fmap option_map]. f_equal.
    apply aria_selected_init_thumbnail.
Qed.

Lemma V1_attach_result env children container s :
  children ≠ [] →
  attach_result container
    (V1.connectedCallback env children (Some container) s).
Proof.
  intros Hne. unfold V1.connectedCallback.
  apply (attached_lists env children container s); [done| |].
  - rewrite (proj1 (V1_addThumbnailHandlers_lists _)),
            (proj1 (addEventListener_lists _ _ _ _)).
    by destruct children.
  - rewrite (proj2 (V1_addThumbnailHandlers_lists _)),
            (proj2 (addEventListener_lists _ _ _ _)).
    by destruct children.
Qed.

Lemma V2_attach_result env children container s :
  children ≠ [] →
  attach_result container
    (V2.connectedCallback env children (Some container) s).
Proof.
  intros Hne. unfold V2.connectedCallback.
  apply (attached_lists env children container s); [done| |].
  - by rewrite (proj1 (V2_addThumbnailHandlers_lists _)),
               !(proj1 (addEventListener_lists _ _ _ _)).
  - by rewrite (proj2 (V2_addThumbnailHandlers_lists _)),
               !(proj2 (addEventListener_lists _ _ _ _)).
Qed.

End Attach.

(** ** The invariant along the actions *)

Section Invariant.

Lemma fold_most_visible_elem es acc :
  let r := fold_left
             (fun prev current =>
                if Qlt_bool (intersectionRatio prev)
                            (intersectionRatio current)
                then current else prev) es acc in
  r = acc ∨ r ∈ es.
Proof.
  revert acc. induction es as [|x es IH]; intros acc; [by left|].
  cbn [fold_left].
  destruct (IH (if Qlt_bool (intersectionRatio acc) (intersectionRatio x)
                then x else acc)) as [Heq|Hin].
  - cbv zeta. rewrite Heq.
    destruct (Qlt_bool _ _); [right; apply list_elem_of_here|by left].
  - right. by apply list_elem_of_further.
Qed.

Lemma most_visible_elem entries e :
  most_visible entries = Some e → e ∈ entries.
Proof.
  destruct entries as [|e0 es]; [done|]. cbn [most_visible]. intros [= <-].
  destruct (fold_most_visible_elem es e0) as [->|Hin].
  - apply list_elem_of_here.
  - by apply list_elem_of_further.
Qed.

Lemma indexOf_from_elem ids x b :
  x ∈ ids →
  ∃ k, indexOf_from b ids x = Z.of_nat (b + k) ∧ k < length ids.
Proof.
  revert b. induction ids as [|y ids IH]; intros b Hin.
  - by apply not_elem_of_nil in Hin.
  - cbn [indexOf_from]. destruct (Nat.eqb_spec y x) as [->|Hne].
    + exists 0. split; [f_equal; lia|simpl; lia].
    + apply elem_of_cons in Hin as [->|Hin]; [done|].
      destruct (IH (S b) Hin) as (k & -> & Hk).
      exists (S k). split; [f_equal; lia|simpl; lia].
Qed.

(** A delivery names a slide the component holds: the recomputation shows
    that slide, in sync. *)
Lemma synced_handleScroll_resume captured entries s :
  synced s → delivery_ok (ObserverDelivers captured entries) s →
  synced (handleScroll_resume captured entries s).
Proof.
  intros Hsync [Hcap Hin]. unfold handleScroll_resume.
  destruct (most_visible entries) as [e|] eqn:He; [|done].
  apply most_visible_elem, Hin in He.
  destruct Hsync as [(sl & bs & Hs & Hb & Hlen) _].
  rewrite Hs in Hcap. injection Hcap as ->.
  destruct (indexOf_from_elem _ _ 0 He) as (k & Hk & Hlt).
  rewrite length_map in Hlt.
  unfold indexOf. rewrite Hk. fold (num_of_nat (0 + k)). cbn [Nat.add].
  rewrite (updateActiveThumbnail_at _ k _ (fun j => js_eq_index_nat j k)), Hb.
  rewrite (updateSlideVisibility_at _ k _ (fun j => js_eq_index_nat j k)).
  cbn [slides set_thumbnailButtons]. rewrite Hs.
  apply (shows_synced k).
  - split.
    + intros j e0. unfold slide_at. cbn [slides set_slides mbind option_bind].
      rewrite list_lookup_imap, fmap_Some. intros (e1 & _ & ->).
      unfold aria_hidden, getAttribute, mark_hidden.
      cbn [setAttribute el_attrs]. rewrite lookup_insert_eq.
      by destruct (Nat.eqb j k).
    + intros j b0. unfold button_at.
      cbn [thumbnailButtons set_slides set_thumbnailButtons mbind option_bind].
      rewrite list_lookup_imap, fmap_Some. intros (b1 & _ & ->).
      unfold aria_selected, getAttribute, mark_selected.
      cbn [setAttribute el_attrs]. rewrite lookup_insert_eq.
      by destruct (Nat.eqb j k).
  - exists (imap (mark_hidden k) sl), (imap (mark_selected k) bs).
    split; [done|]. split; [done|]. by rewrite !length_imap.
  - unfold slideCount. cbn [slides set_slides]. by rewrite length_imap.
Qed.

Lemma synced_V1_dispatch env on type s :
  synced s → synced (V1Run.dispatch env on type s).
Proof.
  unfold V1Run.dispatch. generalize (listeners_for on type s).
  intros ls. revert s. induction ls as [|l ls IH]; intros s Hs; [done|].
  cbn [foldl]. apply IH. unfold V1Run.run_handler.
  destruct (fn_body (l_callback l)); try done.
  - by apply synced_V1_selectSlide.
  - by apply synced_loadSlideContent.
Qed.

Lemma synced_V2_dispatch on type s :
  synced s → synced (V2Run.dispatch on type s).
Proof.
  unfold V2Run.dispatch. generalize (listeners_for on type s).
  intros ls. revert s. induction ls as [|l ls IH]; intros s Hs; [done|].
  cbn [foldl]. apply IH. unfold V2Run.run_handler.
  destruct (fn_body (l_callback l)); try done.
  - by apply synced_V2_selectSlide.
  - by apply synced_loadSlideContent.
Qed.

Lemma synced_V1_run env a s :
  synced s → delivery_ok a s → synced (V1Run.run env a s).
Proof.
  intros Hs Hok. destruct a; cbn [V1Run.run].
  - by apply synced_V1_selectSlide.
  - by apply synced_V1_dispatch.
  - by apply synced_V1_dispatch.
  - by apply synced_fire_timer.
  - by apply synced_handleScroll_resume.
Qed.

Lemma synced_V2_handleWheel env deltaY s :
  synced s → synced (V2.handleWheel env deltaY s).2.
Proof.
  intros Hs. unfold V2.handleWheel.
  destruct (prefersReducedMotion env); [done|].
  destruct (isScrolling s); [done|].
  destruct (slides s); [|done].
  destruct (_ <=? 1); [done|].
  destruct (_ =? _)%Z; [done|].
  by apply synced_V2_selectSlide.
Qed.

Lemma synced_V2_run env a s :
  synced s → admissible a s → synced (V2Run.run env a s).
Proof.
  intros Hs Hok. destruct a as [e|deltaY| |]; cbn [V2Run.run].
  - destruct e.
    + by apply synced_V2_selectSlide.
    + by apply synced_V2_dispatch.
    + by apply synced_V2_dispatch.
    + by apply synced_fire_timer.
    + by apply synced_handleScroll_resume.
  - destruct (existsb _ _); [|done]. by apply synced_V2_handleWheel.
  - unfold V2.next. destruct (_ <? _)%Z; [|done].
    by apply synced_V2_selectSlide.
  - unfold V2.previous. destruct (_ <? _)%Z; [|done].
    by apply synced_V2_selectSlide.
Qed.

(** C2, as the code has it. Attaching to a document with at least one
    slide leaves slide 0 alone with [aria-hidden="false"] and leaves the
    [aria-selected] of every thumbnail button as the document had it. When
    every slide has its thumbnail button, a [selectSlide(i)] with a valid
    [i] leaves exactly one slide with [aria-hidden="false"] and exactly one
    thumbnail with [aria-selected="true"], both at [i]; and once that is
    so, every further action keeps exactly one of each at one common
    position: calls of [selectSlide] with any index, clicks and hovers,
    timers running out, deliveries of the scroll observer, wheel events,
    [next] and [previous]. *)
Theorem sync_from_first_selection :
  (∀ (env : Env) (children : list Element) (container : Element)
     (s : State),
     children ≠ [] →
     attach_result container
       (V1.connectedCallback env children (Some container) s) ∧
     attach_result container
       (V2.connectedCallback env children (Some container) s)) ∧
  (∀ (env : Env) (i : nat) (o : Options) (s : State),
     paired s → i < slideCount s →
     synced_at i (V1.selectSlide env (num_of_nat i) o s) ∧
     synced_at i (V2.selectSlide (num_of_nat i) o s)) ∧
  (∀ (env : Env) (s : State),
     synced s →
     (∀ a, delivery_ok a s → synced (V1Run.run env a s)) ∧
     (∀ a, admissible a s → synced (V2Run.run env a s))).
Proof.
  split; [|split].
  - intros env children container s Hne. split.
    + by apply V1_attach_result.
    + by apply V2_attach_result.
  - intros env i o s Hp Hi.
    destruct (valid_index_slide s i Hi) as (sl & t & Hs & Ht).
    pose proof (js_array_index_nat i) as Hk.
    rewrite (V1_select_accept env _ _ o _ _ _ Hs Hk Ht).
    rewrite (V2_select_accept _ _ o _ _ _ Hs Hk Ht).
    split; by apply synced_at_selected_state.
  - intros env s Hs. split; intros a Ha.
    + by apply synced_V1_run.
    + by apply synced_V2_run.
Qed.

Lemma sync_from_first_selection_witness :
  (* attach *)
  (sample_slides 10 5 ≠ [] ∧
   attach_result (sample_thumbnails 50 5) (attached2 5)) ∧
  (* first selection *)
  (paired (attached2 5) ∧ 3 < slideCount (attached2 5) ∧
   synced_at 3
     (V2.selectSlide (num_of_nat 3) default_options (attached2 5))) ∧
  (* kept by a later observer delivery and by a later wheel event *)
  (let s := V2.selectSlide (num_of_nat 3) default_options (attached2 5) in
   synced s ∧
   delivery_ok (ObserverDelivers [10; 11; 12; 13; 14] [mkEntry 11 1]) s ∧
   synced (V1Run.run sample_env
             (ObserverDelivers [10; 11; 12; 13; 14] [mkEntry 11 1]) s) ∧
   admissible (V2Run.Wheel 1) s ∧
   synced (V2Run.run sample_env (V2Run.Wheel 1) s)).
Proof.
  destruct sync_from_first_selection as (Hattach & Hfirst & Hkept).
  assert (Hne : sample_slides 10 5 ≠ []) by (vm_compute; discriminate).
  assert (Hp : paired (attached2 5)).
  { exists (default [] (slides (attached2 5))),
           (default [] (thumbnailButtons (attached2 5))).
    split; [by vm_compute|]. split; [by vm_compute|]. vm_compute. lia. }
  assert (Hi : 3 < slideCount (attached2 5)) by (vm_compute; lia).
  pose proof (proj2 (Hfirst sample_env 3 default_options (attached2 5) Hp Hi))
    as Hat.
  set (s := V2.selectSlide (num_of_nat 3) default_options (attached2 5)) in *.
  assert (Hs : synced s).
  { split; [|by exists 3].
    exists (default [] (slides s)), (default [] (thumbnailButtons s)).
    split; [by vm_compute|]. split; [by vm_compute|]. vm_compute. lia. }
  assert (Hok : delivery_ok
                  (ObserverDelivers [10; 11; 12; 13; 14] [mkEntry 11 1]) s).
  { split; [by vm_compute|]. intros e He.
    apply list_elem_of_singleton in He as ->.
    cbn [entry_target]. apply list_elem_of_further, list_elem_of_here. }
  assert (Hw : admissible (V2Run.Wheel 1) s) by exact I.
  split; [|split].
  - split; [exact Hne|].
    exact (proj2 (Hattach sample_env (sample_slides 10 5)
                    (sample_thumbnails 50 5) (new_component 1 100) Hne)).
  - split; [exact Hp|]. split; [exact Hi|]. exact Hat.
  - cbv zeta. split; [exact Hs|]. split; [exact Hok|].
    split; [exact (proj1 (Hkept sample_env s Hs) _ Hok)|].
    split; [exact Hw|]. exact (proj2 (Hkept sample_env s Hs) _ Hw).
Defined.

(** C2, as worded, fails right after attach: the thumbnail buttons of the
    sample document carry no [aria-selected], none is written, and no
    thumbnail is selected. *)
Lemma attach_selects_no_thumbnail :
  ¬ in_sync (attached1 2) ∧ ¬ in_sync (attached2 2).
Proof.
  split; intros (i & _ & H); vm_compute in H; discriminate.
Qed.

End Invariant.

(** ** The scroll guard and the await *)

Section ScrollGuard.

(** A run of the scroll body that starts while the flag is up returns at
    its first guard. *)
Lemma handleScroll_begin_guard s :
  isScrolling s = true → handleScroll_begin s = None.
Proof. unfold handleScroll_begin. by intros ->. Qed.

(** C4 fails on the code. A run of the scroll body that started before the
    selection (flag down, guard passed) is suspended at its [await]; then
    [selectSlide(1)] raises the flag and shows slide 1; then the observer
    delivers, slide 0 being the most visible, and the rest of the body,
    which does not read the flag again, shows slide 0, the flag still up:
    the selection flickers back inside the guard window.  Both variants
    share this body. *)
Theorem scroll_resume_overwrites_selection :
  let entries := [mkEntry 10 1; mkEntry 11 0] in
  (∃ captured,
     handleScroll_begin (attached1 2) = Some captured ∧
     let s1 := V1.selectSlide sample_env (num_of_nat 1) default_options
                 (attached1 2) in
     let s2 := handleScroll_resume captured entries s1 in
     isScrolling s1 = true ∧ synced_at 1 s1 ∧
     isScrolling s2 = true ∧ synced_at 0 s2) ∧
  (∃ captured,
     handleScroll_begin (attached2 2) = Some captured ∧
     let s1 := V2.selectSlide (num_of_nat 1) default_options (attached2 2) in
     let s2 := handleScroll_resume captured entries s1 in
     isScrolling s1 = true ∧ synced_at 1 s1 ∧
     isScrolling s2 = true ∧ synced_at 0 s2).
Proof.
  split; exists [10; 11]; by vm_compute.
Qed.

End ScrollGuard.

(** ** Detaching *)

Section Detach.

Lemma filter_keeps_all {A : Type} (p : A → bool) (l : list A) :
  (∀ x, x ∈ l → p x = false) → filter (fun x => p x = false) l = l.
Proof.
  induction l as [|x l IH]; intros H; [done|].
  rewrite filter_cons. rewrite decide_True by (apply H, list_elem_of_here).
  f_equal. apply IH. intros y Hy. by apply H, list_elem_of_further.
Qed.

(** Removing a listener by a function object that was just made removes
    nothing. *)
Lemma removeEventListener_fresh on type body s :
  closures_below s →
  listeners (removeEventListener on type (new_closure body s).1
               (new_closure body s).2)
  = listeners s.
Proof.
  intros Hbelow. unfold removeEventListener, new_closure.
  cbn [fst snd listeners set_listeners set_nextClosure].
  apply filter_keeps_all. intros l Hl. unfold same_listener.
  cbn [fn_id]. apply andb_false_iff. right.
  apply Nat.eqb_neq. specialize (Hbelow l Hl). lia.
Qed.

Lemma V2_remove_handlers_keeps button index s :
  closures_below s →
  listeners (V2.remove_handlers button index s) = listeners s ∧
  closures_below (V2.remove_handlers button index s).
Proof.
  intros Hbelow.
  pose proof (removeEventListener_fresh (el_id button) "click"
                (ClickSelect index) s Hbelow) as H1.
  set (s2 := removeEventListener (el_id button) "click"
               (new_closure (ClickSelect index) s).1
               (new_closure (ClickSelect index) s).2) in *.
  assert (Hn2 : nextClosure s2 = S (nextClosure s)) by done.
  assert (Hb2 : closures_below s2).
  { intros l Hl. rewrite H1 in Hl. rewrite Hn2.
    specialize (Hbelow l Hl). lia. }
  pose proof (removeEventListener_fresh (el_id button) "pointerenter"
                (PointerLoad index) s2 Hb2) as H3.
  change (V2.remove_handlers button index s) with
    (removeEventListener (el_id button) "pointerenter"
       (new_closure (PointerLoad index) s2).1
       (new_closure (PointerLoad index) s2).2) in *.
  split; [by rewrite H3|].
  intros l Hl. rewrite H3 in Hl. specialize (Hb2 l Hl).
  change (nextClosure (removeEventListener _ _ _ _))
    with (S (nextClosure s2)). lia.
Qed.

(** In the second variant [#removeThumbnailHandlers] leaves the listener
    registry as it found it. *)
Lemma V2_removeThumbnailHandlers_keeps s :
  closures_below s →
  listeners (V2.removeThumbnailHandlers s) = listeners s.
Proof.
  unfold V2.removeThumbnailHandlers, forEach.
  destruct (thumbnailButtons s) as [bs|]; [|done].
  generalize 0. revert s.
  induction bs as [|b bs IH]; intros s k Hbelow; [done|].
  cbn [forEach_from].
  destruct (V2_remove_handlers_keeps b k s Hbelow) as [Hl Hb].
  rewrite (IH _ _ Hb). exact Hl.
Qed.

(** C8 fails on the second variant. After attach and removal on two slides
    with two thumbnails, the scroll and wheel listeners are gone from the
    media container, but the four thumbnail listeners are still
    registered, and a click on the second thumbnail still selects slide 1.
    The first variant, which keeps its function objects in a [Map],
    removes them all on the same document. *)
Theorem V2_disconnect_keeps_thumbnail_listeners :
  let s := V2.disconnectedCallback (attached2 2) in
  listeners_for 1 "scroll" s = [] ∧
  listeners_for 1 "wheel" s = [] ∧
  listeners s
  = [ mkListener 51 "click" (mkClosure 2 (ClickSelect 0));
      mkListener 51 "pointerenter" (mkClosure 3 (PointerLoad 0));
      mkListener 52 "click" (mkClosure 4 (ClickSelect 1));
      mkListener 52 "pointerenter" (mkClosure 5 (PointerLoad 1)) ] ∧
  ¬ detached [51; 52] ["click"; "pointerenter"] s ∧
  visible_slides (V2Run.dispatch 52 "click" s) = [1] ∧
  listeners (V1.disconnectedCallback (attached1 2)) = [].
Proof.
  assert (Hl : listeners (V2.disconnectedCallback (attached2 2))
    = [ mkListener 51 "click" (mkClosure 2 (ClickSelect 0));
        mkListener 51 "pointerenter" (mkClosure 3 (PointerLoad 0));
        mkListener 52 "click" (mkClosure 4 (ClickSelect 1));
        mkListener 52 "pointerenter" (mkClosure 5 (PointerLoad 1)) ])
    by (by vm_compute).
  cbv zeta.
  split; [by vm_compute|]. split; [by vm_compute|]. split; [exact Hl|].
  split; [|split; by vm_compute].
  intros Hdet.
  apply (Hdet (mkListener 51 "click" (mkClosure 2 (ClickSelect 0)))).
  - rewrite Hl. apply list_elem_of_here.
  - apply list_elem_of_here.
  - apply list_elem_of_here.
Qed.

(** An older flag timer outlives removal: [#scrollTimeout] only remembers
    the last one. *)
Lemma disconnect_keeps_older_timeout :
  let twice1 :=
    V1.selectSlide sample_env (num_of_nat 1) default_options
      (V1.selectSlide sample_env (num_of_nat 0) default_options
         (attached1 2)) in
  let twice2 :=
    V2.selectSlide (num_of_nat 1) default_options
      (V2.selectSlide (num_of_nat 0) default_options (attached2 2)) in
  timers (V1.disconnectedCallback twice1) = [mkTimer 1 300] ∧
  timers (V2.disconnectedCallback twice2) = [mkTimer 1 300].
Proof. by vm_compute. Qed.

End Detach.

(** * Further properties of the code *)

(** ** The scroll observer *)

Section Observer.

Lemma fold_most_visible_max es :
  ∀ pre k e,
    pre !! k = Some e →
    (∀ j e', pre !! j = Some e' →
             (intersectionRatio e' <= intersectionRatio e)%Q ∧
             (j < k → (intersectionRatio e' < intersectionRatio e)%Q)) →
    ∃ k',
      (pre ++ es) !! k'
      = Some (fold_left
                (fun prev current =>
                   if Qlt_bool (intersectionRatio prev)
                               (intersectionRatio current)
                   then current else prev) es e) ∧
      ∀ j e', (pre ++ es) !! j = Some e' →
        (intersectionRatio e'
         <= intersectionRatio
              (fold_left
                 (fun prev current =>
                    if Qlt_bool (intersectionRatio prev)
                                (intersectionRatio current)
                    then current else prev) es e))%Q ∧
        (j < k' →
         (intersectionRatio e'
          < intersectionRatio
              (fold_left
                 (fun prev current =>
                    if Qlt_bool (intersectionRatio prev)
                                (intersectionRatio current)
                    then current else prev) es e))%Q).
Proof.
  induction es as [|x es IH]; intros pre k e Hk Hall.
  - exists k. rewrite app_nil_r. by split.
  - cbn [fold_left].
    replace (pre ++ x :: es) with ((pre ++ [x]) ++ es)
      by (by rewrite <- app_assoc).
    destruct (Qlt_bool (intersectionRatio e) (intersectionRatio x)) eqn:Hcmp.
    + apply Qlt_bool_true in Hcmp.
      apply (IH (pre ++ [x]) (length pre) x).
      * by rewrite list_lookup_middle.
      * intros j e' Hj.
        destruct (decide (j < length pre)) as [Hlt|Hge].
        -- rewrite lookup_app_l in Hj by done.
           destruct (Hall j e' Hj) as [Hle _].
           split; [apply Qlt_le_weak|intros _];
             by apply (Qle_lt_trans _ (intersectionRatio e)).
        -- assert (j = length pre) as ->.
           { apply lookup_lt_Some in Hj. rewrite length_app in Hj.
             simpl in Hj. lia. }
           rewrite list_lookup_middle in Hj by done.
           injection Hj as <-. split; [apply Qle_refl|lia].
    + apply Qlt_bool_false in Hcmp.
      apply (IH (pre ++ [x]) k e).
      * by apply lookup_app_l_Some.
      * intros j e' Hj.
        destruct (decide (j < length pre)) as [Hlt|Hge].
        -- rewrite lookup_app_l in Hj by done. by apply Hall.
        -- assert (j = length pre) as ->.
           { apply lookup_lt_Some in Hj. rewrite length_app in Hj.
             simpl in Hj. lia. }
           rewrite list_lookup_middle in Hj by done.
           injection Hj as <-. split; [done|].
           intros Hlt. apply lookup_lt_Some in Hk. lia.
Qed.

(** X1. The [reduce] of [#getMostVisibleElement] picks an entry of
    greatest intersection ratio, the first one when several entries share
    it; without entries it has nothing to pick. *)
Theorem most_visible_first_maximum (entries : list Entry) :
  match most_visible entries with
  | None => entries = []
  | Some e =>
      ∃ k, entries !! k = Some e ∧
           ∀ j e', entries !! j = Some e' →
                   (intersectionRatio e' <= intersectionRatio e)%Q ∧
                   (j < k → (intersectionRatio e' < intersectionRatio e)%Q)
  end.
Proof.
  destruct entries as [|e0 es]; [done|]. cbn [most_visible].
  apply (fold_most_visible_max es [e0] 0 e0); [done|].
  intros [|j] e' Hj; [|done]. injection Hj as <-.
  split; [apply Qle_refl|lia].
Qed.

Lemma most_visible_first_maximum_witness :
  match most_visible [mkEntry 10 (1 # 2); mkEntry 11 1; mkEntry 12 1] with
  | None => [mkEntry 10 (1 # 2); mkEntry 11 1; mkEntry 12 1] = []
  | Some e =>
      ∃ k, [mkEntry 10 (1 # 2); mkEntry 11 1; mkEntry 12 1] !! k = Some e ∧
           ∀ j e', [mkEntry 10 (1 # 2); mkEntry 11 1; mkEntry 12 1] !! j
                   = Some e' →
                   (intersectionRatio e' <= intersectionRatio e)%Q ∧
                   (j < k → (intersectionRatio e' < intersectionRatio e)%Q)
  end.
Proof.
  exact (most_visible_first_maximum
           [mkEntry 10 (1 # 2); mkEntry 11 1; mkEntry 12 1]).
Defined.

Lemma indexOf_from_absent ids x b :
  x ∉ ids → indexOf_from b ids x = (-1)%Z.
Proof.
  revert b. induction ids as [|y ids IH]; intros b Hx; [done|].
  cbn [indexOf_from]. apply not_elem_of_cons in Hx as [Hne Hx].
  destruct (Nat.eqb_spec y x); [congruence|]. by apply IH.
Qed.

Lemma js_eq_index_minus_one j : js_eq_index j (num_of_Z (-1)) = false.
Proof.
  unfold js_eq_index, num_of_Z, Qeq_bool. cbn [Qnum Qden inject_Z].
  apply Z.eqb_neq. lia.
Qed.

Lemma is_visible_hidden e :
  is_visible (setAttribute "aria-hidden" "true" e) = false.
Proof.
  unfold is_visible, aria_hidden, getAttribute. cbn [setAttribute el_attrs].
  by rewrite lookup_insert_eq.
Qed.

Lemma is_selected_unselected b :
  is_selected (setAttribute "aria-selected" "false" b) = false.
Proof.
  unfold is_selected, aria_selected, getAttribute. cbn [setAttribute el_attrs].
  by rewrite lookup_insert_eq.
Qed.

(** X2. The rest of the scroll body, run on delivery, only rewrites
    [aria-hidden] and [aria-selected]: the flag, its timer, the scroll
    requests, the dispatched events and the listeners stay as they are.
    Delivered nothing, it changes nothing; and when the most visible
    element is none of the slides it had read, [indexOf] gives -1 and no
    slide is left visible, no thumbnail selected. *)
Theorem handleScroll_resume_effects (captured : list nat)
    (entries : list Entry) (s : State) :
  let s' := handleScroll_resume captured entries s in
  (isScrolling s' = isScrolling s ∧ scrollTimeout s' = scrollTimeout s ∧
   timers s' = timers s ∧ scrolls s' = scrolls s ∧
   dispatched s' = dispatched s ∧ listeners s' = listeners s) ∧
  (entries = [] → s' = s) ∧
  (∀ e, most_visible entries = Some e → entry_target e ∉ captured →
        visible_slides s' = [] ∧ selected_thumbnails s' = []).
Proof.
  intros s'. subst s'. unfold handleScroll_resume.
  split; [|split].
  - destruct (most_visible entries) as [e|]; [|done].
    unfold updateSlideVisibility, updateActiveThumbnail.
    destruct (thumbnailButtons s) as [bs|];
      cbn [slides set_thumbnailButtons];
      by destruct (slides s) as [sl|].
  - by intros ->.
  - intros e -> Hout. unfold indexOf.
    rewrite (indexOf_from_absent _ _ 0 Hout).
    unfold updateSlideVisibility, updateActiveThumbnail,
      visible_slides, selected_thumbnails.
    split.
    + destruct (thumbnailButtons s) as [bs|];
        cbn [slides set_thumbnailButtons];
        (destruct (slides s) as [sl|] eqn:Hs;
         [cbn [slides set_slides default from_option id]
         |cbn [slides set_thumbnailButtons]; by rewrite ?Hs]);
        apply positions_from_none; intros x Hx;
        apply list_elem_of_lookup in Hx as [j Hj];
        rewrite list_lookup_imap in Hj; apply fmap_Some in Hj as (x0 & _ & ->);
        rewrite js_eq_index_minus_one; apply is_visible_hidden.
    + destruct (thumbnailButtons s) as [bs|] eqn:Hb.
      * destruct (slides (set_thumbnailButtons _ s));
          cbn [thumbnailButtons set_slides set_thumbnailButtons
               default from_option id];
          apply positions_from_none; intros x Hx;
          apply list_elem_of_lookup in Hx as [j Hj];
          rewrite list_lookup_imap in Hj;
          apply fmap_Some in Hj as (x0 & _ & ->);
          rewrite js_eq_index_minus_one; apply is_selected_unselected.
      * destruct (slides s); cbn [thumbnailButtons set_slides];
          by rewrite Hb.
Qed.

End Observer.

Section ObserverWitness.

Lemma handleScroll_resume_effects_witness :
  (@nil Entry = [] ∧
   handleScroll_resume [10; 11] [] (attached2 2) = attached2 2) ∧
  (most_visible [mkEntry 99 1] = Some (mkEntry 99 1) ∧
   (99 ∉ [10; 11]) ∧
   visible_slides
     (handleScroll_resume [10; 11] [mkEntry 99 1] (attached2 2)) = [] ∧
   selected_thumbnails
     (handleScroll_resume [10; 11] [mkEntry 99 1] (attached2 2)) = []).
Proof.
  assert (H1 : @nil Entry = []) by reflexivity.
  assert (H2 : most_visible [mkEntry 99 1] = Some (mkEntry 99 1))
    by reflexivity.
  assert (H3 : 99 ∉ [10; 11]).
  { intros H. apply elem_of_cons in H as [H|H]; [discriminate|].
    apply elem_of_cons in H as [H|H]; [discriminate|].
    by apply not_elem_of_nil in H. }
  split.
  - split; [exact H1|].
    exact (proj1 (proj2 (handleScroll_resume_effects [10; 11] []
                           (attached2 2))) H1).
  - split; [exact H2|]. split; [exact H3|].
    exact (proj2 (proj2 (handleScroll_resume_effects [10; 11]
                           [mkEntry 99 1] (attached2 2)))
             (mkEntry 99 1) H2 H3).
Defined.

End ObserverWitness.

(** ** Which calls select, and what repeated calls do *)

Section Acceptance.

Lemma timers_selected_state_neq a index k o t sl s :
  selected_state a index k o t sl s ≠ s.
Proof.
  intros H. apply (f_equal (fun x => length (timers x))) in H.
  unfold selected_state in H. cbn [timers] in H.
  rewrite length_app in H. simpl in H. lia.
Qed.

(** X3. [selectSlide] does something exactly when its index is
    numerically an integer from 0 to [slideCount - 1]; every other
    argument (negative, too large, fractional, NaN, infinite, or any
    number while the slide list is absent) leaves the state as it was. *)
Theorem selectSlide_acts_iff_valid (env : Env) (index : JsNum) (o : Options)
    (s : State) :
  (V1.selectSlide env index o s ≠ s ↔
   ∃ k, js_array_index index = Some k ∧ k < slideCount s) ∧
  (V2.selectSlide index o s ≠ s ↔
   ∃ k, js_array_index index = Some k ∧ k < slideCount s).
Proof.
  split; split.
  - intros Hne.
    destruct (V1_select_cases env index o s)
      as [Heq|(k & t & sl & Hs & Hk & Ht & _)]; [done|].
    exists k. split; [done|]. rewrite (slideCount_Some _ _ Hs).
    by eapply lookup_lt_Some.
  - intros (k & Hk & Hlt).
    destruct (valid_index_slide s k Hlt) as (sl & t & Hs & Ht).
    rewrite (V1_select_accept env _ _ o _ _ _ Hs Hk Ht).
    apply timers_selected_state_neq.
  - intros Hne.
    destruct (V2_select_cases index o s)
      as [Heq|(k & t & sl & Hs & Hk & Ht & _)]; [done|].
    exists k. split; [done|]. rewrite (slideCount_Some _ _ Hs).
    by eapply lookup_lt_Some.
  - intros (k & Hk & Hlt).
    destruct (valid_index_slide s k Hlt) as (sl & t & Hs & Ht).
    rewrite (V2_select_accept _ _ o _ _ _ Hs Hk Ht).
    apply timers_selected_state_neq.
Qed.

Lemma selectSlide_acts_iff_valid_witness :
  (js_array_index (num_of_nat 1) = Some 1 ∧ 1 < slideCount (attached1 3)) ∧
  V1.selectSlide sample_env (num_of_nat 1) default_options (attached1 3)
  ≠ attached1 3.
Proof.
  assert (H : js_array_index (num_of_nat 1) = Some 1 ∧
              1 < slideCount (attached1 3))
    by (split; [by vm_compute|vm_compute; lia]).
  split; [exact H|].
  exact (proj2 (proj1 (selectSlide_acts_iff_valid sample_env (num_of_nat 1)
                         default_options (attached1 3)))
           (ex_intro _ 1 H)).
Defined.

End Acceptance.

(** ** Loading content again, and where there is none *)

Section LoadAgain.

Lemma dataset_src_promote e : dataset_src (promote e) = None.
Proof.
  unfold promote. destruct (dataset_src e) as [v|] eqn:Hv; [|done].
  unfold dataset_src, getAttribute. cbn [removeAttribute el_attrs].
  by rewrite lookup_delete_eq.
Qed.

Lemma promote_promote e : promote (promote e) = promote e.
Proof. unfold promote at 1. by rewrite dataset_src_promote. Qed.

Lemma forEach_selected_promote sel f e :
  forEach_selected sel f (promote e) = promote (forEach_selected sel f e).
Proof.
  unfold promote, set_src. rewrite dataset_src_forEach, reflects_src_forEach.
  destruct (dataset_src e); [|done].
  destruct (reflects_src e); by destruct e.
Qed.

Lemma sel_lazy_forEach_selected sel f e :
  sel_lazy (forEach_selected sel f e) = sel_lazy e.
Proof. unfold sel_lazy, getAttribute. by rewrite forEach_selected_attrs. Qed.

Lemma forEach_selected_unfold sel f id tag attrs props text ch :
  forEach_selected sel f (mkElement id tag attrs props text ch)
  = mkElement id tag attrs props text
      (map (fun c => if sel c then f (forEach_selected sel f c)
                     else forEach_selected sel f c) ch).
Proof. reflexivity. Qed.

(** Going over the lazy elements of a slide a second time finds nothing
    left to promote. *)
Lemma forEach_selected_again e :
  forEach_selected sel_lazy promote (forEach_selected sel_lazy promote e)
  = forEach_selected sel_lazy promote e.
Proof.
  induction e as [id tag attrs props text ch IH] using Element_tree_ind.
  rewrite !forEach_selected_unfold.
  f_equal. rewrite map_map. apply map_ext_Forall.
  eapply Forall_impl; [exact IH|]. intros c Hc. cbv beta.
  destruct (sel_lazy c) eqn:Hsel.
  - rewrite forEach_selected_promote, Hc.
    destruct (sel_lazy (promote (forEach_selected sel_lazy promote c)));
      [apply promote_promote|done].
  - by rewrite sel_lazy_forEach_selected, Hsel, Hc.
Qed.

Lemma loadSlideContent_at index k s sl slide :
  slides s = Some sl → js_array_index index = Some k →
  sl !! k = Some slide →
  loadSlideContent index s
  = dispatchEvent (content_loaded index (el_id slide))
      (set_slides (Some (<[k := forEach_selected sel_lazy promote slide]> sl))
         s).
Proof. intros Hs Hk Hl. unfold loadSlideContent. by rewrite Hs, Hk, Hl. Qed.

Lemma loadSlideContent_cases index s :
  loadSlideContent index s = s ∨
  ∃ k sl slide, slides s = Some sl ∧ js_array_index index = Some k ∧
                sl !! k = Some slide.
Proof.
  unfold loadSlideContent.
  destruct (slides s) as [sl|]; [|by left].
  destruct (js_array_index index) as [k|]; [|by left].
  destruct (sl !! k) as [slide|] eqn:Hk; [|by left].
  right. by exists k, sl, slide.
Qed.

(** X4. [#loadSlideContent] acts exactly when a slide sits at its index:
    a hover on a thumbnail that has no slide dispatches nothing and
    changes nothing.  When it acts it never selects: the visible slide,
    the selected thumbnail, the flag, the timers and the scroll requests
    stay as they are. *)
Theorem loadSlideContent_acts_iff_slide (index : JsNum) (s : State) :
  (loadSlideContent index s ≠ s ↔
   ∃ k slide, js_array_index index = Some k ∧ slide_at s k = Some slide) ∧
  visible_slides (loadSlideContent index s) = visible_slides s ∧
  selected_thumbnails (loadSlideContent index s) = selected_thumbnails s ∧
  isScrolling (loadSlideContent index s) = isScrolling s ∧
  timers (loadSlideContent index s) = timers s ∧
  scrolls (loadSlideContent index s) = scrolls s.
Proof.
  split.
  - split.
    + intros Hne.
      destruct (loadSlideContent_cases index s)
        as [Heq|(k & sl & slide & Hs & Hk & Hl)]; [done|].
      exists k, slide. split; [done|]. by rewrite (slide_at_Some _ _ _ Hs).
    + intros (k & slide & Hk & Hat). unfold slide_at in Hat.
      destruct (slides s) as [sl|] eqn:Hs; [|done]. cbn in Hat.
      rewrite (loadSlideContent_at _ _ _ _ _ Hs Hk Hat). intros Heq.
      apply (f_equal (fun x => length (dispatched x))) in Heq.
      unfold dispatchEvent in Heq. cbn [dispatched set_dispatched] in Heq.
      rewrite length_app in Heq. simpl in Heq. lia.
  - destruct (loadSlideContent_cases index s)
      as [->|(k & sl & slide & Hs & Hk & Hl)]; [done|].
    rewrite (loadSlideContent_at _ _ _ _ _ Hs Hk Hl).
    unfold visible_slides, selected_thumbnails, dispatchEvent.
    cbn [slides thumbnailButtons isScrolling timers scrolls
         set_dispatched set_slides default from_option id].
    rewrite Hs. cbn [default from_option id].
    rewrite (positions_from_insert _ _ _ _ slide)
      by (done || apply is_visible_forEach_selected).
    done.
Qed.

(** X5. Content is promoted once, the event is dispatched every time:
    a second [#loadSlideContent] of the same slide leaves every slide as
    the first call left it and dispatches the same event again. *)
Theorem loadSlideContent_again (index : JsNum) (s : State) :
  slides (loadSlideContent index (loadSlideContent index s))
  = slides (loadSlideContent index s) ∧
  ∀ k slide,
    js_array_index index = Some k → slide_at s k = Some slide →
    dispatched (loadSlideContent index (loadSlideContent index s))
    = dispatched s ++ [content_loaded index (el_id slide);
                       content_loaded index (el_id slide)].
Proof.
  destruct (loadSlideContent_cases index s)
    as [Heq|(k & sl & slide & Hs & Hk & Hl)].
  - rewrite !Heq. split; [done|]. intros k slide Hk Hat. exfalso.
    unfold slide_at in Hat. destruct (slides s) as [sl|] eqn:Hs; [|done].
    cbn in Hat. rewrite (loadSlideContent_at _ _ _ _ _ Hs Hk Hat) in Heq.
    apply (f_equal (fun x => length (dispatched x))) in Heq.
    unfold dispatchEvent in Heq. cbn [dispatched set_dispatched] in Heq.
    rewrite length_app in Heq. simpl in Heq. lia.
  - rewrite (loadSlideContent_at _ _ _ _ _ Hs Hk Hl).
    assert (Hlt : k < length sl) by (by eapply lookup_lt_Some).
    rewrite (loadSlideContent_at index k _
               (<[k := forEach_selected sel_lazy promote slide]> sl)
               (forEach_selected sel_lazy promote slide));
      [|done|done|by apply list_lookup_insert_eq].
    rewrite forEach_selected_again, forEach_selected_id.
    unfold dispatchEvent.
    cbn [slides dispatched set_dispatched set_slides].
    rewrite list_insert_insert_eq. split; [done|].
    intros k' slide' Hk' Hat. rewrite Hk in Hk'. injection Hk' as <-.
    rewrite (slide_at_Some _ _ _ Hs), Hl in Hat. injection Hat as <-.
    by rewrite <- app_assoc.
Qed.

Lemma loadSlideContent_acts_iff_slide_witness :
  (∃ k slide, js_array_index (num_of_nat 0) = Some k ∧
              slide_at lazy_component k = Some slide) ∧
  loadSlideContent (num_of_nat 0) lazy_component ≠ lazy_component.
Proof.
  assert (H : ∃ k slide, js_array_index (num_of_nat 0) = Some k ∧
                         slide_at lazy_component k = Some slide).
  { exists 0, (default lazy_slide (slide_at lazy_component 0)).
    split; [reflexivity|by vm_compute]. }
  split; [exact H|].
  exact (proj2 (proj1 (loadSlideContent_acts_iff_slide (num_of_nat 0)
                         lazy_component)) H).
Defined.

Lemma loadSlideContent_again_witness :
  js_array_index (num_of_nat 0) = Some 0 ∧
  slide_at lazy_component 0
  = Some (default lazy_slide (slide_at lazy_component 0)) ∧
  dispatched (loadSlideContent (num_of_nat 0)
                (loadSlideContent (num_of_nat 0) lazy_component))
  = dispatched lazy_component
    ++ [content_loaded (num_of_nat 0)
          (el_id (default lazy_slide (slide_at lazy_component 0)));
        content_loaded (num_of_nat 0)
          (el_id (default lazy_slide (slide_at lazy_component 0)))].
Proof.
  assert (H1 : js_array_index (num_of_nat 0) = Some 0) by reflexivity.
  assert (H2 : slide_at lazy_component 0
               = Some (default lazy_slide (slide_at lazy_component 0)))
    by (by vm_compute).
  split; [exact H1|]. split; [exact H2|].
  exact (proj2 (loadSlideContent_again (num_of_nat 0) lazy_component)
           0 _ H1 H2).
Defined.

End LoadAgain.

(** ** Timers of overlapping selections, and of a removed component *)

Section Timers.

Lemma existsb_timer_absent id (l : list Timer) :
  (∀ t, t ∈ l → t_id t ≠ id) →
  existsb (fun t => Nat.eqb (t_id t) id) l = false.
Proof.
  induction l as [|t l IH]; intros H; [done|].
  cbn [existsb]. apply orb_false_iff. split.
  - apply Nat.eqb_neq, H, list_elem_of_here.
  - apply IH. intros t' Ht'. by apply H, list_elem_of_further.
Qed.

Lemma clearTimeout_absent id s t :
  t ∈ timers (clearTimeout id s) → t_id t ≠ id.
Proof.
  unfold clearTimeout. cbn [timers set_timers].
  rewrite list_elem_of_filter. intros [H _]. by apply Nat.eqb_neq.
Qed.

(** Two accepted selections in a row, and then the first one's timer. *)
Lemma second_selection_outlived a1 a2 i1 i2 k1 k2 o1 o2 t1 t2 sl1 sl2 s :
  let s1 := selected_state a1 i1 k1 o1 t1 sl1 s in
  let s2 := selected_state a2 i2 k2 o2 t2 sl2 s1 in
  let s3 := fire_timer (nextTimer s) s2 in
  isScrolling s2 = true ∧ isScrolling s3 = false ∧
  scrollTimeout s3 = Some (S (nextTimer s)) ∧
  mkTimer (S (nextTimer s)) (flag_delay o2) ∈ timers s3.
Proof.
  intros s1 s2 s3.
  assert (Ht : timers s2
               = (timers s ++ [mkTimer (nextTimer s) (flag_delay o1)])
                 ++ [mkTimer (S (nextTimer s)) (flag_delay o2)])
    by reflexivity.
  assert (Hfire : s3 = set_isScrolling false (clearTimeout (nextTimer s) s2)).
  { unfold s3, fire_timer. rewrite Ht, !existsb_app.
    cbn [existsb t_id]. by rewrite Nat.eqb_refl, !orb_true_r. }
  split; [done|]. rewrite Hfire.
  split; [done|]. split; [done|].
  unfold clearTimeout. cbn [timers set_timers set_isScrolling].
  rewrite Ht. apply list_elem_of_filter. split.
  - cbn [t_id]. apply Nat.eqb_neq. lia.
  - apply elem_of_app. right. apply list_elem_of_here.
Qed.

(** X6. The flag's delay is not renewed by a second selection. After two
    accepted [selectSlide] calls the flag is up; when the timer of the
    first call fires it lowers the flag although the second call's timer,
    the one [#scrollTimeout] holds, is still pending. *)
Theorem second_selection_flag_cut_short (env : Env) (i j : nat)
    (o1 o2 : Options) (s : State) :
  i < slideCount s → j < slideCount s →
  (let s2 := V1.selectSlide env (num_of_nat j) o2
               (V1.selectSlide env (num_of_nat i) o1 s) in
   isScrolling s2 = true ∧
   isScrolling (fire_timer (nextTimer s) s2) = false ∧
   scrollTimeout (fire_timer (nextTimer s) s2) = Some (S (nextTimer s)) ∧
   mkTimer (S (nextTimer s)) (flag_delay o2)
   ∈ timers (fire_timer (nextTimer s) s2)) ∧
  (let s2 := V2.selectSlide (num_of_nat j) o2
               (V2.selectSlide (num_of_nat i) o1 s) in
   isScrolling s2 = true ∧
   isScrolling (fire_timer (nextTimer s) s2) = false ∧
   scrollTimeout (fire_timer (nextTimer s) s2) = Some (S (nextTimer s)) ∧
   mkTimer (S (nextTimer s)) (flag_delay o2)
   ∈ timers (fire_timer (nextTimer s) s2)).
Proof.
  intros Hi Hj.
  destruct (valid_index_slide s i Hi) as (sl & t & Hs & Ht).
  split.
  - rewrite (V1_select_accept env _ _ o1 _ _ _ Hs (js_array_index_nat i) Ht).
    set (s1 := selected_state _ _ _ _ _ _ s).
    assert (Hj1 : j < slideCount s1).
    { unfold s1.
      destruct (selected_state_lengths (V1_scroll env (num_of_nat i) o1 t s)
                  (num_of_nat i) i o1 t sl s) as [-> _].
      by rewrite <- (slideCount_Some _ _ Hs). }
    destruct (valid_index_slide s1 j Hj1) as (sl1 & t1 & Hs1 & Ht1).
    rewrite (V1_select_accept env _ _ o2 _ _ _ Hs1 (js_array_index_nat j) Ht1).
    apply second_selection_outlived.
  - rewrite (V2_select_accept _ _ o1 _ _ _ Hs (js_array_index_nat i) Ht).
    set (s1 := selected_state _ _ _ _ _ _ s).
    assert (Hj1 : j < slideCount s1).
    { unfold s1.
      destruct (selected_state_lengths (V2_scroll o1 t)
                  (num_of_nat i) i o1 t sl s) as [-> _].
      by rewrite <- (slideCount_Some _ _ Hs). }
    destruct (valid_index_slide s1 j Hj1) as (sl1 & t1 & Hs1 & Ht1).
    rewrite (V2_select_accept _ _ o2 _ _ _ Hs1 (js_array_index_nat j) Ht1).
    apply second_selection_outlived.
Qed.

Lemma second_selection_flag_cut_short_witness :
  0 < slideCount (attached2 2) ∧ 1 < slideCount (attached2 2) ∧
  isScrolling
    (fire_timer (nextTimer (attached2 2))
       (V2.selectSlide (num_of_nat 1) default_options
          (V2.selectSlide (num_of_nat 0) default_options (attached2 2))))
  = false.
Proof.
  assert (H0 : 0 < slideCount (attached2 2)) by (vm_compute; lia).
  assert (H1 : 1 < slideCount (attached2 2)) by (vm_compute; lia).
  split; [exact H0|]. split; [exact H1|].
  exact (proj1 (proj2 (proj2
           (second_selection_flag_cut_short sample_env 0 1 default_options
              default_options (attached2 2) H0 H1)))).
Defined.

End Timers.

(** ** What removal always achieves *)

Section Removal.

Lemma forEach_from_frame {A B : Type} (proj : State → B)
    (f : A → nat → State → State) :
  (∀ x k s, proj (f x k s) = proj s) →
  ∀ arr k s, proj (forEach_from k f arr s) = proj s.
Proof.
  intros Hf arr. induction arr as [|x arr IH]; intros k s; [done|].
  cbn [forEach_from]. by rewrite IH.
Qed.

Lemma forEach_from_listeners_sub {A : Type} (f : A → nat → State → State) :
  (∀ x k s l, l ∈ listeners (f x k s) → l ∈ listeners s) →
  ∀ arr k s l, l ∈ listeners (forEach_from k f arr s) → l ∈ listeners s.
Proof.
  intros Hf arr. induction arr as [|x arr IH]; intros k s l; [done|].
  cbn [forEach_from]. intros Hl. by eapply Hf, IH.
Qed.

Lemma removeEventListener_sub on type cb s l :
  l ∈ listeners (removeEventListener on type cb s) →
  l ∈ listeners s ∧ same_listener on type cb l = false.
Proof.
  unfold removeEventListener. cbn [listeners set_listeners].
  rewrite list_elem_of_filter. tauto.
Qed.

Lemma V1_remove_handlers_sub button index s l :
  l ∈ listeners (V1.remove_handlers button index s) → l ∈ listeners s.
Proof.
  unfold V1.remove_handlers.
  destruct (thumbnailClickHandlers s !! el_id button) as [[c p]|]; [|done].
  cbn [listeners set_thumbnailClickHandlers]. intros Hl.
  apply removeEventListener_sub in Hl as [Hl _].
  by apply removeEventListener_sub in Hl as [Hl _].
Qed.

Lemma V2_remove_handlers_sub button index s l :
  l ∈ listeners (V2.remove_handlers button index s) → l ∈ listeners s.
Proof.
  unfold V2.remove_handlers, new_closure. intros Hl.
  apply removeEventListener_sub in Hl as [Hl _].
  cbn [listeners set_nextClosure] in Hl.
  by apply removeEventListener_sub in Hl as [Hl _].
Qed.

Lemma V1_removeThumbnailHandlers_sub s l :
  l ∈ listeners (V1.removeThumbnailHandlers s) → l ∈ listeners s.
Proof.
  unfold V1.removeThumbnailHandlers, forEach.
  destruct (thumbnailButtons s); [|done].
  apply forEach_from_listeners_sub, V1_remove_handlers_sub.
Qed.

Lemma V2_removeThumbnailHandlers_sub s l :
  l ∈ listeners (V2.removeThumbnailHandlers s) → l ∈ listeners s.
Proof.
  unfold V2.removeThumbnailHandlers, forEach.
  destruct (thumbnailButtons s); [|done].
  apply forEach_from_listeners_sub, V2_remove_handlers_sub.
Qed.

Lemma clear_scrollTimeout_listeners s :
  listeners (clear_scrollTimeout s) = listeners s.
Proof.
  unfold clear_scrollTimeout. destruct (scrollTimeout s) as [id|]; [|done].
  by destruct (Nat.eqb id 0).
Qed.

(** X7. Whatever the state, [disconnectedCallback] registers nothing and
    leaves no [handleScroll] listener on the media container for [scroll]
    events, and in the second variant no [handleWheel] listener for
    [wheel] events either. *)
Theorem disconnectedCallback_unhooks_container (s : State) :
  (¬ registered (mediaContainer s) "scroll" handleScroll_fn
       (V1.disconnectedCallback s) ∧
   ∀ l, l ∈ listeners (V1.disconnectedCallback s) → l ∈ listeners s) ∧
  (¬ registered (mediaContainer s) "scroll" handleScroll_fn
       (V2.disconnectedCallback s) ∧
   ¬ registered (mediaContainer s) "wheel" handleWheel_fn
       (V2.disconnectedCallback s) ∧
   ∀ l, l ∈ listeners (V2.disconnectedCallback s) → l ∈ listeners s).
Proof.
  assert (H1 : ∀ l, l ∈ listeners (V1.disconnectedCallback s) →
                    l ∈ listeners s ∧
                    same_listener (mediaContainer s) "scroll"
                      handleScroll_fn l = false).
  { intros l. unfold V1.disconnectedCallback.
    rewrite clear_scrollTimeout_listeners. intros Hl.
    apply V1_removeThumbnailHandlers_sub in Hl.
    by apply removeEventListener_sub in Hl. }
  assert (H2 : ∀ l, l ∈ listeners (V2.disconnectedCallback s) →
                    l ∈ listeners s ∧
                    same_listener (mediaContainer s) "scroll"
                      handleScroll_fn l = false ∧
                    same_listener (mediaContainer s) "wheel"
                      handleWheel_fn l = false).
  { intros l. unfold V2.disconnectedCallback.
    rewrite clear_scrollTimeout_listeners. intros Hl.
    apply V2_removeThumbnailHandlers_sub in Hl.
    apply removeEventListener_sub in Hl as [Hl Hw].
    apply removeEventListener_sub in Hl as [Hl Hsc].
    by cbn [mediaContainer removeEventListener set_listeners] in Hw. }
  split; [split|split; [|split]].
  - intros (l & Hl & Hsame). destruct (H1 l Hl) as [_ Hne]. congruence.
  - intros l Hl. by apply H1.
  - intros (l & Hl & Hsame). destruct (H2 l Hl) as (_ & Hne & _). congruence.
  - intros (l & Hl & Hsame). destruct (H2 l Hl) as (_ & _ & Hne). congruence.
  - intros l Hl. by apply H2.
Qed.

Lemma disconnectedCallback_unhooks_container_witness :
  registered (mediaContainer (attached2 2)) "wheel" handleWheel_fn
    (attached2 2) ∧
  ¬ registered (mediaContainer (attached2 2)) "wheel" handleWheel_fn
      (V2.disconnectedCallback (attached2 2)).
Proof.
  split.
  - exists (mkListener 1 "wheel" handleWheel_fn). split; [|by vm_compute].
    apply (list_elem_of_lookup_2 _ 1). by vm_compute.
  - exact (proj1 (proj2 (proj2 (disconnectedCallback_unhooks_container
                                  (attached2 2))))).
Defined.

Lemma clear_scrollTimeout_timers id s :
  scrollTimeout s = Some id → id ≠ 0 →
  timers (clear_scrollTimeout s)
  = filter (fun t => Nat.eqb (t_id t) id = false) (timers s).
Proof.
  intros Hid Hne. unfold clear_scrollTimeout. rewrite Hid.
  by destruct (Nat.eqb_spec id 0).
Qed.

Lemma fire_timer_absent id s :
  (∀ t, t ∈ timers s → t_id t ≠ id) → fire_timer id s = s.
Proof.
  intros H. unfold fire_timer. by rewrite (existsb_timer_absent id _ H).
Qed.

Lemma V1_remove_handlers_timers button index s :
  scrollTimeout (V1.remove_handlers button index s) = scrollTimeout s.
Proof.
  unfold V1.remove_handlers.
  by destruct (thumbnailClickHandlers s !! el_id button) as [[c p]|].
Qed.

(** X8. Removal cancels the timeout that [#scrollTimeout] holds: once
    [disconnectedCallback] has run, no timer with that handle is pending,
    and its firing can no longer touch the component.  A handle that is
    null or 0 is not cancelled. *)
Theorem disconnectedCallback_cancels_held_timeout (id : nat) (s : State) :
  scrollTimeout s = Some id → id ≠ 0 →
  ((∀ t, t ∈ timers (V1.disconnectedCallback s) → t_id t ≠ id) ∧
   fire_timer id (V1.disconnectedCallback s) = V1.disconnectedCallback s) ∧
  ((∀ t, t ∈ timers (V2.disconnectedCallback s) → t_id t ≠ id) ∧
   fire_timer id (V2.disconnectedCallback s) = V2.disconnectedCallback s).
Proof.
  intros Hid Hne.
  assert (H1 : ∀ t, t ∈ timers (V1.disconnectedCallback s) → t_id t ≠ id).
  { intros t. unfold V1.disconnectedCallback.
    rewrite (clear_scrollTimeout_timers id).
    - rewrite list_elem_of_filter. intros [H _]. by apply Nat.eqb_neq.
    - unfold V1.removeThumbnailHandlers, forEach.
      destruct (thumbnailButtons _); [|done].
      by rewrite (forEach_from_frame scrollTimeout _
                    V1_remove_handlers_timers).
    - done. }
  assert (H2 : ∀ t, t ∈ timers (V2.disconnectedCallback s) → t_id t ≠ id).
  { intros t. unfold V2.disconnectedCallback.
    rewrite (clear_scrollTimeout_timers id).
    - rewrite list_elem_of_filter. intros [H _]. by apply Nat.eqb_neq.
    - unfold V2.removeThumbnailHandlers, forEach.
      destruct (thumbnailButtons _); [|done].
      by rewrite (forEach_from_frame scrollTimeout V2.remove_handlers
                    (fun _ _ _ => eq_refl)).
    - done. }
  split; (split; [done|]); by apply fire_timer_absent.
Qed.

Lemma disconnectedCallback_cancels_held_timeout_witness :
  scrollTimeout (V2.selectSlide (num_of_nat 1) default_options (attached2 2))
  = Some 1 ∧
  1 ≠ 0 ∧
  fire_timer 1
    (V2.disconnectedCallback
       (V2.selectSlide (num_of_nat 1) default_options (attached2 2)))
  = V2.disconnectedCallback
      (V2.selectSlide (num_of_nat 1) default_options (attached2 2)).
Proof.
  assert (H1 : scrollTimeout
                 (V2.selectSlide (num_of_nat 1) default_options (attached2 2))
               = Some 1) by (by vm_compute).
  assert (H2 : 1 ≠ 0) by discriminate.
  split; [exact H1|]. split; [exact H2|].
  exact (proj2 (proj2 (disconnectedCallback_cancels_held_timeout 1 _ H1 H2))).
Defined.

End Removal.

(** ** The thumbnail handlers, registered and removed *)

Section Handlers.

Lemma addEventListener_fresh on type cb s :
  (∀ l, l ∈ listeners s → fn_id (l_callback l) ≠ fn_id cb) →
  addEventListener on type cb s
  = set_listeners (listeners s ++ [mkListener on type cb]) s.
Proof.
  intros H. unfold addEventListener.
  replace (existsb (same_listener on type cb) (listeners s)) with false;
    [done|].
  symmetry. apply not_true_is_false. intros Hex.
  apply existsb_exists in Hex as (l & Hl & Hsame).
  apply list_elem_of_In in Hl. unfold same_listener in Hsame.
  apply andb_true_iff in Hsame as [_ Hid]. apply Nat.eqb_eq in Hid.
  by apply (H l Hl).
Qed.

Lemma V1_add_handlers_step b k s :
  closures_below s →
  listeners (V1.add_handlers b k s)
  = listeners s ++ handler_listeners (nextClosure s) k [b] ∧
  nextClosure (V1.add_handlers b k s) = S (S (nextClosure s)) ∧
  thumbnailClickHandlers (V1.add_handlers b k s)
  = <[el_id b := (click_closure (nextClosure s) k,
                  pointer_closure (nextClosure s) k)]>
      (thumbnailClickHandlers s).
Proof.
  intros Hbelow. unfold V1.add_handlers, new_closure.
  cbn [nextClosure set_nextClosure thumbnailClickHandlers].
  rewrite (addEventListener_fresh _ "click").
  2:{ intros l Hl. cbn [listeners set_thumbnailClickHandlers set_nextClosure]
        in Hl. specialize (Hbelow l Hl). cbn [fn_id]. lia. }
  rewrite (addEventListener_fresh _ "pointerenter").
  2:{ intros l Hl.
      cbn [listeners set_listeners set_thumbnailClickHandlers set_nextClosure]
        in Hl.
      apply elem_of_app in Hl as [Hl|Hl].
      - specialize (Hbelow l Hl). cbn [fn_id]. lia.
      - apply list_elem_of_singleton in Hl as ->. cbn [fn_id l_callback]. lia. }
  cbn [listeners set_listeners set_thumbnailClickHandlers set_nextClosure
       nextClosure thumbnailClickHandlers handler_listeners].
  split; [by rewrite <- app_assoc|]. by split.
Qed.

Lemma V2_add_handlers_step b k s :
  closures_below s →
  listeners (V2.add_handlers b k s)
  = listeners s ++ handler_listeners (nextClosure s) k [b] ∧
  nextClosure (V2.add_handlers b k s) = S (S (nextClosure s)).
Proof.
  intros Hbelow. unfold V2.add_handlers, new_closure.
  rewrite (addEventListener_fresh _ "click").
  2:{ intros l Hl. cbn [listeners set_nextClosure] in Hl.
      specialize (Hbelow l Hl). cbn [fn_id]. lia. }
  cbn [nextClosure set_listeners set_nextClosure].
  rewrite (addEventListener_fresh _ "pointerenter").
  2:{ intros l Hl. cbn [listeners set_listeners set_nextClosure] in Hl.
      apply elem_of_app in Hl as [Hl|Hl].
      - specialize (Hbelow l Hl). cbn [fn_id]. lia.
      - apply list_elem_of_singleton in Hl as ->. cbn [fn_id l_callback]. lia. }
  cbn [listeners set_listeners set_nextClosure nextClosure handler_listeners].
  split; [by rewrite <- app_assoc|done].
Qed.

Lemma handler_listeners_ids base k bs l :
  l ∈ handler_listeners base k bs →
  base ≤ fn_id (l_callback l) < base + 2 * length bs.
Proof.
  revert base k. induction bs as [|b bs IH]; intros base k Hl.
  - by apply not_elem_of_nil in Hl.
  - cbn [handler_listeners] in Hl. cbn [length].
    apply elem_of_cons in Hl as [->|Hl]; [cbn; lia|].
    apply elem_of_cons in Hl as [->|Hl]; [cbn; lia|].
    apply IH in Hl. lia.
Qed.

(** Registering the handlers of all buttons, one step after the other. *)
Lemma forEach_from_handlers (f : Element → nat → State → State) :
  (∀ b k s, closures_below s →
            listeners (f b k s)
            = listeners s ++ handler_listeners (nextClosure s) k [b] ∧
            nextClosure (f b k s) = S (S (nextClosure s))) →
  ∀ bs k s,
    closures_below s →
    listeners (forEach_from k f bs s)
    = listeners s ++ handler_listeners (nextClosure s) k bs ∧
    nextClosure (forEach_from k f bs s) = nextClosure s + 2 * length bs.
Proof.
  intros Hf bs. induction bs as [|b bs IH]; intros k s Hbelow.
  - cbn [forEach_from handler_listeners length]. rewrite app_nil_r.
    split; [done|lia].
  - cbn [forEach_from]. destruct (Hf b k s Hbelow) as [Hl Hn].
    assert (Hbelow' : closures_below (f b k s)).
    { intros l. rewrite Hl, Hn. intros Hin.
      apply elem_of_app in Hin as [Hin|Hin].
      - specialize (Hbelow l Hin). lia.
      - apply handler_listeners_ids in Hin. simpl in Hin. lia. }
    destruct (IH (S k) (f b k s) Hbelow') as [Hl' Hn'].
    rewrite Hl', Hn', Hl, Hn. cbn [handler_listeners length].
    split; [by rewrite <- app_assoc|lia].
Qed.

Lemma handler_listeners_ext base k bs bs' :
  map el_id bs = map el_id bs' →
  handler_listeners base k bs = handler_listeners base k bs'.
Proof.
  revert base k bs'. induction bs as [|b bs IH]; intros base k [|b' bs'] H;
    try done.
  injection H as Hb Hbs. cbn [handler_listeners]. rewrite Hb.
  do 2 f_equal. by apply IH.
Qed.

Lemma el_id_init_thumbnail env sl fresh j b :
  el_id (init_thumbnail env sl fresh j b) = el_id b.
Proof.
  unfold init_thumbnail.
  destruct (sl !! j) as [slide|]; [|done].
  destruct (querySelector sel_data_thumbnail slide); [done|].
  by destruct (querySelector sel_img slide).
Qed.

Lemma map_el_id_init_thumbnails env sl fresh bs :
  map el_id (imap (init_thumbnail env sl fresh) bs) = map el_id bs.
Proof.
  apply list_eq. intros j.
  change (map el_id) with (fmap (M:=list) el_id).
  rewrite !list_lookup_fmap, list_lookup_imap.
  destruct (bs !! j); [|done]. cbn [fmap option_fmap option_map].
  f_equal. apply el_id_init_thumbnail.
Qed.

(** No handler listener sits on an element that is none of the buttons. *)
Lemma handler_listeners_other on type base k bs :
  on ∉ map el_id bs →
  filter (fun l => Nat.eqb (l_target l) on && String.eqb (l_type l) type
                   = true)
         (handler_listeners base k bs) = [].
Proof.
  revert base k. induction bs as [|b bs IH]; intros base k Hon; [done|].
  cbn [map] in Hon. apply not_elem_of_cons in Hon as [Hne Hon].
  cbn [handler_listeners].
  rewrite !filter_cons_False; [by apply IH| |];
    cbn [l_target]; rewrite (proj2 (Nat.eqb_neq _ _)); done.
Qed.

(** On the button at position [j], and only there, sit the click and the
    pointerenter listener made for position [j]. *)
Lemma handler_listeners_for base k bs j b :
  NoDup (map el_id bs) → bs !! j = Some b →
  filter (fun l => Nat.eqb (l_target l) (el_id b)
                   && String.eqb (l_type l) "click" = true)
         (handler_listeners base k bs)
  = [mkListener (el_id b) "click" (click_closure (base + 2 * j) (k + j))] ∧
  filter (fun l => Nat.eqb (l_target l) (el_id b)
                   && String.eqb (l_type l) "pointerenter" = true)
         (handler_listeners base k bs)
  = [mkListener (el_id b) "pointerenter"
       (pointer_closure (base + 2 * j) (k + j))].
Proof.
  revert base k j. induction bs as [|b0 bs IH]; intros base k j Hnd Hj;
    [done|].
  cbn [map] in Hnd. apply NoDup_cons in Hnd as [Hb0 Hnd].
  cbn [handler_listeners]. destruct j as [|j].
  - injection Hj as ->.
    replace (base + 2 * 0) with base by lia.
    replace (k + 0) with k by lia.
    split.
    + rewrite filter_cons_True
        by (cbn [l_target l_type]; by rewrite Nat.eqb_refl).
      rewrite filter_cons_False
        by (cbn [l_target l_type]; by rewrite Nat.eqb_refl).
      by rewrite handler_listeners_other.
    + rewrite filter_cons_False
        by (cbn [l_target l_type]; by rewrite Nat.eqb_refl).
      rewrite filter_cons_True
        by (cbn [l_target l_type]; by rewrite Nat.eqb_refl).
      by rewrite handler_listeners_other.
  - cbn in Hj.
    assert (Hne : el_id b0 ≠ el_id b).
    { intros Heq. apply Hb0. rewrite Heq.
      apply list_elem_of_fmap. exists b. split; [done|].
      by eapply list_elem_of_lookup_2. }
    destruct (IH (S (S base)) (S k) j Hnd Hj) as [Hc Hp].
    replace (base + 2 * S j) with (S (S base) + 2 * j) by lia.
    replace (k + S j) with (S k + j) by lia.
    split.
    + rewrite !filter_cons_False
        by (cbn [l_target]; by rewrite (proj2 (Nat.eqb_neq _ _))).
      exact Hc.
    + rewrite !filter_cons_False
        by (cbn [l_target]; by rewrite (proj2 (Nat.eqb_neq _ _))).
      exact Hp.
Qed.

End Handlers.

(** ** A connected component *)

Section Connected.

Lemma V2_connected_listeners env children container s :
  listeners s = [] → 2 ≤ nextClosure s →
  listeners (V2.connectedCallback env children (Some container) s)
  = [ mkListener (mediaContainer s) "scroll" handleScroll_fn;
      mkListener (mediaContainer s) "wheel" handleWheel_fn ]
    ++ handler_listeners (nextClosure s) 0
         (querySelectorAll sel_thumbnail container).
Proof.
  intros Hl Hn. unfold V2.connectedCallback.
  set (s2 := initializeThumbnails env (Some container)
               (V2.initializeSlides children s)).
  assert (Hl2 : listeners s2 = listeners s) by reflexivity.
  assert (Hn2 : nextClosure s2 = nextClosure s) by reflexivity.
  assert (Hm2 : mediaContainer s2 = mediaContainer s) by reflexivity.
  assert (Hb2 : thumbnailButtons s2
                = Some (imap (init_thumbnail env (imap init_slide children)
                                (nextNode s))
                          (querySelectorAll sel_thumbnail container)))
    by reflexivity.
  clearbody s2.
  rewrite (addEventListener_fresh _ "scroll")
    by (intros l; rewrite Hl2, Hl; intros H; by apply not_elem_of_nil in H).
  cbn [mediaContainer set_listeners].
  rewrite (addEventListener_fresh _ "wheel").
  2:{ intros l. cbn [listeners set_listeners]. rewrite Hl2, Hl.
      intros H. apply list_elem_of_singleton in H as ->. cbn. lia. }
  unfold V2.addThumbnailHandlers, forEach.
  cbn [thumbnailButtons set_listeners listeners]. rewrite Hb2.
  match goal with
  | |- listeners (forEach_from 0 _ ?bs ?st) = _ =>
      destruct (forEach_from_handlers V2.add_handlers V2_add_handlers_step
                  bs 0 st) as [-> _]
  end.
  - intros l. cbn [listeners set_listeners nextClosure]. rewrite Hl2, Hl, Hn2.
    intros H. apply elem_of_cons in H as [->|H]; [cbn; lia|].
    apply list_elem_of_singleton in H as ->. cbn. lia.
  - cbn [listeners set_listeners nextClosure]. rewrite Hl2, Hl, Hn2, Hm2.
    cbn [app]. do 2 f_equal.
    apply handler_listeners_ext, map_el_id_init_thumbnails.
Qed.

Lemma V1_connected_listeners env children container s :
  listeners s = [] → 2 ≤ nextClosure s →
  listeners (V1.connectedCallback env children (Some container) s)
  = [ mkListener (mediaContainer s) "scroll" handleScroll_fn ]
    ++ handler_listeners (nextClosure s) 0
         (querySelectorAll sel_thumbnail container).
Proof.
  intros Hl Hn. unfold V1.connectedCallback.
  set (s2 := initializeThumbnails env (Some container)
               (V1.initializeSlides env children s)).
  assert (Hl2 : listeners s2 = listeners s) by (by destruct children).
  assert (Hn2 : nextClosure s2 = nextClosure s) by (by destruct children).
  assert (Hm2 : mediaContainer s2 = mediaContainer s)
    by (by destruct children).
  assert (Hb2 : thumbnailButtons s2
                = Some (imap (init_thumbnail env (imap init_slide children)
                                (nextNode s))
                          (querySelectorAll sel_thumbnail container)))
    by (by destruct children).
  clearbody s2.
  rewrite (addEventListener_fresh _ "scroll")
    by (intros l; rewrite Hl2, Hl; intros H; by apply not_elem_of_nil in H).
  unfold V1.addThumbnailHandlers, forEach.
  cbn [thumbnailButtons set_listeners listeners]. rewrite Hb2.
  match goal with
  | |- listeners (forEach_from 0 _ ?bs ?st) = _ =>
      destruct (forEach_from_handlers V1.add_handlers
                  (fun b k s0 H => conj (proj1 (V1_add_handlers_step b k s0 H))
                     (proj1 (proj2 (V1_add_handlers_step b k s0 H))))
                  bs 0 st) as [-> _]
  end.
  - intros l. cbn [listeners set_listeners nextClosure]. rewrite Hl2, Hl, Hn2.
    intros H. apply list_elem_of_singleton in H as ->. cbn. lia.
  - cbn [listeners set_listeners nextClosure]. rewrite Hl2, Hl, Hn2, Hm2.
    cbn [app]. f_equal.
    apply handler_listeners_ext, map_el_id_init_thumbnails.
Qed.

Lemma listeners_for_connected (pre : list Listener) on type base bs s :
  listeners s = pre ++ handler_listeners base 0 bs →
  (∀ l, l ∈ pre → String.eqb (l_type l) type = false) →
  listeners_for on type s
  = filter (fun l => Nat.eqb (l_target l) on && String.eqb (l_type l) type
                     = true)
           (handler_listeners base 0 bs).
Proof.
  intros Hl Hpre. unfold listeners_for. rewrite Hl, filter_app.
  replace (filter _ pre) with (@nil Listener); [done|].
  symmetry. clear Hl. induction pre as [|l pre IH]; [done|].
  rewrite filter_cons_False.
  - apply IH. intros l' Hl'. by apply Hpre, list_elem_of_further.
  - rewrite (Hpre l) by apply list_elem_of_here. by rewrite andb_false_r.
Qed.

(** X9. Thumbnail [j] drives slide [j]. On a newly made component attached
    to a document whose thumbnail buttons are distinct elements, a click on
    the button at position [j] does what [selectSlide(j)] does and a
    pointerenter does what [#loadSlideContent(j)] does, each once, in
    both variants. *)
Theorem thumbnail_events_reach_their_slide (env : Env)
    (children : list Element) (container : Element) (s : State) (j : nat)
    (b : Element) :
  listeners s = [] → 2 ≤ nextClosure s →
  NoDup (map el_id (querySelectorAll sel_thumbnail container)) →
  querySelectorAll sel_thumbnail container !! j = Some b →
  (let st := V1.connectedCallback env children (Some container) s in
   V1Run.dispatch env (el_id b) "click" st
   = V1.selectSlide env (num_of_nat j) default_options st ∧
   V1Run.dispatch env (el_id b) "pointerenter" st
   = loadSlideContent (num_of_nat j) st) ∧
  (let st := V2.connectedCallback env children (Some container) s in
   V2Run.dispatch (el_id b) "click" st
   = V2.selectSlide (num_of_nat j) default_options st ∧
   V2Run.dispatch (el_id b) "pointerenter" st
   = loadSlideContent (num_of_nat j) st).
Proof.
  intros Hl Hn Hnd Hj.
  destruct (handler_listeners_for (nextClosure s) 0 _ j b Hnd Hj) as [Hc Hp].
  split; cbv zeta.
  - pose proof (V1_connected_listeners env children container s Hl Hn) as HL.
    unfold V1Run.dispatch.
    rewrite (listeners_for_connected _ _ "click" _ _ _ HL), Hc.
    2:{ intros l Hin. apply list_elem_of_singleton in Hin as ->. done. }
    rewrite (listeners_for_connected _ _ "pointerenter" _ _ _ HL), Hp.
    2:{ intros l Hin. apply list_elem_of_singleton in Hin as ->. done. }
    done.
  - pose proof (V2_connected_listeners env children container s Hl Hn) as HL.
    unfold V2Run.dispatch.
    rewrite (listeners_for_connected _ _ "click" _ _ _ HL), Hc.
    2:{ intros l Hin. apply elem_of_cons in Hin as [->|Hin]; [done|].
        apply list_elem_of_singleton in Hin as ->. done. }
    rewrite (listeners_for_connected _ _ "pointerenter" _ _ _ HL), Hp.
    2:{ intros l Hin. apply elem_of_cons in Hin as [->|Hin]; [done|].
        apply list_elem_of_singleton in Hin as ->. done. }
    done.
Qed.

End Connected.

(** ** The first variant removes what it registered *)

Section RoundTrip.

Lemma same_listener_other_id on type cb l :
  fn_id (l_callback l) ≠ fn_id cb → same_listener on type cb l = false.
Proof.
  intros H. unfold same_listener.
  rewrite (proj2 (Nat.eqb_neq _ _) H). apply andb_false_r.
Qed.

Lemma closures_below_step b k s s' :
  listeners s' = listeners s ++ handler_listeners (nextClosure s) k [b] →
  nextClosure s' = S (S (nextClosure s)) →
  closures_below s → closures_below s'.
Proof.
  intros Hl Hn Hbelow l. rewrite Hl, Hn. intros Hin.
  apply elem_of_app in Hin as [Hin|Hin].
  - specialize (Hbelow l Hin). lia.
  - apply handler_listeners_ids in Hin. simpl in Hin. lia.
Qed.

(** The [Map] after registration: each button is a key for its own two
    function objects; other keys are as before. *)
Lemma V1_handlers_map bs :
  ∀ k s,
    closures_below s → NoDup (map el_id bs) →
    (∀ j b, bs !! j = Some b →
       thumbnailClickHandlers (forEach_from k V1.add_handlers bs s)
       !! el_id b
       = Some (click_closure (nextClosure s + 2 * j) (k + j),
               pointer_closure (nextClosure s + 2 * j) (k + j))) ∧
    (∀ key, key ∉ map el_id bs →
       thumbnailClickHandlers (forEach_from k V1.add_handlers bs s) !! key
       = thumbnailClickHandlers s !! key).
Proof.
  induction bs as [|b0 bs IH]; intros k s Hbelow Hnd; [done|].
  cbn [map] in Hnd. apply NoDup_cons in Hnd as [Hb0 Hnd].
  cbn [forEach_from].
  destruct (V1_add_handlers_step b0 k s Hbelow) as (Hl & Hn & Hm).
  pose proof (closures_below_step _ _ _ _ Hl Hn Hbelow) as Hbelow'.
  destruct (IH (S k) _ Hbelow' Hnd) as [Hin Hout].
  split.
  - intros [|j] b Hj.
    + injection Hj as ->. rewrite (Hout _ Hb0), Hm, lookup_insert_eq.
      do 3 f_equal; lia.
    + cbn in Hj. rewrite (Hin j b Hj), Hn. do 3 f_equal; lia.
  - intros key Hkey. cbn [map] in Hkey.
    apply not_elem_of_cons in Hkey as [Hne Hkey].
    by rewrite (Hout _ Hkey), Hm, lookup_insert_ne.
Qed.

(** Removal, button after button: every button finds its two function
    objects in the [Map] and its two listeners go. *)
Lemma V1_remove_all bs :
  ∀ base k s pre,
    listeners s = pre ++ handler_listeners base k bs →
    (∀ l, l ∈ pre → fn_id (l_callback l) < base) →
    NoDup (map el_id bs) →
    (∀ j b, bs !! j = Some b →
       thumbnailClickHandlers s !! el_id b
       = Some (click_closure (base + 2 * j) (k + j),
               pointer_closure (base + 2 * j) (k + j))) →
    listeners (forEach_from k V1.remove_handlers bs s) = pre.
Proof.
  induction bs as [|b0 bs IH]; intros base k s pre Hl Hpre Hnd Hmap.
  - cbn [forEach_from]. by rewrite Hl, app_nil_r.
  - cbn [map] in Hnd. apply NoDup_cons in Hnd as [Hb0 Hnd].
    cbn [forEach_from].
    pose proof (Hmap 0 b0 eq_refl) as H0.
    replace (base + 2 * 0) with base in H0 by lia.
    replace (k + 0) with k in H0 by lia.
    apply (IH (S (S base)) (S k)); [| |done|].
    + unfold V1.remove_handlers. rewrite H0.
      unfold removeEventListener.
      cbn [listeners set_listeners set_thumbnailClickHandlers].
      rewrite Hl. cbn [handler_listeners].
      set (clk := mkListener (el_id b0) "click" (click_closure base k)).
      set (ptr := mkListener (el_id b0) "pointerenter"
                    (pointer_closure base k)).
      set (rest := handler_listeners (S (S base)) (S k) bs).
      assert (Hrest : ∀ l, l ∈ rest → S (S base) ≤ fn_id (l_callback l)).
      { intros l Hin. apply handler_listeners_ids in Hin. lia. }
      assert (H1 : filter (fun l => same_listener (el_id b0) "click"
                                      (click_closure base k) l = false)
                     (pre ++ clk :: ptr :: rest)
                   = pre ++ ptr :: rest).
      { rewrite filter_app. rewrite (filter_keeps_all _ pre).
        2:{ intros l Hin. apply same_listener_other_id.
            specialize (Hpre l Hin). cbn. lia. }
        f_equal. rewrite filter_cons_False.
        2:{ unfold same_listener, clk. cbn. by rewrite !Nat.eqb_refl. }
        rewrite filter_cons_True
          by (apply same_listener_other_id; cbn; lia).
        f_equal. apply filter_keeps_all. intros l Hin.
        apply same_listener_other_id. specialize (Hrest l Hin). cbn. lia. }
      rewrite H1. rewrite filter_app. rewrite (filter_keeps_all _ pre).
      2:{ intros l Hin. apply same_listener_other_id.
          specialize (Hpre l Hin). cbn. lia. }
      f_equal. rewrite filter_cons_False.
      2:{ unfold same_listener, ptr. cbn. by rewrite !Nat.eqb_refl. }
      apply filter_keeps_all. intros l Hin.
      apply same_listener_other_id. specialize (Hrest l Hin). cbn. lia.
    + intros l Hin. specialize (Hpre l Hin). lia.
    + intros j b Hj. unfold V1.remove_handlers. rewrite H0.
      cbn [thumbnailClickHandlers set_thumbnailClickHandlers
           removeEventListener set_listeners].
      rewrite lookup_delete_ne.
      * rewrite (Hmap (S j) b Hj). do 3 f_equal; lia.
      * intros Heq. apply Hb0. rewrite Heq.
        apply list_elem_of_fmap. exists b. split; [done|].
        by eapply list_elem_of_lookup_2.
Qed.

Lemma V1_addThumbnailHandlers_mediaContainer s :
  mediaContainer (V1.addThumbnailHandlers s) = mediaContainer s.
Proof.
  unfold V1.addThumbnailHandlers, forEach.
  destruct (thumbnailButtons s) as [bs|]; [|done].
  apply (forEach_from_frame mediaContainer V1.add_handlers).
  intros b k s0. unfold V1.add_handlers, new_closure, addEventListener.
  by repeat destruct (existsb _ _).
Qed.

(** X10. The first variant removes what it registered: on a newly made
    component attached to a document whose thumbnail buttons are distinct
    elements, [disconnectedCallback] after [connectedCallback] leaves no
    listener at all. *)
Theorem V1_disconnect_removes_all_listeners (env : Env)
    (children : list Element) (container : Element) (s : State) :
  listeners s = [] → 2 ≤ nextClosure s →
  NoDup (map el_id (querySelectorAll sel_thumbnail container)) →
  listeners
    (V1.disconnectedCallback
       (V1.connectedCallback env children (Some container) s))
  = [].
Proof.
  intros Hl Hn Hnd.
  pose proof (V1_connected_listeners env children container s Hl Hn) as HL.
  set (bs := imap (init_thumbnail env (imap init_slide children) (nextNode s))
               (querySelectorAll sel_thumbnail container)).
  assert (Hids : map el_id bs
                 = map el_id (querySelectorAll sel_thumbnail container))
    by apply map_el_id_init_thumbnails.
  rewrite <- (handler_listeners_ext _ _ bs) in HL by done.
  assert (Hmap : ∀ j b, bs !! j = Some b →
            thumbnailClickHandlers
              (V1.connectedCallback env children (Some container) s)
            !! el_id b
            = Some (click_closure (nextClosure s + 2 * j) (0 + j),
                    pointer_closure (nextClosure s + 2 * j) (0 + j))).
  { unfold V1.connectedCallback, V1.addThumbnailHandlers, forEach.
    set (s2 := initializeThumbnails env (Some container)
                 (V1.initializeSlides env children s)).
    assert (Hl2 : listeners s2 = listeners s) by (by destruct children).
    assert (Hn2 : nextClosure s2 = nextClosure s) by (by destruct children).
    assert (Hb2 : thumbnailButtons s2 = Some bs) by (by destruct children).
    clearbody s2.
    rewrite (addEventListener_fresh _ "scroll")
      by (intros l; rewrite Hl2, Hl; intros H; by apply not_elem_of_nil in H).
    cbn [thumbnailButtons set_listeners]. rewrite Hb2.
    match goal with
    | |- ∀ j b, _ → thumbnailClickHandlers (forEach_from 0 _ _ ?st) !! _ = _ =>
        destruct (V1_handlers_map bs 0 st) as [Hin _]
    end.
    - intros l. cbn [listeners set_listeners nextClosure].
      rewrite Hl2, Hl, Hn2. intros H.
      apply list_elem_of_singleton in H as ->. cbn. lia.
    - by rewrite Hids.
    - intros j b Hj. rewrite (Hin j b Hj).
      cbn [nextClosure set_listeners]. by rewrite Hn2. }
  assert (Hbs : thumbnailButtons
                  (V1.connectedCallback env children (Some container) s)
                = Some bs).
  { unfold V1.connectedCallback.
    rewrite (proj2 (V1_addThumbnailHandlers_lists _)),
            (proj2 (addEventListener_lists _ _ _ _)).
    by destruct children. }
  assert (Hmc : mediaContainer
                  (V1.connectedCallback env children (Some container) s)
                = mediaContainer s).
  { unfold V1.connectedCallback.
    rewrite V1_addThumbnailHandlers_mediaContainer.
    unfold addEventListener. destruct (existsb _ _); by destruct children. }
  set (st := V1.connectedCallback env children (Some container) s) in *.
  clearbody st.
  unfold V1.disconnectedCallback. rewrite clear_scrollTimeout_listeners.
  unfold V1.removeThumbnailHandlers, forEach.
  cbn [thumbnailButtons removeEventListener set_listeners]. rewrite Hbs.
  apply (V1_remove_all bs (nextClosure s) 0).
  - unfold removeEventListener. cbn [listeners set_listeners].
    rewrite HL, Hmc. cbn [app].
    rewrite filter_cons_False.
    2:{ unfold same_listener. cbn. by rewrite Nat.eqb_refl. }
    apply filter_keeps_all. intros l Hin. apply same_listener_other_id.
    apply handler_listeners_ids in Hin. cbn. lia.
  - intros l Hin. by apply not_elem_of_nil in Hin.
  - by rewrite Hids.
  - exact Hmap.
Qed.

End RoundTrip.

Section RoundTripWitnesses.

Lemma sample_buttons_NoDup :
  NoDup (map el_id (querySelectorAll sel_thumbnail (sample_thumbnails 50 3))).
Proof.
  apply (bool_decide_unpack
           (NoDup (map el_id (querySelectorAll sel_thumbnail
                                (sample_thumbnails 50 3))))).
  by vm_compute.
Qed.

Lemma thumbnail_events_reach_their_slide_witness :
  listeners (new_component 1 100) = [] ∧
  2 ≤ nextClosure (new_component 1 100) ∧
  NoDup (map el_id (querySelectorAll sel_thumbnail (sample_thumbnails 50 3))) ∧
  querySelectorAll sel_thumbnail (sample_thumbnails 50 3) !! 1
  = Some (default lazy_slide
            (querySelectorAll sel_thumbnail (sample_thumbnails 50 3) !! 1)) ∧
  V2Run.dispatch
    (el_id (default lazy_slide
              (querySelectorAll sel_thumbnail (sample_thumbnails 50 3) !! 1)))
    "click" (attached2 3)
  = V2.selectSlide (num_of_nat 1) default_options (attached2 3).
Proof.
  assert (H1 : listeners (new_component 1 100) = []) by reflexivity.
  assert (H2 : 2 ≤ nextClosure (new_component 1 100)) by (cbn; lia).
  pose proof sample_buttons_NoDup as H3.
  assert (H4 : querySelectorAll sel_thumbnail (sample_thumbnails 50 3) !! 1
               = Some (default lazy_slide
                         (querySelectorAll sel_thumbnail
                            (sample_thumbnails 50 3) !! 1)))
    by (by vm_compute).
  split; [exact H1|]. split; [exact H2|]. split; [exact H3|].
  split; [exact H4|].
  exact (proj1 (proj2 (thumbnail_events_reach_their_slide sample_env
                         (sample_slides 10 3) (sample_thumbnails 50 3)
                         (new_component 1 100) 1 _ H1 H2 H3 H4))).
Defined.

Lemma V1_disconnect_removes_all_listeners_witness :
  listeners (new_component 1 100) = [] ∧
  2 ≤ nextClosure (new_component 1 100) ∧
  NoDup (map el_id (querySelectorAll sel_thumbnail (sample_thumbnails 50 3))) ∧
  listeners (V1.disconnectedCallback (attached1 3)) = [].
Proof.
  assert (H1 : listeners (new_component 1 100) = []) by reflexivity.
  assert (H2 : 2 ≤ nextClosure (new_component 1 100)) by (cbn; lia).
  pose proof sample_buttons_NoDup as H3.
  split; [exact H1|]. split; [exact H2|]. split; [exact H3|].
  exact (V1_disconnect_removes_all_listeners sample_env (sample_slides 10 3)
           (sample_thumbnails 50 3) (new_component 1 100) H1 H2 H3).
Defined.

End RoundTripWitnesses.

(** ** The second variant removes nothing from the thumbnails *)

Section NoRoundTrip.

Lemma V2_connected_nextClosure env children container s :
  listeners s = [] → 2 ≤ nextClosure s →
  nextClosure (V2.connectedCallback env children (Some container) s)
  = nextClosure s
    + 2 * length (querySelectorAll sel_thumbnail container).
Proof.
  intros Hl Hn. unfold V2.connectedCallback.
  set (s2 := initializeThumbnails env (Some container)
               (V2.initializeSlides children s)).
  assert (Hl2 : listeners s2 = listeners s) by reflexivity.
  assert (Hn2 : nextClosure s2 = nextClosure s) by reflexivity.
  assert (Hb2 : thumbnailButtons s2
                = Some (imap (init_thumbnail env (imap init_slide children)
                                (nextNode s))
                          (querySelectorAll sel_thumbnail container)))
    by reflexivity.
  clearbody s2.
  rewrite (addEventListener_fresh _ "scroll")
    by (intros l; rewrite Hl2, Hl; intros H; by apply not_elem_of_nil in H).
  cbn [mediaContainer set_listeners].
  rewrite (addEventListener_fresh _ "wheel").
  2:{ intros l. cbn [listeners set_listeners]. rewrite Hl2, Hl.
      intros H. apply list_elem_of_singleton in H as ->. cbn. lia. }
  unfold V2.addThumbnailHandlers, forEach.
  cbn [thumbnailButtons set_listeners listeners]. rewrite Hb2.
  match goal with
  | |- nextClosure (forEach_from 0 _ ?bs ?st) = _ =>
      destruct (forEach_from_handlers V2.add_handlers V2_add_handlers_step
                  bs 0 st) as [_ ->]
  end.
  - intros l. cbn [listeners set_listeners nextClosure]. rewrite Hl2, Hl, Hn2.
    intros H. apply elem_of_cons in H as [->|H]; [cbn; lia|].
    apply list_elem_of_singleton in H as ->. cbn. lia.
  - cbn [nextClosure set_listeners]. by rewrite Hn2, length_imap.
Qed.

(** X11. In the second variant the thumbnail listeners survive removal on
    every document: after [connectedCallback] and [disconnectedCallback]
    on a newly made component, the click and pointerenter listeners of
    all thumbnail buttons are registered exactly as [connectedCallback]
    left them, and only the two listeners of the media container are
    gone. *)
Theorem V2_disconnect_keeps_all_thumbnail_listeners (env : Env)
    (children : list Element) (container : Element) (s : State) :
  listeners s = [] → 2 ≤ nextClosure s →
  listeners (V2.connectedCallback env children (Some container) s)
  = [ mkListener (mediaContainer s) "scroll" handleScroll_fn;
      mkListener (mediaContainer s) "wheel" handleWheel_fn ]
    ++ handler_listeners (nextClosure s) 0
         (querySelectorAll sel_thumbnail container) ∧
  listeners
    (V2.disconnectedCallback
       (V2.connectedCallback env children (Some container) s))
  = handler_listeners (nextClosure s) 0
      (querySelectorAll sel_thumbnail container).
Proof.
  intros Hl Hn.
  pose proof (V2_connected_listeners env children container s Hl Hn) as HL.
  pose proof (V2_connected_nextClosure env children container s Hl Hn) as HN.
  split; [exact HL|].
  assert (Hmc : mediaContainer
                  (V2.connectedCallback env children (Some container) s)
                = mediaContainer s).
  { unfold V2.connectedCallback, V2.addThumbnailHandlers, forEach.
    match goal with
    | |- mediaContainer (match ?x with _ => _ end) = _ => destruct x
    end.
    - rewrite (forEach_from_frame mediaContainer V2.add_handlers).
      + unfold addEventListener. by repeat destruct (existsb _ _).
      + intros b k s0. unfold V2.add_handlers, new_closure, addEventListener.
        by repeat destruct (existsb _ _).
    - unfold addEventListener. by repeat destruct (existsb _ _). }
  set (st := V2.connectedCallback env children (Some container) s) in *.
  clearbody st.
  unfold V2.disconnectedCallback. rewrite clear_scrollTimeout_listeners.
  rewrite V2_removeThumbnailHandlers_keeps.
  - unfold removeEventListener. cbn [listeners set_listeners mediaContainer].
    rewrite HL, Hmc. cbn [app].
    set (hs := handler_listeners (nextClosure s) 0
                 (querySelectorAll sel_thumbnail container)).
    assert (Hhs : ∀ l, l ∈ hs → 2 ≤ fn_id (l_callback l)).
    { intros l Hin. apply handler_listeners_ids in Hin. lia. }
    assert (H1 : filter (fun l => same_listener (mediaContainer s) "scroll"
                                    handleScroll_fn l = false)
                   (mkListener (mediaContainer s) "scroll" handleScroll_fn
                    :: mkListener (mediaContainer s) "wheel" handleWheel_fn
                    :: hs)
                 = mkListener (mediaContainer s) "wheel" handleWheel_fn :: hs).
    { rewrite filter_cons_False.
      2:{ unfold same_listener. cbn. by rewrite Nat.eqb_refl. }
      rewrite filter_cons_True by (apply same_listener_other_id; cbn; lia).
      f_equal. apply filter_keeps_all. intros l Hin.
      apply same_listener_other_id. specialize (Hhs l Hin). cbn. lia. }
    rewrite H1. rewrite filter_cons_False.
    2:{ unfold same_listener. cbn. by rewrite Nat.eqb_refl. }
    apply filter_keeps_all. intros l Hin.
    apply same_listener_other_id. specialize (Hhs l Hin). cbn. lia.
  - intros l Hin.
    apply removeEventListener_sub in Hin as [Hin _].
    apply removeEventListener_sub in Hin as [Hin _].
    cbn [nextClosure removeEventListener set_listeners].
    rewrite HL in Hin. rewrite HN.
    apply elem_of_cons in Hin as [->|Hin]; [cbn; lia|].
    apply elem_of_cons in Hin as [->|Hin]; [cbn; lia|].
    apply handler_listeners_ids in Hin. lia.
Qed.

Lemma V2_disconnect_keeps_all_thumbnail_listeners_witness :
  listeners (new_component 1 100) = [] ∧
  2 ≤ nextClosure (new_component 1 100) ∧
  listeners (V2.disconnectedCallback (attached2 3))
  = handler_listeners 2 0
      (querySelectorAll sel_thumbnail (sample_thumbnails 50 3)).
Proof.
  assert (H1 : listeners (new_component 1 100) = []) by reflexivity.
  assert (H2 : 2 ≤ nextClosure (new_component 1 100)) by (cbn; lia).
  split; [exact H1|]. split; [exact H2|].
  exact (proj2 (V2_disconnect_keeps_all_thumbnail_listeners sample_env
                  (sample_slides 10 3) (sample_thumbnails 50 3)
                  (new_component 1 100) H1 H2)).
Defined.

End NoRoundTrip.

(** ** The wheel moves one slide at most *)

Section WheelStep.

(** X12. The current index is always a position the component can select:
    below [slideCount] when there are slides, and 0 when there are none or
    the slide list is absent. *)
Theorem currentIndex_in_range (env : Env) (s : State) :
  (0 < slideCount s → V2.currentIndex env s < slideCount s) ∧
  (slideCount s = 0 → V2.currentIndex env s = 0).
Proof.
  split.
  - unfold slideCount, V2.currentIndex.
    destruct (slides s) as [sl|] eqn:Hs; [|lia]. intros Hn.
    destruct (getCurrentSlideIndex_holds env s sl Hs) as (d & Hheld & _).
    { destruct sl; [simpl in Hn; lia|done]. }
    destruct Hheld as [[-> _]|(e & He & _)]; [done|].
    by eapply lookup_lt_Some.
  - unfold slideCount, V2.currentIndex, V2.getCurrentSlideIndex.
    destruct (slides s) as [[|x rest]|]; simpl; [done|lia|done].
Qed.

Lemma currentIndex_in_range_witness :
  (0 < slideCount (attached2 5) ∧
   V2.currentIndex (centred_env 14) (attached2 5) < slideCount (attached2 5)) ∧
  (slideCount (new_component 1 100) = 0 ∧
   V2.currentIndex sample_env (new_component 1 100) = 0).
Proof.
  assert (H1 : 0 < slideCount (attached2 5)) by (vm_compute; lia).
  assert (H2 : slideCount (new_component 1 100) = 0) by reflexivity.
  split.
  - split; [exact H1|].
    exact (proj1 (currentIndex_in_range (centred_env 14) (attached2 5)) H1).
  - split; [exact H2|].
    exact (proj2 (currentIndex_in_range sample_env (new_component 1 100)) H2).
Defined.

(** X13. A wheel event never jumps: [handleWheel] either leaves the state
    as it is or selects, smoothly, a slide that exists and is next to the
    current one.  It leaves the state as it is while the flag is up, on a
    positive [deltaY] at the last slide and on any other [deltaY] at the
    first slide, the default scroll being prevented all the same. *)
Theorem handleWheel_one_step (env : Env) (deltaY : Q) (s : State) :
  let current := V2.currentIndex env s in
  let s' := (V2.handleWheel env deltaY s).2 in
  (s' = s ∨
   ∃ k, (k = current + 1 ∨ k + 1 = current) ∧ k < slideCount s ∧
        s' = V2.selectSlide (num_of_nat k) (mkOptions (Some "smooth")) s ∧
        selection_result k s s') ∧
  (prefersReducedMotion env = false → isScrolling s = true →
   V2.handleWheel env deltaY s = (true, s)) ∧
  (prefersReducedMotion env = false → (0 < deltaY)%Q →
   current + 1 = slideCount s →
   V2.handleWheel env deltaY s = (true, s)) ∧
  (prefersReducedMotion env = false → ¬ (0 < deltaY)%Q → current = 0 →
   V2.handleWheel env deltaY s = (true, s)).
Proof.
  intros current s'. subst s'.
  assert (Hb : 0 < slideCount s → current < slideCount s)
    by apply getCurrentSlideIndex_bound.
  unfold V2.handleWheel. fold (V2.currentIndex env s). fold current.
  split; [|split; [|split]].
  - destruct (prefersReducedMotion env); [by left|].
    destruct (isScrolling s); [by left|].
    destruct (slides s) as [sl|] eqn:Hs; [|by left].
    rewrite (slideCount_Some _ _ Hs) in *.
    destruct (Nat.leb_spec (length sl) 1) as [Hle|Hgt]; [by left|].
    set (nextIndex := Z.max 0 (Z.min (Z.of_nat (length sl) - 1) _)).
    destruct (Z.eqb_spec nextIndex (Z.of_nat current)) as [Heq|Hne];
      [by left|].
    right. cbn [snd]. exists (Z.to_nat nextIndex).
    assert (Hcur : current < length sl) by (apply Hb; lia).
    assert (Hk : (0 <= nextIndex)%Z) by (unfold nextIndex; lia).
    assert (Hnum : num_of_Z nextIndex = num_of_nat (Z.to_nat nextIndex)).
    { unfold num_of_nat. f_equal. lia. }
    assert (Hlt : Z.to_nat nextIndex < length sl)
      by (unfold nextIndex; lia).
    split; [|split; [done|split; [by rewrite Hnum|]]].
    + unfold nextIndex in *. destruct (Qlt_bool 0 deltaY); lia.
    + rewrite Hnum. apply V2_selection_result.
      by rewrite (slideCount_Some _ _ Hs).
  - by intros -> ->.
  - intros -> Hpos Hlast.
    destruct (isScrolling s); [done|].
    destruct (slides s) as [sl|] eqn:Hs; [|done].
    rewrite (slideCount_Some _ _ Hs) in *.
    destruct (_ <=? 1); [done|].
    assert (Hq : Qlt_bool 0 deltaY = true).
    { unfold Qlt_bool. apply negb_true_iff.
      destruct (Qle_bool deltaY 0) eqn:E; [|done].
      apply Qle_bool_iff in E. by apply Qlt_not_le in Hpos. }
    rewrite Hq.
    match goal with
    | |- context [ (?a =? ?b)%Z ] => destruct (Z.eqb_spec a b); [done|lia]
    end.
  - intros -> Hneg Hfirst.
    destruct (isScrolling s); [done|].
    destruct (slides s) as [sl|] eqn:Hs; [|done].
    destruct (_ <=? 1); [done|].
    assert (Hq : Qlt_bool 0 deltaY = false).
    { destruct (Qlt_bool 0 deltaY) eqn:E; [|done].
      by apply Qlt_bool_true in E. }
    rewrite Hq, Hfirst.
    match goal with
    | |- context [ (?a =? ?b)%Z ] => destruct (Z.eqb_spec a b); [done|lia]
    end.
Qed.

Lemma handleWheel_one_step_witness :
  (prefersReducedMotion sample_env = false ∧
   isScrolling (V2.selectSlide (num_of_nat 1) default_options (attached2 5))
   = true ∧
   V2.handleWheel sample_env 1
     (V2.selectSlide (num_of_nat 1) default_options (attached2 5))
   = (true, V2.selectSlide (num_of_nat 1) default_options (attached2 5))) ∧
  ((0 < 1)%Q ∧
   V2.currentIndex (centred_env 14) (attached2 5) + 1
   = slideCount (attached2 5) ∧
   V2.handleWheel (centred_env 14) 1 (attached2 5) = (true, attached2 5)) ∧
  (¬ (0 < -1)%Q ∧
   V2.currentIndex (centred_env 10) (attached2 5) = 0 ∧
   V2.handleWheel (centred_env 10) (-1) (attached2 5) = (true, attached2 5)).
Proof.
  assert (Hm : ∀ on, prefersReducedMotion (centred_env on) = false)
    by reflexivity.
  assert (H1 : isScrolling
                 (V2.selectSlide (num_of_nat 1) default_options (attached2 5))
               = true) by (by vm_compute).
  assert (H2 : (0 < 1)%Q) by reflexivity.
  assert (H3 : V2.currentIndex (centred_env 14) (attached2 5) + 1
               = slideCount (attached2 5)) by (by vm_compute).
  assert (H4 : ¬ (0 < -1)%Q) by (intros H; discriminate H).
  assert (H5 : V2.currentIndex (centred_env 10) (attached2 5) = 0)
    by (by vm_compute).
  split; [|split].
  - split; [reflexivity|]. split; [exact H1|].
    exact (proj1 (proj2 (handleWheel_one_step sample_env 1 _))
             eq_refl H1).
  - split; [exact H2|]. split; [exact H3|].
    exact (proj1 (proj2 (proj2
             (handleWheel_one_step (centred_env 14) 1 (attached2 5))))
             (Hm 14) H2 H3).
  - split; [exact H4|]. split; [exact H5|].
    exact (proj2 (proj2 (proj2
             (handleWheel_one_step (centred_env 10) (-1) (attached2 5))))
             (Hm 10) H4 H5).
Defined.

End WheelStep.

(** ** What attaching sets up *)

Section AttachMore.

Lemma initializeThumbnails_slides env thumbnails s :
  slides (initializeThumbnails env thumbnails s) = slides s ∧
  slideHeight (initializeThumbnails env thumbnails s) = slideHeight s.
Proof.
  unfold initializeThumbnails. destruct thumbnails; [|done].
  destruct (slides s) as [sl|] eqn:Hs; [|by rewrite Hs].
  cbn [slides slideHeight set_nextNode set_thumbnailButtons].
  by rewrite Hs.
Qed.

Lemma V1_connected_slides env children thumbnails s :
  slides (V1.connectedCallback env children thumbnails s)
  = Some (imap init_slide children).
Proof.
  unfold V1.connectedCallback.
  rewrite (proj1 (V1_addThumbnailHandlers_lists _)),
          (proj1 (addEventListener_lists _ _ _ _)),
          (proj1 (initializeThumbnails_slides _ _ _)).
  by destruct children.
Qed.

Lemma V2_connected_slides env children thumbnails s :
  slides (V2.connectedCallback env children thumbnails s)
  = Some (imap init_slide children).
Proof.
  unfold V2.connectedCallback.
  by rewrite (proj1 (V2_addThumbnailHandlers_lists _)),
             !(proj1 (addEventListener_lists _ _ _ _)),
             (proj1 (initializeThumbnails_slides _ _ _)).
Qed.

Lemma indexed_slide_init_slide j c : indexed_slide j c (init_slide j c).
Proof.
  unfold indexed_slide, init_slide, aria_hidden, getAttribute.
  destruct (Nat.eqb j 0); cbn [setAttribute el_id el_tag el_text el_children
                               el_attrs];
    (repeat split; try done;
     [ by rewrite lookup_insert_ne, lookup_insert_eq
     | by rewrite lookup_insert_eq
     | intros n Hn1 Hn2; by rewrite !lookup_insert_ne ]).
Qed.

(** X14. Attaching makes the children of the media container the slides,
    in order and all of them: each keeps its identity, its content and
    its other attributes, gets its position as [data-slide-index], and
    gets [aria-hidden], ["false"] for the first and ["true"] for the
    others.  This holds in both variants, with or without a thumbnails
    container. *)
Theorem connectedCallback_indexes_slides (env : Env)
    (children : list Element) (thumbnails : option Element) (s : State) :
  (slideCount (V1.connectedCallback env children thumbnails s)
   = length children ∧
   ∀ j c, children !! j = Some c →
     ∃ e, slide_at (V1.connectedCallback env children thumbnails s) j
          = Some e ∧ indexed_slide j c e) ∧
  (slideCount (V2.connectedCallback env children thumbnails s)
   = length children ∧
   ∀ j c, children !! j = Some c →
     ∃ e, slide_at (V2.connectedCallback env children thumbnails s) j
          = Some e ∧ indexed_slide j c e).
Proof.
  split.
  - unfold slideCount, slide_at. rewrite V1_connected_slides.
    split; [apply length_imap|]. intros j c Hc.
    exists (init_slide j c). cbn [mbind option_bind].
    rewrite list_lookup_imap, Hc. split; [done|].
    apply indexed_slide_init_slide.
  - unfold slideCount, slide_at. rewrite V2_connected_slides.
    split; [apply length_imap|]. intros j c Hc.
    exists (init_slide j c). cbn [mbind option_bind].
    rewrite list_lookup_imap, Hc. split; [done|].
    apply indexed_slide_init_slide.
Qed.

Lemma connectedCallback_indexes_slides_witness :
  sample_slides 10 3 !! 2 = Some (plain 12 "div" [] []) ∧
  ∃ e, slide_at (attached2 3) 2 = Some e ∧
       indexed_slide 2 (plain 12 "div" [] []) e.
Proof.
  assert (H : sample_slides 10 3 !! 2 = Some (plain 12 "div" [] []))
    by reflexivity.
  split; [exact H|].
  exact (proj2 (proj2 (connectedCallback_indexes_slides sample_env
                         (sample_slides 10 3)
                         (Some (sample_thumbnails 50 3))
                         (new_component 1 100))) 2 _ H).
Defined.

Lemma V1_connected_slideHeight env first rest thumbnails s :
  slideHeight (V1.connectedCallback env (first :: rest) thumbnails s)
  = Some (offsetHeight env (el_id first)).
Proof.
  unfold V1.connectedCallback, V1.addThumbnailHandlers, forEach.
  match goal with
  | |- slideHeight (match ?x with _ => _ end) = _ => destruct x
  end.
  - rewrite (forEach_from_frame slideHeight V1.add_handlers).
    + unfold addEventListener. destruct (existsb _ _);
        cbn [slideHeight set_listeners];
        by rewrite (proj2 (initializeThumbnails_slides _ _ _)).
    + intros b k s0. unfold V1.add_handlers, new_closure, addEventListener.
      by repeat destruct (existsb _ _).
  - unfold addEventListener. destruct (existsb _ _);
      cbn [slideHeight set_listeners];
      by rewrite (proj2 (initializeThumbnails_slides _ _ _)).
Qed.

(** X15. The first variant scrolls by the height of the first slide as it
    was measured at attach: when that height is not 0, selecting slide
    [i] asks for the offset [i] times that height, whatever the layout is
    by then and whatever the heights of the other slides; the offset is
    assigned directly for ['instant'] and requested smoothly for any other
    behaviour. *)
Theorem V1_scrolls_by_cached_height (env env' : Env) (first : Element)
    (rest : list Element) (thumbnails : option Element) (s : State)
    (i : nat) (o : Options) :
  let st := V1.connectedCallback env (first :: rest) thumbnails s in
  let top := Fin (inject_Z (Z.of_nat i)
                  * inject_Z (offsetHeight env (el_id first))) in
  i < S (length rest) → offsetHeight env (el_id first) ≠ 0%Z →
  scrolls (V1.selectSlide env' (num_of_nat i) o st)
  = scrolls st
    ++ [if decide (behavior o = Some "instant") then SetScrollTop top
        else ScrollTo top "smooth"].
Proof.
  intros st top Hi Hh.
  assert (Hs : slides st = Some (imap init_slide (first :: rest)))
    by apply V1_connected_slides.
  assert (Hi' : i < slideCount st).
  { rewrite (slideCount_Some _ _ Hs), length_imap. simpl. lia. }
  destruct (valid_index_slide st i Hi') as (sl & t & Hsl & Ht).
  rewrite (V1_select_accept env' _ _ o _ _ _ Hsl (js_array_index_nat i) Ht).
  unfold selected_state. cbn [scrolls]. f_equal. f_equal.
  unfold V1_scroll, V1.height_or, is_instant.
  unfold st at 1 2. rewrite V1_connected_slideHeight.
  destruct (Z.eqb_spec (offsetHeight env (el_id first)) 0); [done|].
  destruct (decide (behavior o = Some "instant")) as [Hb|Hb].
  - by rewrite bool_decide_eq_true_2.
  - by rewrite bool_decide_eq_false_2.
Qed.

Lemma V1_scrolls_by_cached_height_witness :
  2 < S (length (sample_slides 11 4)) ∧
  offsetHeight sample_env (el_id (plain 10 "div" [] [])) ≠ 0%Z ∧
  scrolls (V1.selectSlide (centred_env 12) (num_of_nat 2) instant
             (V1.connectedCallback sample_env
                (plain 10 "div" [] [] :: sample_slides 11 4) None
                (new_component 1 100)))
  = [SetScrollTop (Fin (inject_Z 2 * inject_Z 400))].
Proof.
  assert (H1 : 2 < S (length (sample_slides 11 4))) by (cbn; lia).
  assert (H2 : offsetHeight sample_env (el_id (plain 10 "div" [] []))
               ≠ 0%Z) by discriminate.
  split; [exact H1|]. split; [exact H2|].
  exact (V1_scrolls_by_cached_height sample_env (centred_env 12)
           (plain 10 "div" [] []) (sample_slides 11 4) None
           (new_component 1 100) 2 instant H1 H2).
Defined.

End AttachMore.

(** ** What a selection leaves alone *)

Section OnlyAria.

Lemma same_but_mark_hidden k j e : same_but "aria-hidden" e (mark_hidden k j e).
Proof.
  unfold same_but, mark_hidden, getAttribute.
  cbn [setAttribute el_id el_tag el_attrs].
  repeat split. intros n Hn. by rewrite lookup_insert_ne.
Qed.

Lemma same_but_forEach_selected name sel f e e' :
  same_but name e e' → same_but name e (forEach_selected sel f e').
Proof.
  unfold same_but, getAttribute. intros (Hid & Htag & Hprops & Hattrs).
  rewrite forEach_selected_attrs, forEach_selected_id.
  split; [done|]. split; [by destruct e'|]. split; [by destruct e'|done].
Qed.

Lemma only_aria_written_selected_state a index k o t sl s :
  slides s = Some sl → sl !! k = Some t →
  only_aria_written k s (selected_state a index k o t sl s).
Proof.
  intros Hs Ht. split; [|split; [|done]].
  - intros j e He. rewrite selected_state_slide_at by done.
    rewrite (slide_at_Some _ _ _ Hs) in He. rewrite He.
    cbn [fmap option_fmap option_map].
    destruct (Nat.eqb j k); eexists; (split; [done|]).
    + apply same_but_forEach_selected, same_but_mark_hidden.
    + apply same_but_mark_hidden.
  - intros j b Hb. rewrite selected_state_button_at, Hb.
    cbn [fmap option_fmap option_map]. unfold mark_selected.
    by destruct (Nat.eqb j k).
Qed.

(** X16. An accepted [selectSlide] writes [aria-hidden] on the slides and
    [aria-selected] on the thumbnail buttons and nothing else on them:
    every slide keeps its identity and every other attribute, among them
    [data-slide-index]; every thumbnail button is what it was but for
    [aria-selected]; no listener is registered or removed. *)
Theorem selectSlide_writes_only_aria (env : Env) (i : nat) (o : Options)
    (s : State) :
  i < slideCount s →
  only_aria_written i s (V1.selectSlide env (num_of_nat i) o s) ∧
  only_aria_written i s (V2.selectSlide (num_of_nat i) o s).
Proof.
  intros Hi. destruct (valid_index_slide s i Hi) as (sl & t & Hs & Ht).
  rewrite (V1_select_accept env _ _ o _ _ _ Hs (js_array_index_nat i) Ht).
  rewrite (V2_select_accept _ _ o _ _ _ Hs (js_array_index_nat i) Ht).
  split; by apply only_aria_written_selected_state.
Qed.

Lemma selectSlide_writes_only_aria_witness :
  1 < slideCount (attached2 3) ∧
  only_aria_written 1 (attached2 3)
    (V2.selectSlide (num_of_nat 1) default_options (attached2 3)).
Proof.
  assert (H : 1 < slideCount (attached2 3)) by (vm_compute; lia).
  split; [exact H|].
  exact (proj2 (selectSlide_writes_only_aria sample_env 1 default_options
                  (attached2 3) H)).
Defined.

End OnlyAria.

(** ** What the thumbnails show *)

Section Thumbnails.





Lemma V1_connected_buttons env children container s :
  thumbnailButtons (V1.connectedCallback env children (Some container) s)
  = Some (imap (init_thumbnail env (imap init_slide children) (nextNode s))
               (querySelectorAll sel_thumbnail container)).
Proof.
  unfold V1.connectedCallback.
  rewrite (proj2 (V1_addThumbnailHandlers_lists _)),
          (proj2 (addEventListener_lists _ _ _ _)).
  by destruct children.
Qed.

Lemma V2_connected_buttons env children container s :
  thumbnailButtons (V2.connectedCallback env children (Some container) s)
  = Some (imap (init_thumbnail env (imap init_slide children) (nextNode s))
               (querySelectorAll sel_thumbnail container)).
Proof.
  unfold V2.connectedCallback.
  by rewrite (proj2 (V2_addThumbnailHandlers_lists _)),
             !(proj2 (addEventListener_lists _ _ _ _)).
Qed.



(** The generated image carries the resolved URL, not the text of the
    attribute it was made from. *)
Example thumbnail_source_resolved :
  (button_at
     (V2.connectedCallback sample_env [marked_slide; image_slide]
        (Some (sample_thumbnails 50 2)) (new_component 1 100)) 1
   ≫= fun b => head (el_children b) ≫= getAttribute "src")
  = Some "https://shop.example/side.png".
Proof. by vm_compute. Qed.

End Thumbnails.

(** ** The two variants side by side *)

Section Variants.

(** X18. The two variants of [selectSlide] differ in the scroll request
    and in nothing else: for every index and every options object they
    accept or ignore the call together, write the same attributes, raise
    the same flag, schedule the same timer and dispatch the same event,
    and each issues as many scroll requests as the other. *)
Theorem selectSlide_variants_differ_in_scroll (env : Env) (index : JsNum)
    (o : Options) (s : State) :
  set_scrolls [] (V1.selectSlide env index o s)
  = set_scrolls [] (V2.selectSlide index o s) ∧
  length (scrolls (V1.selectSlide env index o s))
  = length (scrolls (V2.selectSlide index o s)) ∧
  (V1.selectSlide env index o s = s ↔ V2.selectSlide index o s = s).
Proof.
  destruct (V1_select_cases env index o s)
    as [H1|(k & t & sl & Hs & Hk & Ht & H1)].
  - destruct (V2_select_cases index o s)
      as [H2|(k & t & sl & Hs & Hk & Ht & H2)].
    + by rewrite H1, H2.
    + rewrite (V1_select_accept env _ _ o _ _ _ Hs Hk Ht) in H1.
      by apply timers_selected_state_neq in H1.
  - rewrite H1, (V2_select_accept _ _ o _ _ _ Hs Hk Ht).
    split; [done|]. split.
    + unfold selected_state. cbn [scrolls]. by rewrite !length_app.
    + split; intros H; by apply timers_selected_state_neq in H.
Qed.

Lemma selectSlide_variants_differ_in_scroll_witness :
  V1.selectSlide sample_env (num_of_nat 7) instant (attached1 3)
  = attached1 3 ∧
  V2.selectSlide (num_of_nat 7) instant (attached1 3) = attached1 3.
Proof.
  assert (H : V1.selectSlide sample_env (num_of_nat 7) instant (attached1 3)
              = attached1 3) by (by vm_compute).
  split; [exact H|].
  exact (proj1 (proj2 (proj2 (selectSlide_variants_differ_in_scroll
                                sample_env (num_of_nat 7) instant
                                (attached1 3)))) H).
Defined.

(** X19. When the first slide had no height as the component was attached,
    the cached height is 0 and counts as missing: the first variant then
    scrolls the media container to the index times the height the target
    slide has at the time of the call. *)
Theorem V1_scrolls_by_target_height (env env' : Env) (first : Element)
    (rest : list Element) (thumbnails : option Element) (s : State)
    (i : nat) (c : Element) (o : Options) :
  let st := V1.connectedCallback env (first :: rest) thumbnails s in
  let top := Fin (inject_Z (Z.of_nat i)
                  * inject_Z (offsetHeight env' (el_id c))) in
  (first :: rest) !! i = Some c → offsetHeight env (el_id first) = 0%Z →
  scrolls (V1.selectSlide env' (num_of_nat i) o st)
  = scrolls st
    ++ [if decide (behavior o = Some "instant") then SetScrollTop top
        else ScrollTo top "smooth"].
Proof.
  intros st top Hc Hh.
  assert (Hs : slides st = Some (imap init_slide (first :: rest)))
    by apply V1_connected_slides.
  assert (Ht : imap init_slide (first :: rest) !! i = Some (init_slide i c))
    by (by rewrite list_lookup_imap, Hc).
  rewrite (V1_select_accept env' _ _ o _ _ _ Hs (js_array_index_nat i) Ht).
  unfold selected_state. cbn [scrolls]. f_equal. f_equal.
  unfold V1_scroll, V1.height_or, is_instant.
  unfold st at 1 2. rewrite V1_connected_slideHeight, Hh.
  cbn [Z.eqb].
  rewrite (proj1 (indexed_slide_init_slide i c)).
  destruct (decide (behavior o = Some "instant")) as [Hb|Hb].
  - by rewrite bool_decide_eq_true_2.
  - by rewrite bool_decide_eq_false_2.
Qed.

Lemma V1_scrolls_by_target_height_witness :
  (plain 10 "div" [] [] :: sample_slides 11 4) !! 2
  = Some (plain 12 "div" [] []) ∧
  offsetHeight
    (mkEnv (fun _ => 0%Z) (getBoundingClientRect sample_env) false
           sample_resolve)
    (el_id (plain 10 "div" [] [])) = 0%Z ∧
  scrolls (V1.selectSlide sample_env (num_of_nat 2) default_options
             (V1.connectedCallback
                (mkEnv (fun _ => 0%Z) (getBoundingClientRect sample_env) false
                       sample_resolve)
                (plain 10 "div" [] [] :: sample_slides 11 4) None
                (new_component 1 100)))
  = [ScrollTo (Fin (inject_Z 2 * inject_Z 400)) "smooth"].
Proof.
  assert (H1 : (plain 10 "div" [] [] :: sample_slides 11 4) !! 2
               = Some (plain 12 "div" [] [])) by reflexivity.
  assert (H2 : offsetHeight
                 (mkEnv (fun _ => 0%Z) (getBoundingClientRect sample_env)
                    false sample_resolve)
                 (el_id (plain 10 "div" [] [])) = 0%Z) by reflexivity.
  split; [exact H1|]. split; [exact H2|].
  exact (V1_scrolls_by_target_height
           (mkEnv (fun _ => 0%Z) (getBoundingClientRect sample_env) false
                  sample_resolve)
           sample_env (plain 10 "div" [] []) (sample_slides 11 4) None
           (new_component 1 100) 2 _ default_options H1 H2).
Defined.

End Variants.

(** ** Thumbnails without a slide *)

Section SpareThumbnails.

Lemma selectSlide_beyond_children env o st children j :
  slides st = Some (imap init_slide children) → length children ≤ j →
  V1.selectSlide env (num_of_nat j) o st = st ∧
  V2.selectSlide (num_of_nat j) o st = st ∧
  loadSlideContent (num_of_nat j) st = st.
Proof.
  intros Hs Hj.
  assert (Hno : ∀ k sl (t : Element),
                  slides st = Some sl →
                  js_array_index (num_of_nat j) = Some k →
                  sl !! k = Some t → False).
  { intros k sl t Hsl Hk Ht. rewrite Hs in Hsl. injection Hsl as <-.
    rewrite js_array_index_nat in Hk. injection Hk as <-.
    apply lookup_lt_Some in Ht. rewrite length_imap in Ht. lia. }
  split; [|split].
  - destruct (V1_select_cases env (num_of_nat j) o st)
      as [H|(k & t & sl & Hsl & Hk & Ht & _)]; [done|].
    destruct (Hno k sl t Hsl Hk Ht).
  - destruct (V2_select_cases (num_of_nat j) o st)
      as [H|(k & t & sl & Hsl & Hk & Ht & _)]; [done|].
    destruct (Hno k sl t Hsl Hk Ht).
  - destruct (loadSlideContent_cases (num_of_nat j) st)
      as [H|(k & sl & t & Hsl & Hk & Ht)]; [done|].
    destruct (Hno k sl t Hsl Hk Ht).
Qed.

(** X20. A thumbnail button beyond the last slide is wired like the
    others but inert: attaching leaves it as the markup had it, and a
    click on it or a pointerenter changes nothing, in both variants. *)
Theorem spare_thumbnail_is_inert (env : Env) (children : list Element)
    (container : Element) (s : State) (j : nat) (b : Element) :
  listeners s = [] → 2 ≤ nextClosure s →
  NoDup (map el_id (querySelectorAll sel_thumbnail container)) →
  querySelectorAll sel_thumbnail container !! j = Some b →
  length children ≤ j →
  (let st := V1.connectedCallback env children (Some container) s in
   button_at st j = Some b ∧
   V1Run.dispatch env (el_id b) "click" st = st ∧
   V1Run.dispatch env (el_id b) "pointerenter" st = st) ∧
  (let st := V2.connectedCallback env children (Some container) s in
   button_at st j = Some b ∧
   V2Run.dispatch (el_id b) "click" st = st ∧
   V2Run.dispatch (el_id b) "pointerenter" st = st).
Proof.
  intros Hl Hn Hnd Hb Hj.
  destruct (handler_listeners_for (nextClosure s) 0 _ j b Hnd Hb) as [Hc Hp].
  assert (Hbtn : imap (init_thumbnail env (imap init_slide children) (nextNode s))
                   (querySelectorAll sel_thumbnail container) !! j = Some b).
  { rewrite list_lookup_imap, Hb. cbn [fmap option_fmap option_map].
    unfold init_thumbnail. rewrite list_lookup_imap.
    by rewrite (lookup_ge_None_2 children j Hj). }
  split; cbv zeta.
  - pose proof (V1_connected_listeners env children container s Hl Hn) as HL.
    destruct (selectSlide_beyond_children env default_options _ children j
                (V1_connected_slides env children (Some container) s) Hj)
      as (Hsel & _ & Hload).
    split.
    { unfold button_at. by rewrite V1_connected_buttons. }
    unfold V1Run.dispatch.
    rewrite (listeners_for_connected _ _ "click" _ _ _ HL), Hc.
    2:{ intros l Hin. apply list_elem_of_singleton in Hin as ->. done. }
    rewrite (listeners_for_connected _ _ "pointerenter" _ _ _ HL), Hp.
    2:{ intros l Hin. apply list_elem_of_singleton in Hin as ->. done. }
    split; [exact Hsel|exact Hload].
  - pose proof (V2_connected_listeners env children container s Hl Hn) as HL.
    destruct (selectSlide_beyond_children env default_options _ children j
                (V2_connected_slides env children (Some container) s) Hj)
      as (_ & Hsel & Hload).
    split.
    { unfold button_at. by rewrite V2_connected_buttons. }
    unfold V2Run.dispatch.
    rewrite (listeners_for_connected _ _ "click" _ _ _ HL), Hc.
    2:{ intros l Hin. apply elem_of_cons in Hin as [->|Hin]; [done|].
        apply list_elem_of_singleton in Hin as ->. done. }
    rewrite (listeners_for_connected _ _ "pointerenter" _ _ _ HL), Hp.
    2:{ intros l Hin. apply elem_of_cons in Hin as [->|Hin]; [done|].
        apply list_elem_of_singleton in Hin as ->. done. }
    split; [exact Hsel|exact Hload].
Qed.

Lemma spare_buttons_NoDup :
  NoDup (map el_id (querySelectorAll sel_thumbnail (sample_thumbnails 50 4))).
Proof.
  apply (bool_decide_unpack
           (NoDup (map el_id (querySelectorAll sel_thumbnail
                                (sample_thumbnails 50 4))))).
  by vm_compute.
Qed.

Lemma spare_thumbnail_is_inert_witness :
  listeners (new_component 1 100) = [] ∧
  2 ≤ nextClosure (new_component 1 100) ∧
  NoDup (map el_id (querySelectorAll sel_thumbnail (sample_thumbnails 50 4))) ∧
  querySelectorAll sel_thumbnail (sample_thumbnails 50 4) !! 3
  = Some (default lazy_slide
            (querySelectorAll sel_thumbnail (sample_thumbnails 50 4) !! 3)) ∧
  length (sample_slides 10 3) ≤ 3 ∧
  V2Run.dispatch
    (el_id (default lazy_slide
              (querySelectorAll sel_thumbnail (sample_thumbnails 50 4) !! 3)))
    "click"
    (V2.connectedCallback sample_env (sample_slides 10 3)
       (Some (sample_thumbnails 50 4)) (new_component 1 100))
  = V2.connectedCallback sample_env (sample_slides 10 3)
      (Some (sample_thumbnails 50 4)) (new_component 1 100).
Proof.
  assert (H1 : listeners (new_component 1 100) = []) by reflexivity.
  assert (H2 : 2 ≤ nextClosure (new_component 1 100)) by (cbn; lia).
  pose proof spare_buttons_NoDup as H3.
  assert (H4 : querySelectorAll sel_thumbnail (sample_thumbnails 50 4) !! 3
               = Some (default lazy_slide
                         (querySelectorAll sel_thumbnail
                            (sample_thumbnails 50 4) !! 3)))
    by (by vm_compute).
  assert (H5 : length (sample_slides 10 3) ≤ 3) by (cbn; lia).
  split; [exact H1|]. split; [exact H2|]. split; [exact H3|].
  split; [exact H4|]. split; [exact H5|].
  exact (proj1 (proj2 (proj2 (spare_thumbnail_is_inert sample_env
                                (sample_slides 10 3) (sample_thumbnails 50 4)
                                (new_component 1 100) 3 _ H1 H2 H3 H4 H5)))).
Defined.

End SpareThumbnails.
